(** * Consensus validation rules of bchd: [blockchain/validate.go]

    A shallow embedding of the block and transaction validation rules and the
    properties stated about them.  Go's fixed-width integers are integers of
    [Z] with the wrap-around of every conversion written out; byte strings
    are lists of [Byte.byte]; the sets the code keeps in Go maps are [gset]s. *)

From Stdlib Require Import ZArith List Bool Lia Sorted.
From Stdlib Require String DecimalString DecimalZ.
From stdpp Require Import base decidable countable gmap.
Import ListNotations.
Local Open Scope Z_scope.

(** ** Fixed-width integers *)

Module GoInt.

(** Conversion to a signed [w]-bit integer (two's complement). *)
Definition wrap_signed (w : Z) (z : Z) : Z :=
  (z + 2 ^ (w - 1)) mod 2 ^ w - 2 ^ (w - 1).

Definition int32 (z : Z) : Z := wrap_signed 32 z.
Definition int64 (z : Z) : Z := wrap_signed 64 z.
Definition uint32 (z : Z) : Z := z mod 2 ^ 32.
Definition uint64 (z : Z) : Z := z mod 2 ^ 64.

(** [uint] is the 64-bit unsigned type of the platforms bchd targets. *)
Definition uint (z : Z) : Z := uint64 z.

Definition MaxUint32 : Z := 4294967295.

Definition is_int32 (z : Z) : Prop := - 2 ^ 31 <= z < 2 ^ 31.
Definition is_int64 (z : Z) : Prop := - 2 ^ 63 <= z < 2 ^ 63.
Definition is_uint32 (z : Z) : Prop := 0 <= z < 2 ^ 32.
Definition is_uint64 (z : Z) : Prop := 0 <= z < 2 ^ 64.

(** Go's [/] on int32: truncation towards zero, wrapping on overflow. *)
Definition div32 (a b : Z) : Z := int32 (Z.quot a b).
Definition sub32 (a b : Z) : Z := int32 (a - b).
Definition add64 (a b : Z) : Z := int64 (a + b).
Definition sub64 (a b : Z) : Z := int64 (a - b).

End GoInt.
Import GoInt.

(** ** Errors *)

(** Modelled from the spec: the [ErrorCode] constants are declared in
    [blockchain/error.go], outside the given sources; these are the tags of
    the rule errors the specification lists. *)
Inductive ErrorCode : Set :=
  | ErrNoTxInputs | ErrNoTxOutputs | ErrTxTooBig | ErrTxTooSmall
  | ErrBadTxOutValue | ErrDuplicateTxInputs | ErrBadCoinbaseScriptLen
  | ErrBadTxInput | ErrUnexpectedDifficulty | ErrHighHash | ErrInvalidTime
  | ErrTimeTooNew | ErrTimeTooOld | ErrNoTransactions | ErrFirstTxNotCoinbase
  | ErrMultipleCoinbases | ErrInvalidTxOrder | ErrBadMerkleRoot
  | ErrDuplicateTx | ErrBlockTooBig | ErrBlockTooSmall | ErrUnfinalizedTx
  | ErrMissingCoinbaseHeight | ErrBadCoinbaseHeight | ErrBadCheckpoint
  | ErrForkTooOld | ErrBlockVersionTooOld | ErrOverwriteTx | ErrMissingTxOut
  | ErrSpentTxOut | ErrImmatureSpend | ErrSpendTooHigh | ErrBadFees
  | ErrBadCoinbaseValue | ErrPrevBlockNotBest.

(** A Go [error] value: a rule error (its description string is diagnostic
    only and left out), or an error handed up by a collaborator outside the
    rule engine (the utxo store, the script engine, the version-bits state),
    identified by a number. *)
Inductive error : Set :=
  | RuleError (c : ErrorCode)
  | ForeignError (tag : nat).

Definition ruleError (c : ErrorCode) : error := RuleError c.

#[global] Instance ErrorCode_eq_dec : EqDecision ErrorCode.
Proof. solve_decision. Defined.
#[global] Instance error_eq_dec : EqDecision error.
Proof. solve_decision. Defined.

(** The value of a function returning [(T, error)]. *)
Inductive result (A : Type) : Type :=
  | Ok (a : A)
  | Err (e : error).
Arguments Ok {A} a.
Arguments Err {A} e.

(** ** Wire data *)

(** Modelled from the spec: [chainhash.Hash] (a 32-byte hash) is declared
    outside the given sources.  A hash is read as the 256-bit number its
    hexadecimal string denotes; [IsEqual] is then equality and [Compare] the
    order of the numbers. *)
Definition Hash : Set := Z.

Definition zeroHash : Hash := 0.

Definition Hash_IsEqual (a b : Hash) : bool := a =? b.

(** Modelled from the spec: [chainhash.Hash.Compare] is declared outside the
    given sources; the ordering rule is stated as [txid[i] > txid[i-1]], so
    [Compare] is the three-way comparison of the hashes as numbers. *)
Definition Hash_Compare (a b : Hash) : Z :=
  match a ?= b with
  | Lt => -1
  | Eq => 0
  | Gt => 1
  end.

(** Modelled from the spec: the [wire] types [OutPoint], [TxIn], [TxOut] and
    [MsgTx] are declared outside the given sources; the fields are those of
    the data model (outpoint of hash and index; input of previous outpoint,
    signature script and sequence; output of value and script; transaction of
    version, inputs, outputs and lock time). *)
Record OutPoint : Set := mkOutPoint {
  op_Hash : Hash;
  op_Index : Z                      (* uint32 *)
}.

#[global] Instance OutPoint_eq_dec : EqDecision OutPoint.
Proof. solve_decision. Defined.

#[global] Instance OutPoint_countable : Countable OutPoint :=
  inj_countable' (fun o => (op_Hash o, op_Index o))
                 (fun p => mkOutPoint (fst p) (snd p))
                 (fun o => match o with mkOutPoint _ _ => eq_refl end).

Record TxIn : Set := mkTxIn {
  PreviousOutPoint : OutPoint;
  SignatureScript : list Byte.byte;
  Sequence : Z                      (* uint32 *)
}.

Record TxOut : Set := mkTxOut {
  Value : Z;                        (* int64 *)
  PkScript : list Byte.byte
}.

Record MsgTx : Set := mkMsgTx {
  Version : Z;                      (* int32 *)
  TxIns : list TxIn;
  TxOuts : list TxOut;
  LockTime : Z                      (* uint32 *)
}.

(** Modelled from the spec: [bchutil.Tx] is declared outside the given
    sources: a wire transaction together with its cached hash (its txid).
    The hash function lies outside the rule engine, so the cached value is
    carried as data. *)
Record Tx : Set := mkTx {
  MsgTx_of : MsgTx;
  TxHash : Hash
}.

(** ** Constants *)

(** Modelled from the spec: [bchutil.SatoshiPerBitcoin] and
    [bchutil.MaxSatoshi] are declared outside the given sources; the base
    subsidy is given as [50 * 10^8] satoshi, and the money supply is 21
    million coins. *)
Definition SatoshiPerBitcoin : Z := 100000000.
Definition MaxSatoshi : Z := 21000000 * SatoshiPerBitcoin.

(** The constants of [validate.go]. *)

Definition oneMegabyte : Z := 1000000.
Definition MaxTimeOffsetSeconds : Z := 2 * 60 * 60.
Definition MinCoinbaseScriptLen : Z := 2.
Definition MaxCoinbaseScriptLen : Z := 100.
Definition serializedHeightVersion : Z := 2.
Definition baseSubsidy : Z := 50 * SatoshiPerBitcoin.
Definition LegacyMaxBlockSize : Z := 1000000.
Definition MaxTransactionSize : Z := oneMegabyte.
Definition MagneticAnomalyMinTransactionSize : Z := 100.
Definition MinTransactionSize : Z := 65.
Definition BlockMaxBytesMaxSigChecksRatio : Z := 141.
Definition MaxTransactionSigChecks : Z := 3000.

(** Modelled from the spec: [txscript.LockTimeThreshold] and the opcodes
    [OP_0], [OP_1] and [OP_16] are declared outside the given sources; the
    specification gives 500_000_000, 0x00, 0x51 and 0x60. *)
Definition LockTimeThreshold : Z := 500000000.
Definition OP_0 : Z := 0.
Definition OP_1 : Z := 81.
Definition OP_16 : Z := 96.

Definition block91842Hash : Hash :=
  0x00000000000a4d0a398161ffc163c503763b1f4360639393e0e4c8e300e0caec.
Definition block91880Hash : Hash :=
  0x00000000000743f190a18c5577a3c2d2a1f610ae9601ac046a38084ccb7cd721.

(** Modelled from the spec: [chaincfg.Params] is declared outside the given
    sources; these are the chain parameters the rules read. *)
Record Params : Set := mkParams {
  GenesisHash : Hash;
  PowLimit : Z;
  SubsidyReductionInterval : Z;     (* int32 *)
  CoinbaseMaturity : Z;             (* uint16 *)
  BIP0034Height : Z;                (* int32 *)
  BIP0065Height : Z;
  BIP0066Height : Z;
  UahfForkHeight : Z;
  DaaForkHeight : Z;
  MagneticAnonomalyForkHeight : Z;
  GreatWallForkHeight : Z;
  GravitonForkHeight : Z;
  PhononForkHeight : Z;
  Upgrade9ForkHeight : Z;
  ABLAForkHeight : Z;
  CosmicInflationActivationTime : Z; (* uint64 *)
  Upgrade11ActivationTime : Z        (* uint64 *)
}.

Definition byte_val (b : Byte.byte) : Z := Z.of_N (Byte.to_N b).

(** ** Transaction predicates *)

Definition isNullOutpoint (outpoint : OutPoint) : bool :=
  if (op_Index outpoint =? MaxUint32) && Hash_IsEqual (op_Hash outpoint) zeroHash
  then true
  else false.

Definition IsCoinBaseTx (msgTx : MsgTx) : bool :=
  match TxIns msgTx with
  | [txIn0] =>
      let prevOut := PreviousOutPoint txIn0 in
      if negb (op_Index prevOut =? MaxUint32)
         || negb (Hash_IsEqual (op_Hash prevOut) zeroHash)
      then false
      else true
  | _ => false
  end.

Definition IsCoinBase (tx : Tx) : bool := IsCoinBaseTx (MsgTx_of tx).

(** [IsFinalizedTransaction]; [blockTime] is [blockTime.Unix()], an int64
    number of seconds.  The conversions of the uint32 lock time and of the
    int32 height to int64 lose nothing. *)
Definition IsFinalizedTransaction (tx : Tx) (blockHeight : Z) (blockTime : Z) : bool :=
  let msgTx := MsgTx_of tx in
  let lockTime := LockTime msgTx in
  if lockTime =? 0 then true
  else
    let blockTimeOrHeight :=
      if lockTime <? LockTimeThreshold then blockHeight else blockTime in
    if lockTime <? blockTimeOrHeight then true
    else forallb (fun txIn => Sequence txIn =? MaxUint32) (TxIns msgTx).

(** [CalcBlockSubsidy]: the untyped constant [baseSubsidy] takes the result
    type int64; [>>] on a signed integer is the arithmetic shift, defined for
    every unsigned count. *)
Definition CalcBlockSubsidy (height : Z) (chainParams : Params) : Z :=
  if SubsidyReductionInterval chainParams =? 0 then baseSubsidy
  else Z.shiftr baseSubsidy
         (uint (div32 height (SubsidyReductionInterval chainParams))).

(** ** Serialized coinbase height (BIP0034) *)

(** [binary.LittleEndian.Uint64] on a byte slice. *)
Fixpoint le_uint (bs : list Byte.byte) : Z :=
  match bs with
  | [] => 0
  | b :: rest => Z.lor (byte_val b) (Z.shiftl (le_uint rest) 8)
  end.

(** [copy(dst, src)] into a fresh zeroed slice [dst] of [n] bytes. *)
Definition copy_into_zeroed (n : nat) (src : list Byte.byte) : list Byte.byte :=
  firstn n src ++ repeat Byte.x00 (n - length (firstn n src)).

(** The body of [ExtractCoinbaseHeight] once the signature script of input 0
    is in hand. *)
Definition extractHeightFromScript (sigScript : list Byte.byte) : result Z :=
  match sigScript with
  | [] => Err (ruleError ErrMissingCoinbaseHeight)
  | b0 :: tail =>
      let opcode := byte_val b0 in
      if opcode =? OP_0 then Ok 0
      else if (OP_1 <=? opcode) && (opcode <=? OP_16)
      then Ok (int32 (opcode - (OP_1 - 1)))
      else
        let serializedLen := byte_val b0 in
        if Z.of_nat (length tail) <? serializedLen
        then Err (ruleError ErrMissingCoinbaseHeight)
        else
          let serializedHeightBytes :=
            copy_into_zeroed 8 (firstn (Z.to_nat serializedLen) tail) in
          let serializedHeight := le_uint serializedHeightBytes in
          Ok (int32 serializedHeight)
  end.

(** [ExtractCoinbaseHeight]; [None] is the run-time panic of indexing
    [TxIn[0]] in a transaction without inputs. *)
Definition ExtractCoinbaseHeight (coinbaseTx : Tx) : option (result Z) :=
  match TxIns (MsgTx_of coinbaseTx) with
  | [] => None
  | txIn0 :: _ => Some (extractHeightFromScript (SignatureScript txIn0))
  end.

Definition checkSerializedHeight (coinbaseTx : Tx) (wantHeight : Z)
  : option (option error) :=
  match ExtractCoinbaseHeight coinbaseTx with
  | None => None
  | Some (Err e) => Some (Some e)
  | Some (Ok serializedHeight) =>
      if negb (serializedHeight =? wantHeight)
      then Some (Some (ruleError ErrBadCoinbaseHeight))
      else Some None
  end.

(** ** Script flags and behaviour flags *)

(** Modelled from the spec: the [txscript.ScriptFlags] bit set and its
    members are declared outside the given sources.  These are the members
    the rules turn on; a flag set is kept as the list of its members, [|=]
    adding members at the end. *)
Inductive ScriptFlag : Set :=
  | ScriptBip16 | ScriptVerifyDERSignatures | ScriptVerifyCheckLockTimeVerify
  | ScriptVerifyStrictEncoding | ScriptVerifyBip143SigHash | ScriptVerifyLowS
  | ScriptVerifyNullFail | ScriptVerifySigPushOnly | ScriptVerifyCleanStack
  | ScriptVerifyCheckDataSig | ScriptVerifySchnorr
  | ScriptVerifyAllowSegwitRecovery | ScriptVerifyMinimalData
  | ScriptVerifySchnorrMultisig | ScriptReportSigChecks
  | ScriptVerifyReverseBytes | ScriptVerify64BitIntegers
  | ScriptVerifyNativeIntrospection | ScriptAllowCashTokens
  | ScriptAllowMay2025 | ScriptVerifyCheckSequenceVerify.

Definition ScriptFlags : Set := list ScriptFlag.

Definition flags_or (fs : ScriptFlags) (more : list ScriptFlag) : ScriptFlags :=
  fs ++ more.

(** Modelled from the spec: [BehaviorFlags] is declared outside the given
    sources; the bits the rules test are kept as one boolean per bit, and
    [HasFlag] reads the boolean. *)
Record BehaviorFlags : Set := mkBehaviorFlags {
  BFFastAdd : bool;
  BFNoPoWCheck : bool;
  BFMagneticAnomaly : bool;
  BFUpgrade9 : bool
}.

Definition BFNone : BehaviorFlags := mkBehaviorFlags false false false false.

(** ** Blocks *)

(** A [time.Time] of the Go library: seconds since the epoch and the
    nanoseconds within the second, with [Equal], [After] and [Add] on
    them. *)
Record Time : Set := mkTime {
  Unix : Z;
  Nanosecond : Z
}.

Definition time_Unix (sec nsec : Z) : Time := mkTime sec nsec.

Definition Time_Equal (a b : Time) : bool :=
  (Unix a =? Unix b) && (Nanosecond a =? Nanosecond b).

Definition Time_After (a b : Time) : bool :=
  (Unix b <? Unix a) || ((Unix a =? Unix b) && (Nanosecond b <? Nanosecond a)).

Definition Time_AddSeconds (t : Time) (s : Z) : Time :=
  mkTime (Unix t + s) (Nanosecond t).

(** Modelled from the spec: [wire.BlockHeader] is declared outside the
    given sources; the fields are those of the header of the data model. *)
Record BlockHeader : Set := mkBlockHeader {
  hdr_Version : Z;                  (* int32 *)
  PrevBlock : Hash;
  MerkleRoot : Hash;
  Timestamp : Time;
  Bits : Z;                         (* uint32 *)
  Nonce : Z                         (* uint32 *)
}.

(** Modelled from the spec: [bchutil.Block] is declared outside the given
    sources: the header, the transactions and the height the block was
    given. *)
Record Block : Set := mkBlock {
  Header : BlockHeader;
  Transactions : list Tx;
  Height : Z                        (* int32 *)
}.

Definition ShouldHaveSerializedBlockHeight (header : BlockHeader) : bool :=
  serializedHeightVersion <=? hdr_Version header.

(** Modelled from the spec: [HashToBig] is declared outside the given
    sources; it yields the hash as an integer, which is the identity on a
    hash read as the number of its hexadecimal string. *)
Definition HashToBig (h : Hash) : Z := h.

(** The script flags [checkBlockSanity] hands to the transaction checks
    ([var scriptFlags] and the [|=] under MagneticAnomaly). *)
Definition sanityScriptFlags (magneticAnomaly : bool) : ScriptFlags :=
  let scriptFlags : ScriptFlags := [] in
  if magneticAnomaly
  then flags_or scriptFlags [ScriptVerifySigPushOnly; ScriptVerifyCleanStack;
                             ScriptVerifyCheckDataSig]
  else scriptFlags.

(** ** Context-free checks *)

Section ContextFree.

(** Functions of [wire], [bchutil] and the difficulty code that the rules
    call and whose definitions lie outside this file. *)
Variable SerializeSize : MsgTx -> Z.
Variable CompactToBig : Z -> Z.
Variable BlockHash : BlockHeader -> Hash.
(** The last entry of [BuildMerkleTreeStore]. *)
Variable calcMerkleRoot : list Tx -> Hash.
(** [timeSource.AdjustedTime()]. *)
Variable AdjustedTime : Time.

(** The loop of [CheckTransactionSanity] over the outputs, with the
    running total as loop state. *)
Fixpoint checkOutputValues (outs : list TxOut) (totalSatoshi : Z)
  : option error :=
  match outs with
  | [] => None
  | txOut :: rest =>
      let satoshi := Value txOut in
      if satoshi <? 0 then Some (ruleError ErrBadTxOutValue)
      else if MaxSatoshi <? satoshi then Some (ruleError ErrBadTxOutValue)
      else
        let totalSatoshi := add64 totalSatoshi satoshi in
        if totalSatoshi <? 0 then Some (ruleError ErrBadTxOutValue)
        else if MaxSatoshi <? totalSatoshi
        then Some (ruleError ErrBadTxOutValue)
        else checkOutputValues rest totalSatoshi
  end.

(** The loop over the inputs that looks for a repeated outpoint. *)
Fixpoint checkDuplicateInputs (ins : list TxIn) (existingTxOut : gset OutPoint)
  : option error :=
  match ins with
  | [] => None
  | txIn :: rest =>
      if bool_decide (PreviousOutPoint txIn ∈ existingTxOut)
      then Some (ruleError ErrDuplicateTxInputs)
      else checkDuplicateInputs rest ({[PreviousOutPoint txIn]} ∪ existingTxOut)
  end.

Definition CheckTransactionSanity (tx : Tx) (magneticAnomalyActive : bool)
    (upgrade9Active : bool) (scriptFlags : ScriptFlags) : option error :=
  let msgTx := MsgTx_of tx in
  if Z.of_nat (length (TxIns msgTx)) =? 0
  then Some (ruleError ErrNoTxInputs)
  else if Z.of_nat (length (TxOuts msgTx)) =? 0
  then Some (ruleError ErrNoTxOutputs)
  else
    let serializedTxSize := SerializeSize (MsgTx_of tx) in
    if MaxTransactionSize <? serializedTxSize
    then Some (ruleError ErrTxTooBig)
    else
      let tooSmall :=
        if magneticAnomalyActive || upgrade9Active then
          let minTxSize :=
            if upgrade9Active then MinTransactionSize
            else MagneticAnomalyMinTransactionSize in
          serializedTxSize <? minTxSize
        else false in
      if tooSmall then Some (ruleError ErrTxTooSmall)
      else
        match checkOutputValues (TxOuts msgTx) 0 with
        | Some e => Some e
        | None =>
            match checkDuplicateInputs (TxIns msgTx) ∅ with
            | Some e => Some e
            | None =>
                if IsCoinBase tx then
                  let slen :=
                    match TxIns msgTx with
                    | txIn0 :: _ => Z.of_nat (length (SignatureScript txIn0))
                    | [] => 0
                    end in
                  if (slen <? MinCoinbaseScriptLen)
                     || (MaxCoinbaseScriptLen <? slen)
                  then Some (ruleError ErrBadCoinbaseScriptLen)
                  else None
                else
                  if existsb (fun txIn => isNullOutpoint (PreviousOutPoint txIn))
                             (TxIns msgTx)
                  then Some (ruleError ErrBadTxInput)
                  else None
            end
        end.

Definition checkProofOfWork (header : BlockHeader) (powLimit : Z)
    (flags : BehaviorFlags) : option error :=
  let target := CompactToBig (Bits header) in
  if target <=? 0 then Some (ruleError ErrUnexpectedDifficulty)
  else if powLimit <? target then Some (ruleError ErrUnexpectedDifficulty)
  else
    if negb (BFNoPoWCheck flags) then
      let hash := BlockHash header in
      let hashNum := HashToBig hash in
      if target <? hashNum then Some (ruleError ErrHighHash) else None
    else None.

Definition checkBlockHeaderSanity (header : BlockHeader) (powLimit : Z)
    (flags : BehaviorFlags) : option error :=
  match checkProofOfWork header powLimit flags with
  | Some err => Some err
  | None =>
      if negb (Time_Equal (Timestamp header)
                 (time_Unix (Unix (Timestamp header)) 0))
      then Some (ruleError ErrInvalidTime)
      else
        let maxTimestamp := Time_AddSeconds AdjustedTime MaxTimeOffsetSeconds in
        if Time_After (Timestamp header) maxTimestamp
        then Some (ruleError ErrTimeTooNew)
        else None
  end.

(** The loop of [checkBlockSanity] over the transactions: [i] is the
    index of the head of [txs] and [lastTxid] the hash of the transaction
    before it (the initial nil pointer is never compared, the guard
    [i > 1] comes first). *)
Fixpoint checkTransactionsLoop (magneticAnomaly upgrade9 : bool)
    (scriptFlags : ScriptFlags) (i : Z) (lastTxid : Hash) (txs : list Tx)
  : option error :=
  match txs with
  | [] => None
  | tx :: rest =>
      if magneticAnomaly && (1 <? i)
         && (0 <=? Hash_Compare lastTxid (TxHash tx))
      then Some (ruleError ErrInvalidTxOrder)
      else
        match CheckTransactionSanity tx magneticAnomaly upgrade9 scriptFlags with
        | Some err => Some err
        | None =>
            checkTransactionsLoop magneticAnomaly upgrade9 scriptFlags
              (i + 1) (TxHash tx) rest
        end
  end.

(** The loop that looks for a repeated transaction hash. *)
Fixpoint checkDuplicateTxs (txs : list Tx) (existingTxHashes : gset Z)
  : option error :=
  match txs with
  | [] => None
  | tx :: rest =>
      let hash := TxHash tx in
      if bool_decide (hash ∈ existingTxHashes)
      then Some (ruleError ErrDuplicateTx)
      else checkDuplicateTxs rest ({[hash]} ∪ existingTxHashes)
  end.

Definition checkBlockSanity (block : Block) (powLimit : Z)
    (flags : BehaviorFlags) : option error :=
  let header := Header block in
  match checkBlockHeaderSanity header powLimit flags with
  | Some err => Some err
  | None =>
      let transactions := Transactions block in
      match transactions with
      | [] => Some (ruleError ErrNoTransactions)
      | tx0 :: others =>
          if negb (IsCoinBase tx0)
          then Some (ruleError ErrFirstTxNotCoinbase)
          else if existsb IsCoinBase others
          then Some (ruleError ErrMultipleCoinbases)
          else
            let magneticAnomaly := BFMagneticAnomaly flags in
            let upgrade9 := BFUpgrade9 flags in
            let scriptFlags := sanityScriptFlags magneticAnomaly in
            match checkTransactionsLoop magneticAnomaly upgrade9 scriptFlags
                    0 zeroHash transactions with
            | Some err => Some err
            | None =>
                let calculatedMerkleRoot := calcMerkleRoot transactions in
                if negb (Hash_IsEqual (MerkleRoot header) calculatedMerkleRoot)
                then Some (ruleError ErrBadMerkleRoot)
                else checkDuplicateTxs transactions ∅
            end
      end
  end.

Definition CheckBlockSanity (block : Block) (powLimit : Z)
    (magneticAnomalyActive upgrade9Active : bool) : option error :=
  let behaviorFlags := BFNone in
  let behaviorFlags :=
    if magneticAnomalyActive
    then mkBehaviorFlags (BFFastAdd behaviorFlags) (BFNoPoWCheck behaviorFlags)
                         true (BFUpgrade9 behaviorFlags)
    else behaviorFlags in
  let behaviorFlags :=
    if upgrade9Active
    then mkBehaviorFlags (BFFastAdd behaviorFlags) (BFNoPoWCheck behaviorFlags)
                         (BFMagneticAnomaly behaviorFlags) true
    else behaviorFlags in
  checkBlockSanity block powLimit behaviorFlags.

End ContextFree.

(** ** Chain state *)

(** Modelled from the spec: [blockNode] is declared outside the given
    sources: a position in the block index with hash, height, timestamp and
    parent. *)
#[local] Set Warnings "-register-all".
Inductive blockNode : Set := mkBlockNode {
  node_hash : Hash;
  node_height : Z;                  (* int32 *)
  node_timestamp : Z;               (* int64, seconds *)
  node_parent : option blockNode
}.

(** Modelled from the spec: [UtxoEntry] is declared outside the given
    sources; the record holds the values its accessors return (amount,
    script, creation height, coinbase and spent flags). *)
Record UtxoEntry : Set := mkUtxoEntry {
  Amount : Z;                       (* int64 *)
  utxo_PkScript : list Byte.byte;
  BlockHeight : Z;                  (* int32 *)
  utxo_IsCoinBase : bool;
  IsSpent : bool
}.

(** Modelled from the spec: [UtxoViewpoint] is declared outside the given
    sources; it is the map of its entries, and [LookupEntry] the lookup. *)
Abbreviation UtxoViewpoint := (gmap OutPoint UtxoEntry).

Definition LookupEntry (view : UtxoViewpoint) (outpoint : OutPoint)
  : option UtxoEntry := view !! outpoint.

(** Modelled from the spec: [SpentTxOut], [SequenceLock], [ThresholdState]
    and the checkpoint record are declared outside the given sources. *)
Record SpentTxOut : Set := mkSpentTxOut {
  stxo_Amount : Z;
  stxo_PkScript : list Byte.byte;
  stxo_Height : Z;
  stxo_IsCoinBase : bool
}.

Record SequenceLock : Set := mkSequenceLock {
  Seconds : Z;                      (* int64 *)
  sl_BlockHeight : Z                (* int32 *)
}.

Inductive ThresholdState : Set :=
  | ThresholdDefined | ThresholdStarted | ThresholdLockedIn
  | ThresholdActive | ThresholdFailed.

#[global] Instance ThresholdState_eq_dec : EqDecision ThresholdState.
Proof. solve_decision. Defined.

Record Checkpoint : Set := mkCheckpoint {
  cp_Height : Z;                    (* int32 *)
  cp_Hash : Hash
}.

(** Modelled from the spec: [BlockChain] is declared outside the given
    sources.  This is the state of it the connect rules read: the parameters,
    the configured excessive block size, the limit the ABLA controller
    reports ([ablaState.getBlockSizeLimit()], a uint64) and the latest
    checkpoint. *)
Record BlockChain : Set := mkBlockChain {
  chainParams : Params;
  excessiveBlockSize : Z;
  ablaBlockSizeLimit : Z;
  LatestCheckpoint : option Checkpoint
}.

Definition MaxBlockSize (b : BlockChain) (uahfActive ablaActive : bool) : Z :=
  if uahfActive then
    if negb ablaActive then uint64 (excessiveBlockSize b)
    else ablaBlockSizeLimit b
  else LegacyMaxBlockSize.

Definition SequenceLockActive (sequenceLock : SequenceLock) (blockHeight : Z)
    (medianTimePast : Time) : bool :=
  if (Unix medianTimePast <=? Seconds sequenceLock)
     || (blockHeight <=? sl_BlockHeight sequenceLock)
  then false
  else true.

Definition isBIP0030Node (node : blockNode) : bool :=
  if (node_height node =? 91842) && Hash_IsEqual (node_hash node) block91842Hash
  then true
  else if (node_height node =? 91880)
          && Hash_IsEqual (node_hash node) block91880Hash
  then true
  else false.

(** ** Input and value checks *)

(** The loop of [CheckTransactionInputs] over the inputs; the loop state is
    [totalSatoshiIn], which the loop hands on when every input passes. *)
Fixpoint checkInputsLoop (ins : list TxIn) (txHeight : Z)
    (utxoView : UtxoViewpoint) (params : Params) (totalSatoshiIn : Z)
  : result Z :=
  match ins with
  | [] => Ok totalSatoshiIn
  | txIn :: rest =>
      match LookupEntry utxoView (PreviousOutPoint txIn) with
      | None => Err (ruleError ErrMissingTxOut)
      | Some utxo =>
          if IsSpent utxo then Err (ruleError ErrSpentTxOut)
          else
            let immature :=
              if utxo_IsCoinBase utxo then
                let originHeight := BlockHeight utxo in
                let blocksSincePrev := sub32 txHeight originHeight in
                let coinbaseMaturity := int32 (CoinbaseMaturity params) in
                blocksSincePrev <? coinbaseMaturity
              else false in
            if immature then Err (ruleError ErrImmatureSpend)
            else
              let originTxSatoshi := Amount utxo in
              if originTxSatoshi <? 0 then Err (ruleError ErrBadTxOutValue)
              else if MaxSatoshi <? originTxSatoshi
              then Err (ruleError ErrBadTxOutValue)
              else
                let lastSatoshiIn := totalSatoshiIn in
                let totalSatoshiIn := add64 totalSatoshiIn originTxSatoshi in
                if (totalSatoshiIn <? lastSatoshiIn)
                   || (MaxSatoshi <? totalSatoshiIn)
                then Err (ruleError ErrBadTxOutValue)
                else checkInputsLoop rest txHeight utxoView params totalSatoshiIn
      end
  end.

(** The int64 sum of the output values, [+=] wrapping. *)
Definition sumOutputs (outs : list TxOut) : Z :=
  fold_left (fun total txOut => add64 total (Value txOut)) outs 0.

Definition CheckTransactionInputs (tx : Tx) (txHeight : Z)
    (utxoView : UtxoViewpoint) (params : Params) : result Z :=
  if IsCoinBase tx then Ok 0
  else
    match checkInputsLoop (TxIns (MsgTx_of tx)) txHeight utxoView params 0 with
    | Err e => Err e
    | Ok totalSatoshiIn =>
        let totalSatoshiOut := sumOutputs (TxOuts (MsgTx_of tx)) in
        if totalSatoshiIn <? totalSatoshiOut
        then Err (ruleError ErrSpendTooHigh)
        else
          let txFeeInSatoshi := sub64 totalSatoshiIn totalSatoshiOut in
          Ok txFeeInSatoshi
    end.

(** ** The connect orchestrator *)

(** What [checkConnectBlock] asks of its collaborators, in the order asked:
    the observable course of one run. *)
Inductive Event : Set :=
  | EvCheckBIP0030
  | EvAddInputUtxos (magneticAnomalyActive : bool)
  | EvConnectTransaction (tx : Tx)
  | EvConnectTransactions
  | EvDeploymentState
  | EvCalcSequenceLock (tx : Tx)
  | EvCheckBlockScripts (scriptFlags : ScriptFlags) (maxSigChecks : Z).

(** What a run of the orchestrator works on: the utxo view and the spent
    txout log it is handed (both updated in place by the code), and the
    calls made so far. *)
Record ConnectState : Set := mkConnectState {
  st_view : UtxoViewpoint;
  st_stxos : option (list SpentTxOut);
  st_trace : list Event
}.

(** One statement of a Go function body: it falls through with a value,
    leaves the function with the returned [error], or panics. *)
Inductive flow (A : Type) : Type :=
  | Next (a : A)
  | Return (r : option error)
  | Panic.
Arguments Next {A} a.
Arguments Return {A} r.
Arguments Panic {A}.

Definition M (A : Type) : Type := ConnectState -> flow A * ConnectState.

Definition ret {A} (a : A) : M A := fun s => (Next a, s).

Definition bind {A B} (m : M A) (k : A -> M B) : M B :=
  fun s =>
    match m s with
    | (Next a, s') => k a s'
    | (Return r, s') => (Return r, s')
    | (Panic, s') => (Panic, s')
    end.

Declare Scope go_scope.
Delimit Scope go_scope with go.
Notation "x <- m ;; k" := (bind m (fun x => k))
  (at level 100, m at next level, right associativity) : go_scope.
Notation "m ;;; k" := (bind m (fun _ => k))
  (at level 100, right associativity) : go_scope.

(** [return r]. *)
Definition leave {A} (r : option error) : M A := fun s => (Return r, s).

(** [if err != nil { return err }]. *)
Definition propagate (err : option error) : M unit :=
  match err with
  | Some e => leave (Some e)
  | None => ret tt
  end.

Definition emit (ev : Event) : M unit :=
  fun s => (Next tt, mkConnectState (st_view s) (st_stxos s) (st_trace s ++ [ev])).

Definition getView : M UtxoViewpoint := fun s => (Next (st_view s), s).
Definition getStxos : M (option (list SpentTxOut)) := fun s => (Next (st_stxos s), s).

Definition putView (v : UtxoViewpoint) : M unit :=
  fun s => (Next tt, mkConnectState v (st_stxos s) (st_trace s)).
Definition putStxos (x : option (list SpentTxOut)) : M unit :=
  fun s => (Next tt, mkConnectState (st_view s) x (st_trace s)).

Definition panic {A} : M A := fun s => (Panic, s).

Local Open Scope go_scope.

Section Connect.

(** The collaborators of the rule engine: the utxo cache and the view
    operations of [utxoviewpoint.go], the version-bits state, the sequence
    lock calculation, the script engine and the median time of the block
    index.  A view operation hands back the view (and the spent txout log)
    as it leaves them. *)
Variable FetchEntry : OutPoint -> result (option UtxoEntry).
Variable addInputUtxos :
  UtxoViewpoint -> Block -> bool -> UtxoViewpoint * option error.
Variable connectTransaction :
  UtxoViewpoint -> Tx -> Z -> option (list SpentTxOut) -> bool ->
  UtxoViewpoint * option (list SpentTxOut) * option error.
Variable connectTransactions :
  UtxoViewpoint -> Block -> option (list SpentTxOut) -> bool ->
  UtxoViewpoint * option (list SpentTxOut) * option error.
Variable deploymentState : option blockNode -> result ThresholdState.
Variable calcSequenceLock :
  blockNode -> Tx -> UtxoViewpoint -> bool -> result SequenceLock.
Variable checkBlockScripts :
  Block -> UtxoViewpoint -> ScriptFlags -> Z -> Z -> option error.
Variable CalcPastMedianTime : option blockNode -> Time.
(** [txscript.Bip16Activation]. *)
Variable Bip16Activation : Time.

(** The inner loop of [checkBIP0030] over the output indexes of one
    transaction. *)
Fixpoint checkBIP0030Outputs (txHash : Hash) (idxs : list nat)
    (view : UtxoViewpoint) : option error :=
  match idxs with
  | [] => None
  | txOutIdx :: rest =>
      let prevOut := mkOutPoint txHash (uint32 (Z.of_nat txOutIdx)) in
      let fetched :=
        match LookupEntry view prevOut with
        | Some utxo => Ok (Some utxo)
        | None => FetchEntry prevOut
        end in
      match fetched with
      | Err err => Some err
      | Ok (Some utxo) =>
          if negb (IsSpent utxo) then Some (ruleError ErrOverwriteTx)
          else checkBIP0030Outputs txHash rest view
      | Ok None => checkBIP0030Outputs txHash rest view
      end
  end.

Fixpoint checkBIP0030Txs (txs : list Tx) (view : UtxoViewpoint)
  : option error :=
  match txs with
  | [] => None
  | tx :: rest =>
      match checkBIP0030Outputs (TxHash tx)
              (seq 0 (length (TxOuts (MsgTx_of tx)))) view with
      | Some err => Some err
      | None => checkBIP0030Txs rest view
      end
  end.

Definition checkBIP0030 (block : Block) (view : UtxoViewpoint)
  : option error :=
  checkBIP0030Txs (Transactions block) view.

(** The calls of [checkConnectBlock] that update the view in place. *)
Definition call_addInputUtxos (block : Block) (magneticAnomalyActive : bool)
  : M unit :=
  emit (EvAddInputUtxos magneticAnomalyActive) ;;;
  view <- getView ;;
  let '(view', err) := addInputUtxos view block magneticAnomalyActive in
  putView view' ;;;
  propagate err.

Definition call_connectTransaction (tx : Tx) (height : Z)
  : M (option error) :=
  emit (EvConnectTransaction tx) ;;;
  view <- getView ;;
  stxos <- getStxos ;;
  let '(view', stxos', err) := connectTransaction view tx height stxos false in
  putView view' ;;;
  putStxos stxos' ;;;
  ret err.

Definition call_connectTransactions (block : Block) : M (option error) :=
  emit EvConnectTransactions ;;;
  view <- getView ;;
  stxos <- getStxos ;;
  let '(view', stxos', err) := connectTransactions view block stxos false in
  putView view' ;;;
  putStxos stxos' ;;;
  ret err.

(** The loop over the transactions that checks the inputs and sums the
    fees; the loop state is [totalFees]. *)
Fixpoint connectInputsLoop (b : BlockChain) (node : blockNode)
    (magneticAnomalyActive : bool) (txs : list Tx) (totalFees : Z) : M Z :=
  match txs with
  | [] => ret totalFees
  | tx :: rest =>
      view <- getView ;;
      match CheckTransactionInputs tx (node_height node) view (chainParams b) with
      | Err err => leave (Some err)
      | Ok txFee =>
          let lastTotalFees := totalFees in
          let totalFees := add64 totalFees txFee in
          if totalFees <? lastTotalFees
          then leave (Some (ruleError ErrBadFees))
          else
            (if negb magneticAnomalyActive then
               err <- call_connectTransaction tx (node_height node) ;;
               propagate err
             else ret tt) ;;;
            connectInputsLoop b node magneticAnomalyActive rest totalFees
      end
  end.

(** The loop that enforces the sequence locks once CSV is active. *)
Fixpoint sequenceLocksLoop (node : blockNode) (medianTime : Time)
    (txs : list Tx) : M unit :=
  match txs with
  | [] => ret tt
  | tx :: rest =>
      emit (EvCalcSequenceLock tx) ;;;
      view <- getView ;;
      match calcSequenceLock node tx view false with
      | Err err => leave (Some err)
      | Ok sequenceLock =>
          if negb (SequenceLockActive sequenceLock (node_height node) medianTime)
          then leave (Some (ruleError ErrUnfinalizedTx))
          else sequenceLocksLoop node medianTime rest
      end
  end.

Definition checkConnectBlock (b : BlockChain) (node : blockNode)
    (block : Block) : M unit :=
  let params := chainParams b in
  if Hash_IsEqual (node_hash node) (GenesisHash params)
  then leave (Some (ruleError ErrMissingTxOut))
  else
  let uahfActive := UahfForkHeight params <? node_height node in
  let daaActive := DaaForkHeight params <? node_height node in
  let magneticAnomalyActive :=
    MagneticAnonomalyForkHeight params <? node_height node in
  let greatWallActive := GreatWallForkHeight params <? node_height node in
  let gravitonActive := GravitonForkHeight params <? node_height node in
  let phononActive := PhononForkHeight params <? node_height node in
  let cosmicInflationActive :=
    int64 (CosmicInflationActivationTime params)
    <=? Unix (CalcPastMedianTime (node_parent node)) in
  let upgrade9Active := Upgrade9ForkHeight params <? node_height node in
  let upgrade11Active :=
    int64 (Upgrade11ActivationTime params)
    <=? Unix (CalcPastMedianTime (node_parent node)) in
  (if negb (isBIP0030Node node) && (node_height node <? BIP0034Height params)
   then
     emit EvCheckBIP0030 ;;;
     view <- getView ;;
     propagate (checkBIP0030 block view)
   else ret tt) ;;;
  call_addInputUtxos block magneticAnomalyActive ;;;
  let enforceBIP0016 := Unix Bip16Activation <=? node_timestamp node in
  let scriptFlags : ScriptFlags := [] in
  let scriptFlags :=
    if enforceBIP0016 then flags_or scriptFlags [ScriptBip16]
    else scriptFlags in
  let blockHeader := Header block in
  let scriptFlags :=
    if (3 <=? hdr_Version blockHeader)
       && (BIP0066Height params <=? node_height node)
    then flags_or scriptFlags [ScriptVerifyDERSignatures] else scriptFlags in
  let scriptFlags :=
    if (4 <=? hdr_Version blockHeader)
       && (BIP0065Height params <=? node_height node)
    then flags_or scriptFlags [ScriptVerifyCheckLockTimeVerify]
    else scriptFlags in
  let scriptFlags :=
    if uahfActive
    then flags_or scriptFlags
           [ScriptVerifyStrictEncoding; ScriptVerifyBip143SigHash]
    else scriptFlags in
  let scriptFlags :=
    if daaActive
    then flags_or scriptFlags [ScriptVerifyLowS; ScriptVerifyNullFail]
    else scriptFlags in
  let scriptFlags :=
    if magneticAnomalyActive
    then flags_or scriptFlags
           [ScriptVerifySigPushOnly; ScriptVerifyCleanStack;
            ScriptVerifyCheckDataSig]
    else scriptFlags in
  let scriptFlags :=
    if greatWallActive
    then flags_or scriptFlags
           [ScriptVerifySchnorr; ScriptVerifyAllowSegwitRecovery]
    else scriptFlags in
  let scriptFlags :=
    if gravitonActive
    then flags_or scriptFlags
           [ScriptVerifyMinimalData; ScriptVerifySchnorrMultisig]
    else scriptFlags in
  let scriptFlags :=
    if phononActive
    then flags_or scriptFlags [ScriptReportSigChecks; ScriptVerifyReverseBytes]
    else scriptFlags in
  let scriptFlags :=
    if cosmicInflationActive
    then flags_or scriptFlags
           [ScriptVerify64BitIntegers; ScriptVerifyNativeIntrospection]
    else scriptFlags in
  let scriptFlags :=
    if upgrade9Active then flags_or scriptFlags [ScriptAllowCashTokens]
    else scriptFlags in
  let scriptFlags :=
    if upgrade11Active then flags_or scriptFlags [ScriptAllowMay2025]
    else scriptFlags in
  let transactions := Transactions block in
  totalFees <- connectInputsLoop b node magneticAnomalyActive transactions 0 ;;
  (if magneticAnomalyActive then
     err <- call_connectTransactions block ;;
     match err with
     | Some _ => leave None
     | None => ret tt
     end
   else ret tt) ;;;
  match transactions with
  | [] => panic
  | coinbaseTx :: _ =>
      let totalSatoshiOut := sumOutputs (TxOuts (MsgTx_of coinbaseTx)) in
      let expectedSatoshiOut :=
        add64 (CalcBlockSubsidy (node_height node) params) totalFees in
      if expectedSatoshiOut <? totalSatoshiOut
      then leave (Some (ruleError ErrBadCoinbaseValue))
      else
      let checkpoint := LatestCheckpoint b in
      let runScripts :=
        match checkpoint with
        | Some cp => if node_height node <=? cp_Height cp then false else true
        | None => true
        end in
      emit EvDeploymentState ;;;
      match deploymentState (node_parent node) with
      | Err err => leave (Some err)
      | Ok csvState =>
          scriptFlags <-
            (if bool_decide (csvState = ThresholdActive) then
               let scriptFlags :=
                 flags_or scriptFlags [ScriptVerifyCheckSequenceVerify] in
               let medianTime := CalcPastMedianTime (node_parent node) in
               sequenceLocksLoop node medianTime (Transactions block) ;;;
               ret scriptFlags
             else ret scriptFlags) ;;
          (if runScripts then
             let maxSigChecks :=
               uint32 (ablaBlockSizeLimit b) / BlockMaxBytesMaxSigChecksRatio in
             emit (EvCheckBlockScripts scriptFlags maxSigChecks) ;;;
             view <- getView ;;
             propagate (checkBlockScripts block view scriptFlags maxSigChecks
                          (Upgrade9ForkHeight params))
           else ret tt) ;;;
          leave None
      end
  end.

End Connect.

(** ** Runs of the orchestrator

    A property [I] of the calls made so far is preserved by a computation
    when it holds after every run that starts where it holds; it is stable
    for the events [Q] when recording one of them keeps it. *)
Definition preserves {A} (I : list Event -> Prop) (m : M A) : Prop :=
  forall s, I (st_trace s) -> I (st_trace (snd (m s))).

Definition stable (I : list Event -> Prop) (Q : Event -> Prop) : Prop :=
  forall tr ev, I tr -> Q ev -> I (tr ++ [ev]).

(** A computation establishes [I] when [I] holds after every run of it. *)
Definition establishes {A} (I : list Event -> Prop) (m : M A) : Prop :=
  forall s, I (st_trace (snd (m s))).

(** A computation answers nil once the Outputs-Then-Inputs update is made:
    started where [connectTransactions] has not been called, it goes on (or
    panics) without calling it, or it leaves the function, and if it has
    called it by then, what it returns is nil. *)
Definition nilAfterOTI {A} (m : M A) : Prop :=
  forall s,
    ~ In EvConnectTransactions (st_trace s) ->
    match fst (m s) with
    | Return r => In EvConnectTransactions (st_trace (snd (m s))) -> r = None
    | _ => ~ In EvConnectTransactions (st_trace (snd (m s)))
    end.

(** The condition under which [checkConnectBlock] runs [checkBIP0030]. *)
Definition bip0030Applies (params : Params) (node : blockNode) : bool :=
  negb (isBIP0030Node node) && (node_height node <? BIP0034Height params).

(** A block produces an output position that is still unspent in the view
    or, failing an entry there, in the store. *)
Definition overwritesUnspent
    (FetchEntry : OutPoint -> result (option UtxoEntry))
    (txs : list Tx) (view : UtxoViewpoint) : Prop :=
  exists tx txOutIdx utxo,
    In tx txs
    /\ (txOutIdx < length (TxOuts (MsgTx_of tx)))%nat
    /\ (let prevOut := mkOutPoint (TxHash tx) (uint32 (Z.of_nat txOutIdx)) in
        LookupEntry view prevOut = Some utxo
        \/ (LookupEntry view prevOut = None
            /\ FetchEntry prevOut = Ok (Some utxo)))
    /\ IsSpent utxo = false.

(** ** Sample data

    Concrete transactions, parameters and chain states at which the rules
    are evaluated below. *)

Definition nullOutPoint : OutPoint := mkOutPoint zeroHash MaxUint32.

(** The main network values of the parameters the rules read. *)
Definition mainNetLike : Params :=
  {| GenesisHash :=
       0x000000000019d6689c085ae165831e934ff763ae46a2a6c172b3f1b60a8ce26f;
     PowLimit := 2 ^ 224 - 1;
     SubsidyReductionInterval := 210000;
     CoinbaseMaturity := 100;
     BIP0034Height := 227931;
     BIP0065Height := 388381;
     BIP0066Height := 363725;
     UahfForkHeight := 478558;
     DaaForkHeight := 504031;
     MagneticAnonomalyForkHeight := 556766;
     GreatWallForkHeight := 582679;
     GravitonForkHeight := 609135;
     PhononForkHeight := 635258;
     Upgrade9ForkHeight := 792772;
     ABLAForkHeight := 845890;
     CosmicInflationActivationTime := 1652616000;
     Upgrade11ActivationTime := 1747310400 |}.

(** The same parameters with another subsidy reduction interval. *)
Definition withSubsidyInterval (interval : Z) (p : Params) : Params :=
  {| GenesisHash := GenesisHash p;
     PowLimit := PowLimit p;
     SubsidyReductionInterval := interval;
     CoinbaseMaturity := CoinbaseMaturity p;
     BIP0034Height := BIP0034Height p;
     BIP0065Height := BIP0065Height p;
     BIP0066Height := BIP0066Height p;
     UahfForkHeight := UahfForkHeight p;
     DaaForkHeight := DaaForkHeight p;
     MagneticAnonomalyForkHeight := MagneticAnonomalyForkHeight p;
     GreatWallForkHeight := GreatWallForkHeight p;
     GravitonForkHeight := GravitonForkHeight p;
     PhononForkHeight := PhononForkHeight p;
     Upgrade9ForkHeight := Upgrade9ForkHeight p;
     ABLAForkHeight := ABLAForkHeight p;
     CosmicInflationActivationTime := CosmicInflationActivationTime p;
     Upgrade11ActivationTime := Upgrade11ActivationTime p |}.

(** A coinbase transaction with the given signature script and hash. *)
Definition coinbaseWithScript (script : list Byte.byte) (hash : Hash) : Tx :=
  mkTx (mkMsgTx 1 [mkTxIn nullOutPoint script MaxUint32]
                [mkTxOut 5000000000 []] 0) hash.

(** A transaction spending [prev] with the given sequence number, lock time
    and hash, paying [value] to one output. *)
Definition spendOf (prev : OutPoint) (sequence lockTime value : Z) (hash : Hash)
  : Tx :=
  mkTx (mkMsgTx 1 [mkTxIn prev [] sequence] [mkTxOut value []] lockTime) hash.

(** [wire.VarIntSerializeSize] and the size of the wire encoding of a
    transaction without token data. *)
Definition VarIntSerializeSize (val : Z) : Z :=
  if val <? 253 then 1
  else if val <=? 65535 then 3
  else if val <=? 4294967295 then 5
  else 9.

Definition wireSize (msgTx : MsgTx) : Z :=
  let script_size (script : list Byte.byte) :=
    VarIntSerializeSize (Z.of_nat (length script)) + Z.of_nat (length script) in
  fold_left (fun n txOut => n + 8 + script_size (PkScript txOut)) (TxOuts msgTx)
    (fold_left (fun n txIn => n + 40 + script_size (SignatureScript txIn))
       (TxIns msgTx)
       (8 + VarIntSerializeSize (Z.of_nat (length (TxIns msgTx)))
          + VarIntSerializeSize (Z.of_nat (length (TxOuts msgTx))))).

(** A transaction spending [prev] whose single output carries a script of
    [n] zero bytes: its wire encoding takes [60 + n] bytes for [n < 253]. *)
Definition paddedSpend (prev : OutPoint) (n : nat) (hash : Hash) : Tx :=
  mkTx (mkMsgTx 1 [mkTxIn prev [] MaxUint32]
                [mkTxOut 1000 (repeat Byte.x00 n)] 0) hash.

(** The decoding of the compact target, a block hash and a root function
    for the sample blocks. *)
Definition compactToBig (compact : Z) : Z :=
  let mantissa := Z.land compact 0x007fffff in
  let isNegative := negb (Z.land compact 0x00800000 =? 0) in
  let exponent := Z.shiftr compact 24 in
  let bn :=
    if exponent <=? 3 then Z.shiftr mantissa (8 * (3 - exponent))
    else Z.shiftl mantissa (8 * (exponent - 3)) in
  if isNegative then - bn else bn.

Definition sampleBlockHash (_ : BlockHeader) : Hash :=
  0x000000000000000000651ef99cb9fcbe0dadde1d424bd9f15ff20136191a5eec.

Definition xorRoot (txs : list Tx) : Hash :=
  fold_right (fun tx acc => Z.lxor (TxHash tx) acc) 0 txs.

Definition sampleNow : Time := mkTime 1700000000 0.

(** A coinbase whose wire encoding takes 104 bytes, a header on the sample
    target and the behaviour flags of a block after MagneticAnomaly. *)
Definition coinbasePaying (value : Z) (hash : Hash) : Tx :=
  mkTx (mkMsgTx 1
          [mkTxIn nullOutPoint [Byte.x03; Byte.x40; Byte.x0d; Byte.x03]
                  MaxUint32]
          [mkTxOut value (repeat Byte.x00 40)] 0) hash.

Definition sampleCoinbase (hash : Hash) : Tx := coinbasePaying 5000000000 hash.

Definition sampleHeader (merkleRoot : Hash) : BlockHeader :=
  {| hdr_Version := 4;
     PrevBlock := 0x00000000000000000180be5b0c0f1a82c2d2c0a5c4d4c5c1f9a3b2a1d0e0f101;
     MerkleRoot := merkleRoot;
     Timestamp := mkTime 1600000000 0;
     Bits := 0x1802f1e4;
     Nonce := 42 |}.

Definition flagsMagneticAnomaly : BehaviorFlags :=
  mkBehaviorFlags false false true false.

Definition sampleBlock (txs : list Tx) : Block :=
  mkBlock (sampleHeader (xorRoot txs)) txs 600000.

(** A view holding one coinbase output created at height 100, and a
    transaction spending it. *)
Definition coinbaseOutPoint : OutPoint := mkOutPoint 77 0.

Definition coinbaseUtxo : UtxoEntry :=
  mkUtxoEntry 5000000000 [] 100 true false.

Definition viewWithCoinbase : UtxoViewpoint :=
  {[ coinbaseOutPoint := coinbaseUtxo ]}.

Definition spendCoinbase : Tx :=
  spendOf coinbaseOutPoint MaxUint32 0 4999990000 21.

(** Collaborators for the sample runs: a store without entries, a view that
    holds every referenced utxo already, view updates that add the outputs
    of a transaction and mark its inputs spent, the CSV deployment active,
    no relative lock, and a script engine that accepts. *)
Definition emptyStore (_ : OutPoint) : result (option UtxoEntry) := Ok None.

Definition loadedView (view : UtxoViewpoint) (_ : Block) (_ : bool)
  : UtxoViewpoint * option error := (view, None).

Definition markSpent (utxo : UtxoEntry) : UtxoEntry :=
  mkUtxoEntry (Amount utxo) (utxo_PkScript utxo) (BlockHeight utxo)
    (utxo_IsCoinBase utxo) true.

Definition spendInputs (view : UtxoViewpoint) (tx : Tx) : UtxoViewpoint :=
  if IsCoinBase tx then view
  else fold_left (fun v txIn => alter markSpent (PreviousOutPoint txIn) v)
         (TxIns (MsgTx_of tx)) view.

Definition addTxOuts (view : UtxoViewpoint) (tx : Tx) (height : Z)
  : UtxoViewpoint :=
  fold_left
    (fun v p =>
       <[ mkOutPoint (TxHash tx) (Z.of_nat (fst p)) :=
            mkUtxoEntry (Value (snd p)) (PkScript (snd p)) height
              (IsCoinBase tx) false ]> v)
    (combine (seq 0 (length (TxOuts (MsgTx_of tx)))) (TxOuts (MsgTx_of tx)))
    view.

Definition sampleConnectTransaction (view : UtxoViewpoint) (tx : Tx)
    (height : Z) (stxos : option (list SpentTxOut)) (_ : bool)
  : UtxoViewpoint * option (list SpentTxOut) * option error :=
  (addTxOuts (spendInputs view tx) tx height, stxos, None).

Definition sampleConnectTransactions (view : UtxoViewpoint) (block : Block)
    (stxos : option (list SpentTxOut)) (_ : bool)
  : UtxoViewpoint * option (list SpentTxOut) * option error :=
  (fold_left spendInputs (Transactions block)
     (fold_left (fun v tx => addTxOuts v tx (Height block))
        (Transactions block) view),
   stxos, None).

(** A view update that reports an error of the store. *)
Definition failingConnectTransactions (view : UtxoViewpoint) (_ : Block)
    (stxos : option (list SpentTxOut)) (_ : bool)
  : UtxoViewpoint * option (list SpentTxOut) * option error :=
  (view, stxos, Some (ForeignError 1)).

Definition csvActive (_ : option blockNode) : result ThresholdState :=
  Ok ThresholdActive.

Definition noRelativeLock (_ : blockNode) (_ : Tx) (_ : UtxoViewpoint)
    (_ : bool) : result SequenceLock :=
  Ok (mkSequenceLock (-1) (-1)).

Definition acceptingScripts (_ : Block) (_ : UtxoViewpoint) (_ : ScriptFlags)
    (_ _ : Z) : option error := None.

Definition sampleMedianTime (_ : option blockNode) : Time :=
  mkTime 1500000000 0.

Definition sampleBip16Activation : Time := mkTime 1333238400 0.

(** A chain with a 32 MB block size limit, and nodes at a given height. *)
Definition sampleChain : BlockChain :=
  {| chainParams := mainNetLike;
     excessiveBlockSize := 32000000;
     ablaBlockSizeLimit := 32000000;
     LatestCheckpoint := None |}.

Definition nodeAt (height : Z) (hash : Hash) : blockNode :=
  mkBlockNode hash height 1500000600
    (Some (mkBlockNode (hash + 1) (height - 1) 1500000000 None)).

Definition blockAt (height : Z) (txs : list Tx) : Block :=
  mkBlock (sampleHeader (xorRoot txs)) txs height.

Definition startState (view : UtxoViewpoint) : ConnectState :=
  mkConnectState view (Some []) [].

(** A block on top of height 599_999 that spends the sample coinbase
    output. *)
Definition spendingBlock : Block :=
  blockAt 600000 [coinbasePaying 1250000000 5; spendCoinbase].

(** A view in which output 0 of the transaction with hash 5 is unspent. *)
Definition viewOverwritten : UtxoViewpoint :=
  {[ mkOutPoint 5 0 := mkUtxoEntry 5000000000 [] 91000 true false ]}.

(** The sample run of the orchestrator with the given OTI view update. *)
Definition sampleRun
    (connectTransactions :
       UtxoViewpoint -> Block -> option (list SpentTxOut) -> bool ->
       UtxoViewpoint * option (list SpentTxOut) * option error)
    (node : blockNode) (block : Block) (view : UtxoViewpoint)
  : flow unit * ConnectState :=
  checkConnectBlock emptyStore loadedView sampleConnectTransaction
    connectTransactions csvActive noRelativeLock acceptingScripts
    sampleMedianTime sampleBip16Activation sampleChain node block
    (startState view).

(** ** Exact quantities

    The sums of amounts as integers, against which the wrapping int64
    arithmetic of the code is compared. *)
Definition valueSum (outs : list TxOut) : Z :=
  fold_right (fun txOut acc => Value txOut + acc) 0 outs.

(** A block in which the coinbase hash is also the hash of the transaction
    after it. *)
Definition collidingBlock : Block :=
  sampleBlock [sampleCoinbase 9; paddedSpend (mkOutPoint 11 0) 40 9].

(** The exact sum of the amounts of a list of utxo entries. *)
Definition amountSum (utxos : list UtxoEntry) : Z :=
  fold_right (fun utxo acc => Amount utxo + acc) 0 utxos.

(** What [CheckTransactionInputs] asks of the entry an input refers to: it is
    in the view, unspent, mature when it is a coinbase output, and its amount
    is in range. *)
Definition spendableAt (txHeight : Z) (utxoView : UtxoViewpoint)
    (params : Params) (txIn : TxIn) (utxo : UtxoEntry) : Prop :=
  LookupEntry utxoView (PreviousOutPoint txIn) = Some utxo
  /\ IsSpent utxo = false
  /\ (utxo_IsCoinBase utxo = true ->
      int32 (CoinbaseMaturity params) <= sub32 txHeight (BlockHeight utxo))
  /\ 0 <= Amount utxo <= MaxSatoshi.

(** The subsidy of the blocks at heights [0 .. n-1] together. *)
Fixpoint totalSubsidy (n : nat) (chainParams : Params) : Z :=
  match n with
  | O => 0
  | S k => totalSubsidy k chainParams + CalcBlockSubsidy (Z.of_nat k) chainParams
  end.

(** [CheckProofOfWork], the exported check on a block: no flag is set. *)
Definition CheckProofOfWork (CompactToBig : Z -> Z)
    (BlockHash : BlockHeader -> Hash) (block : Block) (powLimit : Z)
  : option error :=
  checkProofOfWork CompactToBig BlockHash (Header block) powLimit BFNone.

(** The script flags [checkConnectBlock] has built when it comes to run the
    scripts, as one expression: the [|=] of the function in their order,
    each under its condition; [csvActive] is the outcome of
    [csvState == ThresholdActive]. *)
Definition blockScriptFlags (params : Params) (node : blockNode)
    (blockHeader : BlockHeader) (medianTimePast : Time)
    (Bip16Activation : Time) (csvActive : bool) : ScriptFlags :=
  fold_left
    (fun (scriptFlags : ScriptFlags) (step : bool * list ScriptFlag) =>
       if fst step then flags_or scriptFlags (snd step) else scriptFlags)
    [ (Unix Bip16Activation <=? node_timestamp node, [ScriptBip16]);
      ((3 <=? hdr_Version blockHeader)
       && (BIP0066Height params <=? node_height node),
       [ScriptVerifyDERSignatures]);
      ((4 <=? hdr_Version blockHeader)
       && (BIP0065Height params <=? node_height node),
       [ScriptVerifyCheckLockTimeVerify]);
      (UahfForkHeight params <? node_height node,
       [ScriptVerifyStrictEncoding; ScriptVerifyBip143SigHash]);
      (DaaForkHeight params <? node_height node,
       [ScriptVerifyLowS; ScriptVerifyNullFail]);
      (MagneticAnonomalyForkHeight params <? node_height node,
       [ScriptVerifySigPushOnly; ScriptVerifyCleanStack;
        ScriptVerifyCheckDataSig]);
      (GreatWallForkHeight params <? node_height node,
       [ScriptVerifySchnorr; ScriptVerifyAllowSegwitRecovery]);
      (GravitonForkHeight params <? node_height node,
       [ScriptVerifyMinimalData; ScriptVerifySchnorrMultisig]);
      (PhononForkHeight params <? node_height node,
       [ScriptReportSigChecks; ScriptVerifyReverseBytes]);
      (int64 (CosmicInflationActivationTime params) <=? Unix medianTimePast,
       [ScriptVerify64BitIntegers; ScriptVerifyNativeIntrospection]);
      (Upgrade9ForkHeight params <? node_height node, [ScriptAllowCashTokens]);
      (int64 (Upgrade11ActivationTime params) <=? Unix medianTimePast,
       [ScriptAllowMay2025]);
      (csvActive, [ScriptVerifyCheckSequenceVerify]) ]
    [].

(** The sample chain with a checkpoint at height 800_000. *)
Definition checkpointedChain : BlockChain :=
  {| chainParams := mainNetLike;
     excessiveBlockSize := 32000000;
     ablaBlockSizeLimit := 32000000;
     LatestCheckpoint := Some (mkCheckpoint 800000 77) |}.

(** The flags of the sample run at height 900_000. *)
Definition sampleScriptFlags : ScriptFlags :=
  [ScriptBip16; ScriptVerifyDERSignatures;
   ScriptVerifyCheckLockTimeVerify; ScriptVerifyStrictEncoding;
   ScriptVerifyBip143SigHash; ScriptVerifyLowS; ScriptVerifyNullFail;
   ScriptVerifySigPushOnly; ScriptVerifyCleanStack;
   ScriptVerifyCheckDataSig; ScriptVerifySchnorr;
   ScriptVerifyAllowSegwitRecovery; ScriptVerifyMinimalData;
   ScriptVerifySchnorrMultisig; ScriptReportSigChecks;
   ScriptVerifyReverseBytes; ScriptAllowCashTokens;
   ScriptVerifyCheckSequenceVerify].

(** ** Checks against the position in the chain *)

(** Modelled from the spec: [newBlockNode] is declared outside the given
    sources; the node of a header on top of [parent] has the hash of the
    header, the height after the parent and the timestamp of the header in
    seconds ([None] is the nil dereference of the parent). *)
Definition newBlockNode (BlockHash : BlockHeader -> Hash)
    (blockHeader : BlockHeader) (parent : option blockNode)
  : option blockNode :=
  match parent with
  | None => None
  | Some p =>
      Some (mkBlockNode (BlockHash blockHeader) (int32 (node_height p + 1))
              (Unix (Timestamp blockHeader)) parent)
  end.

Section ContextChecks.

(** The collaborators of the contextual checks, all declared outside the
    given sources: the choice of the difficulty algorithm (a number names
    it), the required difficulty, the past median time, the header hash,
    the two checkpoint queries, the version-bits state of CSV, whether the
    parameters are those of the main network or of testnet3 (the pointer
    comparison of the code), the serialized size of a block, and the tip of
    the best chain. *)
Variable SelectDifficultyAdjustmentAlgorithm : blockNode -> nat.
Variable calcNextRequiredDifficulty : blockNode -> Time -> nat -> result Z.
Variable CalcPastMedianTime : option blockNode -> Time.
Variable BlockHash : BlockHeader -> Hash.
Variable verifyCheckpoint : Z -> Hash -> bool.
Variable findPreviousCheckpoint : result (option blockNode).
Variable deploymentState : option blockNode -> result ThresholdState.
Variable onMainNetOrTestNet3 : bool.
Variable BlockSerializeSize : Block -> Z.

(** [checkBlockHeaderContext]; the outer [None] is the run-time panic of
    reading the height of a nil [prevNode]. *)
Definition checkBlockHeaderContext (b : BlockChain) (header : BlockHeader)
    (prevNode : option blockNode) (flags : BehaviorFlags)
  : option (option error) :=
  match prevNode with
  | None => None
  | Some prev =>
      let blockHeight := int32 (node_height prev + 1) in
      let fastAdd := BFFastAdd flags in
      let err :=
        if negb fastAdd then
          let alg := SelectDifficultyAdjustmentAlgorithm prev in
          match calcNextRequiredDifficulty prev (Timestamp header) alg with
          | Err err => Some err
          | Ok expectedDifficulty =>
              let blockDifficulty := Bits header in
              if negb (blockDifficulty =? expectedDifficulty)
              then Some (ruleError ErrUnexpectedDifficulty)
              else
                let medianTime := CalcPastMedianTime prevNode in
                if negb (Time_After (Timestamp header) medianTime)
                then Some (ruleError ErrTimeTooOld)
                else None
          end
        else None in
      match err with
      | Some err => Some (Some err)
      | None =>
          let blockHash := BlockHash header in
          if negb (verifyCheckpoint blockHeight blockHash)
          then Some (Some (ruleError ErrBadCheckpoint))
          else
            match findPreviousCheckpoint with
            | Err err => Some (Some err)
            | Ok checkpointNode =>
                if match checkpointNode with
                   | Some cp => blockHeight <? node_height cp
                   | None => false
                   end
                then Some (Some (ruleError ErrForkTooOld))
                else
                  let params := chainParams b in
                  if ((hdr_Version header <? 2)
                      && (BIP0034Height params <=? blockHeight))
                     || ((hdr_Version header <? 3)
                         && (BIP0066Height params <=? blockHeight))
                     || ((hdr_Version header <? 4)
                         && (BIP0065Height params <=? blockHeight))
                  then Some (Some (ruleError ErrBlockVersionTooOld))
                  else Some None
            end
      end
  end.

(** The loop of [checkBlockContext] over the transactions. *)
Fixpoint checkFinalizedLoop (txs : list Tx) (blockHeight : Z)
    (blockTime : Time) : option error :=
  match txs with
  | [] => None
  | tx :: rest =>
      if negb (IsFinalizedTransaction tx blockHeight (Unix blockTime))
      then Some (ruleError ErrUnfinalizedTx)
      else checkFinalizedLoop rest blockHeight blockTime
  end.

(** [checkBlockContext]; the outer [None] is a run-time panic: a nil
    [prevNode], or no transaction where the coinbase is wanted. *)
Definition checkBlockContext (b : BlockChain) (block : Block)
    (prevNode : option blockNode) (flags : BehaviorFlags)
  : option (option error) :=
  let header := Header block in
  match checkBlockHeaderContext b header prevNode flags with
  | None => None
  | Some (Some err) => Some (Some err)
  | Some None =>
      let uahfActive := UahfForkHeight (chainParams b) <? Height block in
      let ablaActive := ABLAForkHeight (chainParams b) <? Height block in
      let maxBlockSize := MaxBlockSize b uahfActive ablaActive in
      let numTx := Z.of_nat (length (Transactions block)) in
      if maxBlockSize <? uint64 numTx
      then Some (Some (ruleError ErrBlockTooBig))
      else
      if onMainNetOrTestNet3
         && (Height block =? int32 (UahfForkHeight (chainParams b) + 1))
         && (BlockSerializeSize block <=? LegacyMaxBlockSize)
      then Some (Some (ruleError ErrBlockTooSmall))
      else
      let serializedSize := BlockSerializeSize block in
      if maxBlockSize <? uint64 serializedSize
      then Some (Some (ruleError ErrBlockTooBig))
      else
      let fastAdd := BFFastAdd flags in
      if negb fastAdd then
        match deploymentState prevNode with
        | Err err => Some (Some err)
        | Ok csvState =>
            let blockTime :=
              if bool_decide (csvState = ThresholdActive)
              then CalcPastMedianTime prevNode
              else Timestamp header in
            match prevNode with
            | None => None
            | Some prev =>
                let blockHeight := int32 (node_height prev + 1) in
                match checkFinalizedLoop (Transactions block) blockHeight
                        blockTime with
                | Some err => Some (Some err)
                | None =>
                    if ShouldHaveSerializedBlockHeight header
                       && (BIP0034Height (chainParams b) <=? blockHeight)
                    then
                      match Transactions block with
                      | [] => None
                      | coinbaseTx :: _ =>
                          checkSerializedHeight coinbaseTx blockHeight
                      end
                    else Some None
                end
            end
        end
      else Some None
  end.

End ContextChecks.

Section ChainEntryPoints.

(** The collaborators of the exported checks: those of the context-free
    checks, of the contextual checks and of the connect orchestrator, and
    the tip of the best chain ([b.bestChain.Tip()], nil for an empty
    chain). *)
Variable SerializeSize : MsgTx -> Z.
Variable CompactToBig : Z -> Z.
Variable BlockHash : BlockHeader -> Hash.
Variable calcMerkleRoot : list Tx -> Hash.
Variable AdjustedTime : Time.
Variable SelectDifficultyAdjustmentAlgorithm : blockNode -> nat.
Variable calcNextRequiredDifficulty : blockNode -> Time -> nat -> result Z.
Variable CalcPastMedianTime : option blockNode -> Time.
Variable verifyCheckpoint : Z -> Hash -> bool.
Variable findPreviousCheckpoint : result (option blockNode).
Variable deploymentState : option blockNode -> result ThresholdState.
Variable onMainNetOrTestNet3 : bool.
Variable BlockSerializeSize : Block -> Z.
Variable FetchEntry : OutPoint -> result (option UtxoEntry).
Variable addInputUtxos :
  UtxoViewpoint -> Block -> bool -> UtxoViewpoint * option error.
Variable connectTransaction :
  UtxoViewpoint -> Tx -> Z -> option (list SpentTxOut) -> bool ->
  UtxoViewpoint * option (list SpentTxOut) * option error.
Variable connectTransactions :
  UtxoViewpoint -> Block -> option (list SpentTxOut) -> bool ->
  UtxoViewpoint * option (list SpentTxOut) * option error.
Variable calcSequenceLock :
  blockNode -> Tx -> UtxoViewpoint -> bool -> result SequenceLock.
Variable checkBlockScripts :
  Block -> UtxoViewpoint -> ScriptFlags -> Z -> Z -> option error.
Variable Bip16Activation : Time.
Variable bestChainTip : option blockNode.

(** [CheckBlockHeaderContext]: the header against the tip of the best
    chain, with no flag set. *)
Definition CheckBlockHeaderContext (b : BlockChain) (header : BlockHeader)
  : option (option error) :=
  let flags := BFNone in
  let tip := bestChainTip in
  match checkBlockHeaderSanity CompactToBig BlockHash AdjustedTime header
          (PowLimit (chainParams b)) flags with
  | Some err => Some (Some err)
  | None =>
      checkBlockHeaderContext SelectDifficultyAdjustmentAlgorithm
        calcNextRequiredDifficulty CalcPastMedianTime BlockHash
        verifyCheckpoint findPreviousCheckpoint b header tip flags
  end.

(** [NewUtxoViewpoint()] with a nil spent-txout log and no call made: the
    state [CheckConnectBlockTemplate] hands to [checkConnectBlock]. *)
Definition templateState : ConnectState := mkConnectState ∅ None [].

(** [CheckConnectBlockTemplate]: what it returns, or the panic of a nil tip
    or of one of the checks, with the view and the calls of the connect
    run. *)
Definition CheckConnectBlockTemplate (b : BlockChain) (block : Block)
  : flow unit * ConnectState :=
  let flags := mkBehaviorFlags false true false false in
  let tip := bestChainTip in
  let header := Header block in
  match tip with
  | None => (Panic, templateState)
  | Some tipNode =>
      if negb (node_hash tipNode =? PrevBlock header)
      then (Return (Some (ruleError ErrPrevBlockNotBest)), templateState)
      else
      let flags :=
        if MagneticAnonomalyForkHeight (chainParams b) <? Height block
        then mkBehaviorFlags (BFFastAdd flags) (BFNoPoWCheck flags) true
               (BFUpgrade9 flags)
        else flags in
      match checkBlockSanity SerializeSize CompactToBig BlockHash
              calcMerkleRoot AdjustedTime block (PowLimit (chainParams b))
              flags with
      | Some err => (Return (Some err), templateState)
      | None =>
          match checkBlockContext SelectDifficultyAdjustmentAlgorithm
                  calcNextRequiredDifficulty CalcPastMedianTime BlockHash
                  verifyCheckpoint findPreviousCheckpoint deploymentState
                  onMainNetOrTestNet3 BlockSerializeSize b block tip flags
          with
          | None => (Panic, templateState)
          | Some (Some err) => (Return (Some err), templateState)
          | Some None =>
              match newBlockNode BlockHash header tip with
              | None => (Panic, templateState)
              | Some newNode =>
                  checkConnectBlock FetchEntry addInputUtxos
                    connectTransaction connectTransactions deploymentState
                    calcSequenceLock checkBlockScripts CalcPastMedianTime
                    Bip16Activation b newNode block templateState
              end
          end
      end
  end.

End ChainEntryPoints.

(** A coinbase whose wire encoding takes 89 bytes, a block of it alone at
    height 900_000, and the node its header builds on. *)
Definition smallCoinbase : Tx :=
  mkTx (mkMsgTx 1
          [mkTxIn nullOutPoint [Byte.x03; Byte.x40; Byte.x0d; Byte.x03]
                  MaxUint32]
          [mkTxOut 312500000 (repeat Byte.x00 25)] 0) 5.

Definition smallCoinbaseBlock : Block := blockAt 900000 [smallCoinbase].

Definition sampleTip : blockNode :=
  mkBlockNode (PrevBlock (sampleHeader 0)) 899999 1599999400 None.

(** * Script errors: [txscript/error.go] *)

Module TxScript.

Import Stdlib.Strings.String.
Local Open Scope string_scope.

(** [type ErrorCode int]. *)
Definition ErrorCode : Set := Z.

(** The constants of the [iota] block, in their order. *)
Definition ErrInternal : ErrorCode := 0.
Definition ErrInvalidFlags : ErrorCode := 1.
Definition ErrInvalidIndex : ErrorCode := 2.
Definition ErrUnsupportedAddress : ErrorCode := 3.
Definition ErrNotMultisigScript : ErrorCode := 4.
Definition ErrTooManyRequiredSigs : ErrorCode := 5.
Definition ErrTooMuchNullData : ErrorCode := 6.
Definition ErrEarlyReturn : ErrorCode := 7.
Definition ErrEmptyStack : ErrorCode := 8.
Definition ErrEvalFalse : ErrorCode := 9.
Definition ErrScriptUnfinished : ErrorCode := 10.
Definition ErrInvalidProgramCounter : ErrorCode := 11.
Definition ErrScriptTooBig : ErrorCode := 12.
Definition ErrElementTooBig : ErrorCode := 13.
Definition ErrTooManyOperations : ErrorCode := 14.
Definition ErrStackOverflow : ErrorCode := 15.
Definition ErrInvalidPubKeyCount : ErrorCode := 16.
Definition ErrInvalidSignatureCount : ErrorCode := 17.
Definition ErrNumberTooBig : ErrorCode := 18.
Definition ErrNumberTooSmall : ErrorCode := 19.
Definition ErrOpCost : ErrorCode := 20.
Definition ErrTooManyHashIters : ErrorCode := 21.
Definition ErrConditionalStackDepth : ErrorCode := 22.
Definition ErrVerify : ErrorCode := 23.
Definition ErrEqualVerify : ErrorCode := 24.
Definition ErrNumEqualVerify : ErrorCode := 25.
Definition ErrCheckSigVerify : ErrorCode := 26.
Definition ErrCheckMultiSigVerify : ErrorCode := 27.
Definition ErrCheckDataSigVerify : ErrorCode := 28.
Definition ErrDisabledOpcode : ErrorCode := 29.
Definition ErrReservedOpcode : ErrorCode := 30.
Definition ErrMalformedPush : ErrorCode := 31.
Definition ErrInvalidStackOperation : ErrorCode := 32.
Definition ErrUnbalancedConditional : ErrorCode := 33.
Definition ErrInvalidInputLength : ErrorCode := 34.
Definition ErrMinimalData : ErrorCode := 35.
Definition ErrMinimalIf : ErrorCode := 36.
Definition ErrInvalidSigHashType : ErrorCode := 37.
Definition ErrSigTooShort : ErrorCode := 38.
Definition ErrSigTooLong : ErrorCode := 39.
Definition ErrSigInvalidSeqID : ErrorCode := 40.
Definition ErrSigInvalidDataLen : ErrorCode := 41.
Definition ErrSigMissingSTypeID : ErrorCode := 42.
Definition ErrSigMissingSLen : ErrorCode := 43.
Definition ErrSigInvalidSLen : ErrorCode := 44.
Definition ErrSigInvalidRIntID : ErrorCode := 45.
Definition ErrSigZeroRLen : ErrorCode := 46.
Definition ErrSigNegativeR : ErrorCode := 47.
Definition ErrSigTooMuchRPadding : ErrorCode := 48.
Definition ErrSigInvalidSIntID : ErrorCode := 49.
Definition ErrSigZeroSLen : ErrorCode := 50.
Definition ErrSigNegativeS : ErrorCode := 51.
Definition ErrSigTooMuchSPadding : ErrorCode := 52.
Definition ErrSigHighS : ErrorCode := 53.
Definition ErrNotPushOnly : ErrorCode := 54.
Definition ErrSigNullDummy : ErrorCode := 55.
Definition ErrPubKeyType : ErrorCode := 56.
Definition ErrCleanStack : ErrorCode := 57.
Definition ErrNullFail : ErrorCode := 58.
Definition ErrDiscourageUpgradableNOPs : ErrorCode := 59.
Definition ErrNegativeLockTime : ErrorCode := 60.
Definition ErrUnsatisfiedLockTime : ErrorCode := 61.
Definition ErrInvalidDummy : ErrorCode := 62.
Definition ErrInvalidBitCount : ErrorCode := 63.
Definition ErrInputSigChecks : ErrorCode := 64.
Definition ErrIntegerOverflow : ErrorCode := 65.
Definition numErrorCodes : ErrorCode := 66.

(** [errorCodeStrings], the map from the codes to their names. *)
Definition errorCodeStrings : gmap ErrorCode string :=
  list_to_map
    [(ErrInternal, "ErrInternal");
     (ErrInvalidFlags, "ErrInvalidFlags");
     (ErrInvalidIndex, "ErrInvalidIndex");
     (ErrUnsupportedAddress, "ErrUnsupportedAddress");
     (ErrNotMultisigScript, "ErrNotMultisigScript");
     (ErrTooManyRequiredSigs, "ErrTooManyRequiredSigs");
     (ErrTooMuchNullData, "ErrTooMuchNullData");
     (ErrEarlyReturn, "ErrEarlyReturn");
     (ErrEmptyStack, "ErrEmptyStack");
     (ErrEvalFalse, "ErrEvalFalse");
     (ErrScriptUnfinished, "ErrScriptUnfinished");
     (ErrInvalidProgramCounter, "ErrInvalidProgramCounter");
     (ErrScriptTooBig, "ErrScriptTooBig");
     (ErrElementTooBig, "ErrElementTooBig");
     (ErrTooManyOperations, "ErrTooManyOperations");
     (ErrStackOverflow, "ErrStackOverflow");
     (ErrInvalidPubKeyCount, "ErrInvalidPubKeyCount");
     (ErrInvalidSignatureCount, "ErrInvalidSignatureCount");
     (ErrNumberTooBig, "ErrNumberTooBig");
     (ErrNumberTooSmall, "ErrNumberTooSmall");
     (ErrOpCost, "ErrOpCost");
     (ErrTooManyHashIters, "ErrTooManyHashIters");
     (ErrConditionalStackDepth, "ErrConditionalStackDepth");
     (ErrVerify, "ErrVerify");
     (ErrEqualVerify, "ErrEqualVerify");
     (ErrNumEqualVerify, "ErrNumEqualVerify");
     (ErrCheckSigVerify, "ErrCheckSigVerify");
     (ErrCheckMultiSigVerify, "ErrCheckMultiSigVerify");
     (ErrCheckDataSigVerify, "ErrCheckDataSigVerify");
     (ErrDisabledOpcode, "ErrDisabledOpcode");
     (ErrReservedOpcode, "ErrReservedOpcode");
     (ErrMalformedPush, "ErrMalformedPush");
     (ErrInvalidStackOperation, "ErrInvalidStackOperation");
     (ErrUnbalancedConditional, "ErrUnbalancedConditional");
     (ErrInvalidInputLength, "ErrInvalidInputLength");
     (ErrMinimalData, "ErrMinimalData");
     (ErrMinimalIf, "ErrMinimalIf");
     (ErrInvalidSigHashType, "ErrInvalidSigHashType");
     (ErrSigTooShort, "ErrSigTooShort");
     (ErrSigTooLong, "ErrSigTooLong");
     (ErrSigInvalidSeqID, "ErrSigInvalidSeqID");
     (ErrSigInvalidDataLen, "ErrSigInvalidDataLen");
     (ErrSigMissingSTypeID, "ErrSigMissingSTypeID");
     (ErrSigMissingSLen, "ErrSigMissingSLen");
     (ErrSigInvalidSLen, "ErrSigInvalidSLen");
     (ErrSigInvalidRIntID, "ErrSigInvalidRIntID");
     (ErrSigZeroRLen, "ErrSigZeroRLen");
     (ErrSigNegativeR, "ErrSigNegativeR");
     (ErrSigTooMuchRPadding, "ErrSigTooMuchRPadding");
     (ErrSigInvalidSIntID, "ErrSigInvalidSIntID");
     (ErrSigZeroSLen, "ErrSigZeroSLen");
     (ErrSigNegativeS, "ErrSigNegativeS");
     (ErrSigTooMuchSPadding, "ErrSigTooMuchSPadding");
     (ErrSigHighS, "ErrSigHighS");
     (ErrNotPushOnly, "ErrNotPushOnly");
     (ErrSigNullDummy, "ErrSigNullDummy");
     (ErrPubKeyType, "ErrPubKeyType");
     (ErrCleanStack, "ErrCleanStack");
     (ErrNullFail, "ErrNullFail");
     (ErrDiscourageUpgradableNOPs, "ErrDiscourageUpgradableNOPs");
     (ErrNegativeLockTime, "ErrNegativeLockTime");
     (ErrUnsatisfiedLockTime, "ErrUnsatisfiedLockTime");
     (ErrInvalidDummy, "ErrInvalidDummy");
     (ErrInvalidBitCount, "ErrInvalidBitCount");
     (ErrInputSigChecks, "ErrInputSigChecks");
     (ErrIntegerOverflow, "ErrIntegerOverflow")].

(** [fmt.Sprintf] of an int under the verb d: the decimal numeral, with a
    minus sign when negative. *)
Definition sprintf_d (n : Z) : string :=
  DecimalString.NilZero.string_of_int (Z.to_int n).

(** [fmt.Sprintf("Unknown ErrorCode (%d)", int(e))]. *)
Definition unknownErrorCode (e : ErrorCode) : string :=
  "Unknown ErrorCode (" ++ sprintf_d e ++ ")".

(** [String]: a missing key reads as the empty string of the map's zero
    value. *)
Definition String (e : ErrorCode) : string :=
  let s := default "" (errorCodeStrings !! e) in
  if negb (s =? "") then s
  else unknownErrorCode e.






(** The codes below [numErrorCodes]. *)
Definition knownCodes : list ErrorCode :=
  map Z.of_nat (seq 0 (Z.to_nat numErrorCodes)).

End TxScript.

(** The exact sum of a list of fees. *)
Definition feeSum (fees : list Z) : Z := fold_right Z.add 0 fees.

(** * Properties *)

(** ** Fixed-width arithmetic *)

Lemma wrap_signed_id (w z : Z) :
  0 < w -> - 2 ^ (w - 1) <= z < 2 ^ (w - 1) -> wrap_signed w z = z.
Proof.
  intros Hw Hz. unfold wrap_signed.
  assert (Hp : 2 ^ w = 2 * 2 ^ (w - 1)).
  { replace w with (Z.succ (w - 1)) at 1 by lia. rewrite Z.pow_succ_r; lia. }
  rewrite Z.mod_small; lia.
Qed.

Lemma int32_id (z : Z) : is_int32 z -> int32 z = z.
Proof. intros H. apply wrap_signed_id; [lia | exact H]. Qed.

Lemma int64_id (z : Z) : is_int64 z -> int64 z = z.
Proof. intros H. apply wrap_signed_id; [lia | exact H]. Qed.

Lemma int32_range (z : Z) : is_int32 (int32 z).
Proof.
  unfold is_int32, int32, wrap_signed.
  pose proof (Z.mod_pos_bound (z + 2 ^ (32 - 1)) (2 ^ 32) ltac:(lia)).
  change (2 ^ (32 - 1)) with 2147483648 in *.
  change (2 ^ 32) with 4294967296 in *. change (2 ^ 31) with 2147483648. lia.
Qed.

Lemma int32_congr (z : Z) : int32 z mod 2 ^ 32 = z mod 2 ^ 32.
Proof.
  unfold int32, wrap_signed.
  change (2 ^ (32 - 1)) with 2147483648. change (2 ^ 32) with 4294967296.
  rewrite Zminus_mod, Z.mod_mod by lia.
  rewrite <- Zminus_mod. f_equal. lia.
Qed.

(** ** Block subsidy *)

Lemma baseSubsidy_shift_out (n : Z) : 33 <= n -> Z.shiftr baseSubsidy n = 0.
Proof.
  intros Hn. apply Z.shiftr_eq_0; [vm_compute; discriminate|].
  change (Z.log2 baseSubsidy) with 32. lia.
Qed.

Lemma subsidy_shift_count (h i : Z) :
  is_int32 h -> is_int32 i -> i <> 0 -> 0 <= h / i ->
  Z.shiftr baseSubsidy (uint (div32 h i)) = Z.shiftr baseSubsidy (h / i).
Proof.
  unfold is_int32. change (2 ^ 31) with 2147483648.
  intros Hh Hi Hne Hq.
  assert (Hcases : (0 <= h /\ 0 < i) \/ (h <= 0 /\ i < 0)).
  { pose proof (Z.div_mod h i Hne) as Hdm.
    destruct (Z_lt_le_dec i 0) as [Hneg | Hpos].
    - right. pose proof (Z.mod_neg_bound h i Hneg). split; [nia | lia].
    - left. pose proof (Z.mod_pos_bound h i ltac:(lia)). split; [nia | lia]. }
  assert (Hquot : Z.quot h i = h / i).
  { destruct Hcases as [[H1 H2] | [H1 H2]].
    - apply Z.quot_div_nonneg; lia.
    - rewrite <- (Z.opp_involutive h) at 1. rewrite <- (Z.opp_involutive i) at 1.
      rewrite Z.quot_opp_opp by lia.
      rewrite Z.quot_div_nonneg by lia.
      rewrite Z.div_opp_opp by lia. reflexivity. }
  unfold div32. rewrite Hquot.
  assert (Hub : h / i <= 2147483648).
  { destruct Hcases as [[H1 H2] | [H1 H2]].
    - assert (h / i <= h) by (apply Z.div_le_upper_bound; nia). lia.
    - rewrite <- Z.div_opp_opp by lia.
      assert (- h / - i <= - h) by (apply Z.div_le_upper_bound; nia). lia. }
  destruct (Z.eq_dec (h / i) 2147483648) as [Heq | Hneq].
  - rewrite Heq. rewrite !baseSubsidy_shift_out; [reflexivity | lia | vm_compute; discriminate].
  - rewrite int32_id by (unfold is_int32; change (2 ^ 31) with 2147483648; lia).
    unfold uint, uint64. rewrite Z.mod_small; [reflexivity|].
    change (2 ^ 64) with 18446744073709551616. lia.
Qed.

(** ** Little-endian decoding *)

Lemma le_uint_zeros (n : nat) : le_uint (repeat Byte.x00 n) = 0.
Proof. induction n as [|n IH]; simpl; [reflexivity|]. rewrite IH. reflexivity. Qed.

Lemma le_uint_app_zeros (bs : list Byte.byte) (n : nat) :
  le_uint (bs ++ repeat Byte.x00 n) = le_uint bs.
Proof.
  induction bs as [|b bs IH]; simpl.
  - apply le_uint_zeros.
  - rewrite IH. reflexivity.
Qed.

Lemma byte_val_range (b : Byte.byte) : 0 <= byte_val b < 256.
Proof.
  unfold byte_val. pose proof (Byte.to_N_bounded b) as H. lia.
Qed.

Lemma le_uint_nonneg (bs : list Byte.byte) : 0 <= le_uint bs.
Proof.
  induction bs as [|b bs IH]; simpl; [lia|].
  apply Z.lor_nonneg. split; [apply byte_val_range | apply Z.shiftl_nonneg; exact IH].
Qed.

Lemma le_uint_cons (b : Byte.byte) (bs : list Byte.byte) :
  le_uint (b :: bs) = byte_val b + 256 * le_uint bs.
Proof.
  simpl. rewrite Z.shiftl_mul_pow2 by lia. change (2 ^ 8) with 256.
  rewrite <- Z.add_nocarry_lor. { lia. }
  apply Z.bits_inj'. intros n Hn. rewrite Z.land_spec, Z.bits_0.
  destruct (Z_lt_le_dec n 8) as [Hlt | Hge].
  - replace (le_uint bs * 256) with (le_uint bs * 2 ^ 8) by reflexivity.
    rewrite Z.mul_pow2_bits_low by lia. apply andb_false_r.
  - rewrite (Z.bits_above_log2 (byte_val b)); [reflexivity | apply byte_val_range |].
    pose proof (byte_val_range b) as Hb.
    destruct (Z.eq_dec (byte_val b) 0) as [Hz | Hnz].
    + rewrite Hz. simpl. lia.
    + apply Z.log2_lt_pow2; [lia|].
      apply Z.lt_le_trans with (2 ^ 8); [change (2 ^ 8) with 256; lia|].
      apply Z.pow_le_mono_r; lia.
Qed.

(** Copying into the 8-byte buffer keeps the first [min L 8] bytes. *)
Lemma copy_into_zeroed_firstn (L : nat) (tail : list Byte.byte) :
  le_uint (copy_into_zeroed 8 (firstn L tail))
  = le_uint (firstn (Nat.min L 8) tail).
Proof.
  unfold copy_into_zeroed. rewrite le_uint_app_zeros.
  rewrite firstn_firstn. rewrite Nat.min_comm. reflexivity.
Qed.

Lemma le_uint_firstn_bounded (n : nat) (bs : list Byte.byte) :
  le_uint bs < 256 ^ Z.of_nat n -> le_uint (firstn n bs) = le_uint bs.
Proof.
  revert bs. induction n as [|n IH]; intros bs Hlt.
  - simpl firstn. change (256 ^ Z.of_nat 0) with 1 in Hlt.
    pose proof (le_uint_nonneg bs). simpl. lia.
  - destruct bs as [|b bs]; [reflexivity|].
    simpl firstn. rewrite !le_uint_cons in *.
    rewrite Nat2Z.inj_succ, Z.pow_succ_r in Hlt by lia.
    pose proof (byte_val_range b). pose proof (le_uint_nonneg bs).
    rewrite IH; [reflexivity | lia].
Qed.

(** ** Claims on the transaction predicates *)

(** C4.  [CalcBlockSubsidy] is [baseSubsidy] shifted right by
    [height / SubsidyReductionInterval] (the floor of the quotient, wherever
    that shift count is not negative), and [baseSubsidy] = 5_000_000_000 when
    the interval is 0; with interval 210000 the subsidy is 2_500_000_000 at
    heights 210000 and 419999 and 1_250_000_000 at height 420000. *)
Theorem CalcBlockSubsidy_halving (height : Z) (params p210 p0 : Params) :
  is_int32 height ->
  is_int32 (SubsidyReductionInterval params) ->
  SubsidyReductionInterval params <> 0 ->
  0 <= height / SubsidyReductionInterval params ->
  SubsidyReductionInterval p210 = 210000 ->
  SubsidyReductionInterval p0 = 0 ->
  CalcBlockSubsidy height params
    = Z.shiftr baseSubsidy (height / SubsidyReductionInterval params)
  /\ CalcBlockSubsidy height p0 = baseSubsidy
  /\ CalcBlockSubsidy height p0 = 5000000000
  /\ CalcBlockSubsidy 210000 p210 = 2500000000
  /\ CalcBlockSubsidy 419999 p210 = 2500000000
  /\ CalcBlockSubsidy 420000 p210 = 1250000000.
Proof.
  intros Hh Hi Hne Hq H210 H0. unfold CalcBlockSubsidy.
  rewrite H210, H0. repeat split; try reflexivity.
  destruct (Z.eqb_spec (SubsidyReductionInterval params) 0) as [Hz | _];
    [contradiction|].
  apply subsidy_shift_count; assumption.
Qed.

Lemma CalcBlockSubsidy_halving_witness :
  CalcBlockSubsidy 630000 mainNetLike = Z.shiftr baseSubsidy (630000 / 210000)
  /\ CalcBlockSubsidy 630000 (withSubsidyInterval 0 mainNetLike) = baseSubsidy
  /\ CalcBlockSubsidy 630000 (withSubsidyInterval 0 mainNetLike) = 5000000000
  /\ CalcBlockSubsidy 210000 mainNetLike = 2500000000
  /\ CalcBlockSubsidy 419999 mainNetLike = 2500000000
  /\ CalcBlockSubsidy 420000 mainNetLike = 1250000000.
Proof.
  apply (CalcBlockSubsidy_halving 630000 mainNetLike mainNetLike
           (withSubsidyInterval 0 mainNetLike)).
  - unfold is_int32. lia.
  - unfold is_int32. simpl. lia.
  - simpl. lia.
  - vm_compute. discriminate.
  - reflexivity.
  - reflexivity.
Defined.

(** The raw-length branch of [extractHeightFromScript]. *)
Lemma extractHeightFromScript_raw (b0 : Byte.byte) (tail : list Byte.byte) :
  byte_val b0 <> OP_0 ->
  ~ (OP_1 <= byte_val b0 <= OP_16) ->
  extractHeightFromScript (b0 :: tail)
  = if Z.of_nat (length tail) <? byte_val b0
    then Err (ruleError ErrMissingCoinbaseHeight)
    else Ok (int32 (le_uint
                      (firstn (Nat.min (Z.to_nat (byte_val b0)) 8) tail))).
Proof.
  intros H0 H116. unfold extractHeightFromScript.
  destruct (Z.eqb_spec (byte_val b0) OP_0) as [|_]; [contradiction|].
  destruct (Z.leb_spec OP_1 (byte_val b0)) as [Hlo|Hlo];
    destruct (Z.leb_spec (byte_val b0) OP_16) as [Hhi|Hhi]; simpl;
    try (exfalso; apply H116; lia);
    destruct (Z.ltb_spec (Z.of_nat (length tail)) (byte_val b0));
    try reflexivity; rewrite copy_into_zeroed_firstn; reflexivity.
Qed.

(** C10.  On a signature script whose first byte [L] is a raw length (not
    OP_0, not OP_1..OP_16) followed by at least [L] bytes,
    [ExtractCoinbaseHeight] returns the low 32 bits of the little-endian
    value of the first [min L 8] of those bytes, read as a signed 32-bit
    integer: a value whose low 32 bits are 2^31 or more comes out negative,
    and the bytes after the eighth play no part. *)
Theorem ExtractCoinbaseHeight_truncates
    (tx : Tx) (txIn0 : TxIn) (rest : list TxIn)
    (b0 : Byte.byte) (tail : list Byte.byte) :
  TxIns (MsgTx_of tx) = txIn0 :: rest ->
  SignatureScript txIn0 = b0 :: tail ->
  byte_val b0 <> OP_0 ->
  ~ (OP_1 <= byte_val b0 <= OP_16) ->
  byte_val b0 <= Z.of_nat (length tail) ->
  let v := le_uint (firstn (Nat.min (Z.to_nat (byte_val b0)) 8) tail) in
  ExtractCoinbaseHeight tx = Some (Ok (int32 v))
  /\ is_int32 (int32 v)
  /\ int32 v mod 2 ^ 32 = v mod 2 ^ 32
  /\ (2 ^ 31 <= v mod 2 ^ 32 -> int32 v < 0)
  /\ (v < 2 ^ 31 -> int32 v = v).
Proof.
  intros Hins Hscript H0 H116 Hlen v.
  unfold ExtractCoinbaseHeight. rewrite Hins, Hscript.
  rewrite extractHeightFromScript_raw by assumption.
  destruct (Z.ltb_spec (Z.of_nat (length tail)) (byte_val b0)); [lia|].
  fold v. split; [reflexivity|].
  split; [apply int32_range|]. split; [apply int32_congr|].
  pose proof (int32_range v) as Hr. pose proof (int32_congr v) as Hc.
  unfold is_int32 in Hr.
  split.
  - intros Hhigh. destruct (Z_lt_le_dec (int32 v) 0) as [|Hnn]; [assumption|].
    rewrite <- Hc in Hhigh.
    rewrite Z.mod_small in Hhigh by (change (2 ^ 32) with (2 * 2 ^ 31); lia). lia.
  - intros Hsmall. apply int32_id. unfold is_int32.
    pose proof (le_uint_nonneg (firstn (Nat.min (Z.to_nat (byte_val b0)) 8) tail)).
    fold v in H1. lia.
Qed.

Lemma ExtractCoinbaseHeight_truncates_witness :
  let script := [Byte.x09; Byte.x00; Byte.x00; Byte.x00; Byte.x80;
                 Byte.x00; Byte.x00; Byte.x00; Byte.x00; Byte.xff] in
  ExtractCoinbaseHeight (coinbaseWithScript script 7)
  = Some (Ok (int32 2147483648))
  /\ int32 2147483648 = -2147483648.
Proof.
  split; [|reflexivity].
  apply (ExtractCoinbaseHeight_truncates
           (coinbaseWithScript
              [Byte.x09; Byte.x00; Byte.x00; Byte.x00; Byte.x80;
               Byte.x00; Byte.x00; Byte.x00; Byte.x00; Byte.xff] 7)
           (mkTxIn nullOutPoint
              [Byte.x09; Byte.x00; Byte.x00; Byte.x00; Byte.x80;
               Byte.x00; Byte.x00; Byte.x00; Byte.x00; Byte.xff] MaxUint32)
           [] Byte.x09
           [Byte.x00; Byte.x00; Byte.x00; Byte.x80;
            Byte.x00; Byte.x00; Byte.x00; Byte.x00; Byte.xff]).
  - reflexivity.
  - reflexivity.
  - vm_compute. discriminate.
  - vm_compute. intros [H _]. apply H. reflexivity.
  - vm_compute. discriminate.
Defined.

(** [extractHeightFromScript] raises no error but [ErrMissingCoinbaseHeight],
    and raises it on the empty script and on a raw length that overruns the
    script only. *)
Lemma extractHeightFromScript_err (script : list Byte.byte) (e : error) :
  extractHeightFromScript script = Err e <->
  e = ruleError ErrMissingCoinbaseHeight
  /\ (script = []
      \/ exists b0 tail,
           script = b0 :: tail
           /\ byte_val b0 <> OP_0
           /\ ~ (OP_1 <= byte_val b0 <= OP_16)
           /\ Z.of_nat (length script) < 1 + byte_val b0).
Proof.
  destruct script as [|b0 tail].
  - simpl. split.
    + intros H. injection H as <-. split; [reflexivity | left; reflexivity].
    + intros [-> _]. reflexivity.
  - destruct (Z.eq_dec (byte_val b0) OP_0) as [Hz | Hnz].
    { unfold extractHeightFromScript. rewrite Hz. simpl. split.
      - discriminate.
      - intros [_ [Hnil | (b & t & Heq & Hb & _)]]; [discriminate|].
        injection Heq as <- <-. contradiction. }
    destruct (Z_le_dec OP_1 (byte_val b0)) as [Hlo | Hlo];
      [destruct (Z_le_dec (byte_val b0) OP_16) as [Hhi | Hhi]|].
    { unfold extractHeightFromScript.
      destruct (Z.eqb_spec (byte_val b0) OP_0); [contradiction|].
      destruct (Z.leb_spec OP_1 (byte_val b0)); [|lia].
      destruct (Z.leb_spec (byte_val b0) OP_16); [|lia]. simpl. split.
      - discriminate.
      - intros [_ [Hnil | (b & t & Heq & _ & Hb & _)]]; [discriminate|].
        injection Heq as <- <-. exfalso. apply Hb. lia. }
    all: rewrite extractHeightFromScript_raw by (try assumption; lia).
    all: destruct (Z.ltb_spec (Z.of_nat (length tail)) (byte_val b0))
           as [Hshort|Hlong].
    all: split.
    all: try discriminate.
    all: try (intros H; injection H as <-; split; [reflexivity|];
              right; exists b0, tail; simpl length;
              repeat split; try assumption; lia).
    all: try (intros [-> _]; reflexivity).
    all: intros [_ [Hnil | (b & t & Heq & _ & _ & Hlen)]]; [discriminate|];
      injection Heq as <- <-; simpl length in Hlen; lia.
Qed.

(** C5, as the code has it.  [ExtractCoinbaseHeight] on the signature script
    of input 0: [0x00] gives 0, [0x51] gives 1, [0x60] gives 16; a first byte
    [L] that is a raw length followed by at least [L] bytes gives the
    little-endian unsigned integer of the next [L] bytes whenever that
    integer is below 2^31 (so [0x03, 0x40, 0x0D, 0x03] gives 200_000); and
    the call fails, with [ErrMissingCoinbaseHeight], exactly when the script
    is empty or its first byte is a raw length [L] and the script is shorter
    than [1 + L] (so [0x03, 0x40, 0x0D] fails). *)
Theorem ExtractCoinbaseHeight_cases
    (tx : Tx) (txIn0 : TxIn) (rest : list TxIn) :
  TxIns (MsgTx_of tx) = txIn0 :: rest ->
  let script := SignatureScript txIn0 in
  (script = [Byte.x00] -> ExtractCoinbaseHeight tx = Some (Ok 0))
  /\ (script = [Byte.x51] -> ExtractCoinbaseHeight tx = Some (Ok 1))
  /\ (script = [Byte.x60] -> ExtractCoinbaseHeight tx = Some (Ok 16))
  /\ (script = [Byte.x03; Byte.x40; Byte.x0d; Byte.x03] ->
      ExtractCoinbaseHeight tx = Some (Ok 200000))
  /\ (script = [Byte.x03; Byte.x40; Byte.x0d] ->
      ExtractCoinbaseHeight tx
      = Some (Err (ruleError ErrMissingCoinbaseHeight)))
  /\ (forall b0 tail,
        script = b0 :: tail ->
        byte_val b0 <> OP_0 ->
        ~ (OP_1 <= byte_val b0 <= OP_16) ->
        byte_val b0 <= Z.of_nat (length tail) ->
        le_uint (firstn (Z.to_nat (byte_val b0)) tail) < 2 ^ 31 ->
        ExtractCoinbaseHeight tx
        = Some (Ok (le_uint (firstn (Z.to_nat (byte_val b0)) tail))))
  /\ (forall e,
        ExtractCoinbaseHeight tx = Some (Err e) <->
        e = ruleError ErrMissingCoinbaseHeight
        /\ (script = []
            \/ exists b0 tail,
                 script = b0 :: tail
                 /\ byte_val b0 <> OP_0
                 /\ ~ (OP_1 <= byte_val b0 <= OP_16)
                 /\ Z.of_nat (length script) < 1 + byte_val b0)).
Proof.
  intros Hins script. unfold ExtractCoinbaseHeight. rewrite Hins. fold script.
  do 5 (split; [intros ->; reflexivity|]).
  split.
  - intros b0 tail Hs H0 H116 Hlen Hsmall. rewrite Hs.
    rewrite extractHeightFromScript_raw by assumption.
    destruct (Z.ltb_spec (Z.of_nat (length tail)) (byte_val b0)) as [Hsh|_];
      [lia|].
    do 2 f_equal.
    assert (Heq : le_uint (firstn (Nat.min (Z.to_nat (byte_val b0)) 8) tail)
                  = le_uint (firstn (Z.to_nat (byte_val b0)) tail)).
    { rewrite Nat.min_comm, <- firstn_firstn.
      apply le_uint_firstn_bounded.
      change (256 ^ Z.of_nat 8) with (2 ^ 64).
      assert (2 ^ 31 < 2 ^ 64) by (vm_compute; reflexivity). lia. }
    rewrite Heq. apply int32_id. unfold is_int32.
    pose proof (le_uint_nonneg (firstn (Z.to_nat (byte_val b0)) tail)). lia.
  - intros e. rewrite <- extractHeightFromScript_err. split.
    + intros H. injection H as H. exact H.
    + intros H. f_equal. exact H.
Qed.

Lemma ExtractCoinbaseHeight_cases_witness :
  ExtractCoinbaseHeight
    (coinbaseWithScript [Byte.x03; Byte.x40; Byte.x0d; Byte.x03] 7)
  = Some (Ok 200000).
Proof.
  pose proof (ExtractCoinbaseHeight_cases
                (coinbaseWithScript [Byte.x03; Byte.x40; Byte.x0d; Byte.x03] 7)
                (mkTxIn nullOutPoint [Byte.x03; Byte.x40; Byte.x0d; Byte.x03]
                        MaxUint32)
                [] eq_refl) as H.
  apply (proj1 (proj2 (proj2 (proj2 H)))). reflexivity.
Defined.

(** C5 as stated fails: the four bytes after the length 4 below encode
    2^31, and the height returned is -2^31. *)
Lemma ExtractCoinbaseHeight_counterexample :
  let tail := [Byte.x00; Byte.x00; Byte.x00; Byte.x80] in
  let tx := coinbaseWithScript (Byte.x04 :: tail) 7 in
  byte_val Byte.x04 = 4
  /\ le_uint (firstn 4 tail) = 2147483648
  /\ ExtractCoinbaseHeight tx = Some (Ok (-2147483648))
  /\ ExtractCoinbaseHeight tx <> Some (Ok (le_uint (firstn 4 tail))).
Proof.
  cbv zeta. repeat split; try reflexivity.
  vm_compute. discriminate.
Qed.

(** C6.  [IsFinalizedTransaction] holds exactly when the lock time is 0, or
    it is below [LockTimeThreshold] and below the height, or it is at least
    [LockTimeThreshold] and below the time basis, or every input has the
    maximal sequence number.  A transaction with a non-final input and lock
    time 499_999_999 is not finalized at height 499_999_999 and is at height
    500_000_000; with lock time 500_000_001 it is not finalized at time
    500_000_000 and is at time 500_000_002. *)
Theorem IsFinalizedTransaction_iff (tx : Tx) (blockHeight blockTime : Z) :
  let lockTime := LockTime (MsgTx_of tx) in
  let allFinal :=
    Forall (fun txIn => Sequence txIn = 4294967295) (TxIns (MsgTx_of tx)) in
  (IsFinalizedTransaction tx blockHeight blockTime = true <->
   lockTime = 0
   \/ (lockTime < 500000000 /\ lockTime < blockHeight)
   \/ (500000000 <= lockTime /\ lockTime < blockTime)
   \/ allFinal)
  /\ (lockTime = 0 -> IsFinalizedTransaction tx blockHeight blockTime = true)
  /\ (allFinal -> IsFinalizedTransaction tx blockHeight blockTime = true)
  /\ (lockTime = 499999999 -> ~ allFinal ->
      IsFinalizedTransaction tx 499999999 blockTime = false
      /\ IsFinalizedTransaction tx 500000000 blockTime = true)
  /\ (lockTime = 500000001 -> ~ allFinal ->
      IsFinalizedTransaction tx blockHeight 500000000 = false
      /\ IsFinalizedTransaction tx blockHeight 500000002 = true).
Proof.
  intros lockTime allFinal.
  assert (Hall : forall h t,
             IsFinalizedTransaction tx h t = true <->
             lockTime = 0
             \/ (lockTime < 500000000 /\ lockTime < h)
             \/ (500000000 <= lockTime /\ lockTime < t)
             \/ allFinal).
  { intros h t. unfold IsFinalizedTransaction. fold lockTime.
    assert (Hfb : forallb (fun txIn => Sequence txIn =? MaxUint32)
                    (TxIns (MsgTx_of tx)) = true <-> allFinal).
    { unfold allFinal. rewrite forallb_forall, Forall_forall. split.
      - intros H x Hx. apply Z.eqb_eq. apply H.
        apply list_elem_of_In. exact Hx.
      - intros H x Hx. apply Z.eqb_eq. apply H.
        apply list_elem_of_In. exact Hx. }
    unfold LockTimeThreshold.
    destruct (Z.eqb_spec lockTime 0) as [Hz | Hnz].
    { split; [intros _; left; exact Hz | reflexivity]. }
    destruct (Z.ltb_spec lockTime 500000000) as [Hlt | Hge].
    - destruct (Z.ltb_spec lockTime h) as [Hh | Hh].
      + split; [intros _; right; left; lia | reflexivity].
      + rewrite Hfb. split; [tauto|].
        intros [H | [H | [H | H]]]; [lia | lia | lia | exact H].
    - destruct (Z.ltb_spec lockTime t) as [Ht | Ht].
      + split; [intros _; right; right; left; lia | reflexivity].
      + rewrite Hfb. split; [tauto|].
        intros [H | [H | [H | H]]]; [lia | lia | lia | exact H]. }
  split; [apply Hall|].
  split; [intros H; apply Hall; left; exact H|].
  split; [intros H; apply Hall; do 3 right; exact H|].
  split.
  - intros Hlt Hnf. split.
    + apply not_true_is_false. rewrite Hall.
      intros [H | [H | [H | H]]]; [lia | lia | lia | contradiction].
    + apply Hall. lia.
  - intros Hlt Hnf. split.
    + apply not_true_is_false. rewrite Hall.
      intros [H | [H | [H | H]]]; [lia | lia | lia | contradiction].
    + apply Hall. lia.
Qed.

Lemma IsFinalizedTransaction_iff_witness :
  IsFinalizedTransaction (spendOf (mkOutPoint 11 0) 0 499999999 1000 21)
    499999999 1231006505 = false
  /\ IsFinalizedTransaction (spendOf (mkOutPoint 11 0) 0 499999999 1000 21)
       500000000 1231006505 = true.
Proof.
  pose proof (IsFinalizedTransaction_iff
                (spendOf (mkOutPoint 11 0) 0 499999999 1000 21)
                0 1231006505) as H.
  apply (proj1 (proj2 (proj2 (proj2 H)))).
  - reflexivity.
  - intros Hall. simpl in Hall. inversion Hall as [|x l Hseq _].
    simpl in Hseq. discriminate Hseq.
Defined.

(** ** Claims on the context-free checks *)

Lemma checkOutputValues_err (outs : list TxOut) (total : Z) (e : error) :
  checkOutputValues outs total = Some e -> e = ruleError ErrBadTxOutValue.
Proof.
  revert total. induction outs as [|o outs IH]; intros total; simpl.
  - discriminate.
  - repeat match goal with
           | |- context [if ?c then _ else _] => destruct c
           end; try (intros H; injection H as <-; reflexivity).
    apply IH.
Qed.

Lemma checkDuplicateInputs_err (ins : list TxIn) (seen : gset OutPoint)
    (e : error) :
  checkDuplicateInputs ins seen = Some e -> e = ruleError ErrDuplicateTxInputs.
Proof.
  revert seen. induction ins as [|i ins IH]; intros seen; simpl.
  - discriminate.
  - destruct (bool_decide _).
    + intros H; injection H as <-; reflexivity.
    + apply IH.
Qed.

(** What [CheckTransactionSanity] returns once the size checks are passed
    is none of the two size errors. *)
Lemma CheckTransactionSanity_tail_codes (tx : Tx) (e : error) :
  match checkOutputValues (TxOuts (MsgTx_of tx)) 0 with
  | Some e => Some e
  | None =>
      match checkDuplicateInputs (TxIns (MsgTx_of tx)) ∅ with
      | Some e => Some e
      | None =>
          if IsCoinBase tx then
            let slen :=
              match TxIns (MsgTx_of tx) with
              | txIn0 :: _ => Z.of_nat (length (SignatureScript txIn0))
              | [] => 0
              end in
            if (slen <? MinCoinbaseScriptLen) || (MaxCoinbaseScriptLen <? slen)
            then Some (ruleError ErrBadCoinbaseScriptLen)
            else None
          else
            if existsb (fun txIn => isNullOutpoint (PreviousOutPoint txIn))
                 (TxIns (MsgTx_of tx))
            then Some (ruleError ErrBadTxInput)
            else None
      end
  end = Some e ->
  e = ruleError ErrBadTxOutValue \/ e = ruleError ErrDuplicateTxInputs
  \/ e = ruleError ErrBadCoinbaseScriptLen \/ e = ruleError ErrBadTxInput.
Proof.
  destruct (checkOutputValues _ 0) as [e1|] eqn:Hout.
  { intros H; injection H as <-. left. eapply checkOutputValues_err; eauto. }
  destruct (checkDuplicateInputs _ ∅) as [e2|] eqn:Hdup.
  { intros H; injection H as <-. right; left.
    eapply checkDuplicateInputs_err; eauto. }
  destruct (IsCoinBase tx).
  - cbv zeta. destruct (_ || _); [|discriminate].
    intros H; injection H as <-. tauto.
  - destruct (existsb _ _); [|discriminate].
    intros H; injection H as <-. tauto.
Qed.

(** C7.  For a transaction with at least one input and one output (the two
    checks that come first), [CheckTransactionSanity] fails with
    [ErrTxTooBig] exactly when the serialized size exceeds 1_000_000, and
    with [ErrTxTooSmall] exactly when MagneticAnomaly or Upgrade9 is active
    and the size is below the floor: 65 whenever Upgrade9 is active, 100 when
    only MagneticAnomaly is.  So 64 bytes under Upgrade9 and 99 bytes under
    MagneticAnomaly alone give [ErrTxTooSmall], while 65 bytes and 100 bytes
    pass the size checks. *)
Theorem CheckTransactionSanity_size
    (SerializeSize : MsgTx -> Z) (tx : Tx)
    (magneticAnomalyActive upgrade9Active : bool) (scriptFlags : ScriptFlags) :
  TxIns (MsgTx_of tx) <> [] ->
  TxOuts (MsgTx_of tx) <> [] ->
  let size := SerializeSize (MsgTx_of tx) in
  let floor := if upgrade9Active then 65 else 100 in
  let r := CheckTransactionSanity SerializeSize tx magneticAnomalyActive
             upgrade9Active scriptFlags in
  (r = Some (ruleError ErrTxTooBig) <-> 1000000 < size)
  /\ (r = Some (ruleError ErrTxTooSmall) <->
      (magneticAnomalyActive = true \/ upgrade9Active = true) /\ size < floor)
  /\ (upgrade9Active = true -> size = 64 -> r = Some (ruleError ErrTxTooSmall))
  /\ (upgrade9Active = true -> size = 65 ->
      r <> Some (ruleError ErrTxTooSmall) /\ r <> Some (ruleError ErrTxTooBig))
  /\ (magneticAnomalyActive = true -> upgrade9Active = false -> size = 99 ->
      r = Some (ruleError ErrTxTooSmall))
  /\ (magneticAnomalyActive = true -> upgrade9Active = false -> size = 100 ->
      r <> Some (ruleError ErrTxTooSmall) /\ r <> Some (ruleError ErrTxTooBig)).
Proof.
  intros Hins Houts size floor r.
  assert (Hbig : r = Some (ruleError ErrTxTooBig) <-> 1000000 < size).
  { subst r. unfold CheckTransactionSanity. fold size.
    destruct (Z.eqb_spec (Z.of_nat (length (TxIns (MsgTx_of tx)))) 0) as [Hi|_].
    { exfalso. apply Hins. apply length_zero_iff_nil. lia. }
    destruct (Z.eqb_spec (Z.of_nat (length (TxOuts (MsgTx_of tx)))) 0) as [Ho|_].
    { exfalso. apply Houts. apply length_zero_iff_nil. lia. }
    unfold MaxTransactionSize, oneMegabyte.
    destruct (Z.ltb_spec 1000000 size) as [Hb | Hb].
    { split; [intros _; exact Hb | reflexivity]. }
    split; [|lia].
    match goal with
    | |- (if ?c then _ else _) = _ -> _ => destruct c
    end; [discriminate|].
    intros H.
    apply CheckTransactionSanity_tail_codes in H.
    destruct H as [H | [H | [H | H]]]; discriminate H. }
  assert (Hsmall : r = Some (ruleError ErrTxTooSmall) <->
                   (magneticAnomalyActive = true \/ upgrade9Active = true)
                   /\ size < floor).
  { subst r floor. unfold CheckTransactionSanity. fold size.
    destruct (Z.eqb_spec (Z.of_nat (length (TxIns (MsgTx_of tx)))) 0) as [Hi|_].
    { exfalso. apply Hins. apply length_zero_iff_nil. lia. }
    destruct (Z.eqb_spec (Z.of_nat (length (TxOuts (MsgTx_of tx)))) 0) as [Ho|_].
    { exfalso. apply Houts. apply length_zero_iff_nil. lia. }
    unfold MaxTransactionSize, oneMegabyte, MinTransactionSize,
      MagneticAnomalyMinTransactionSize.
    destruct (Z.ltb_spec 1000000 size) as [Hb | Hb].
    { split; [discriminate|].
      intros [_ Hlt]. destruct upgrade9Active; lia. }
    destruct magneticAnomalyActive, upgrade9Active; cbn [orb];
      try match goal with
          | |- context [size <? ?k] => destruct (Z.ltb_spec size k) as [Hs | Hs]
          end;
      try (split; [intros _; split; [tauto | lia] | reflexivity]);
      (split; [| intros [[Hf | Hf] Hlt]; try discriminate Hf; lia]);
      intros H;
      apply CheckTransactionSanity_tail_codes in H;
      destruct H as [H | [H | [H | H]]]; discriminate H. }
  split; [exact Hbig|]. split; [exact Hsmall|].
  subst floor. split; [|split; [|split]].
  - intros -> Hs. apply Hsmall. split; [tauto | lia].
  - intros -> Hs. split; intros H.
    + apply Hsmall in H. lia.
    + apply Hbig in H. lia.
  - intros -> -> Hs. apply Hsmall. split; [tauto | lia].
  - intros -> -> Hs. split; intros H.
    + apply Hsmall in H. lia.
    + apply Hbig in H. lia.
Qed.

Lemma CheckTransactionSanity_size_witness :
  wireSize (MsgTx_of (paddedSpend (mkOutPoint 11 0) 4 21)) = 64
  /\ CheckTransactionSanity wireSize (paddedSpend (mkOutPoint 11 0) 4 21)
       true true (sanityScriptFlags true)
     = Some (ruleError ErrTxTooSmall).
Proof.
  split; [reflexivity|].
  pose proof (CheckTransactionSanity_size wireSize
                (paddedSpend (mkOutPoint 11 0) 4 21) true true
                (sanityScriptFlags true)
                ltac:(discriminate) ltac:(discriminate)) as H.
  apply (proj1 (proj2 (proj2 H))); reflexivity.
Defined.

Lemma Hash_Compare_ge (a b : Hash) : 0 <= Hash_Compare a b <-> b <= a.
Proof.
  unfold Hash_Compare. destruct (Z.compare_spec a b); split; intros; lia.
Qed.

Section BlockSanityClaims.

Variable SerializeSize : MsgTx -> Z.
Variable CompactToBig : Z -> Z.
Variable BlockHash : BlockHeader -> Hash.
Variable calcMerkleRoot : list Tx -> Hash.
Variable AdjustedTime : Time.

Local Abbreviation blockSanity header height powLimit flags txs :=
  (checkBlockSanity SerializeSize CompactToBig BlockHash calcMerkleRoot
     AdjustedTime (mkBlock header txs height) powLimit flags).

Local Abbreviation txSanity flags tx :=
  (CheckTransactionSanity SerializeSize tx (BFMagneticAnomaly flags)
     (BFUpgrade9 flags) (sanityScriptFlags (BFMagneticAnomaly flags))).

(** C2, as the code has it.  With MagneticAnomaly active, on a block whose
    header is sane and whose transactions are sane one by one, block sanity
    checking fails with [ErrInvalidTxOrder] on [cb, A, A'] where [A'] has
    the txid of [A] (the strict ordering check comes before the duplicate
    check), fails with [ErrInvalidTxOrder] on [cb, B, A] with [A < B], and
    on [cb, A, B] with [A < B] and the coinbase txid different from both
    raises neither [ErrInvalidTxOrder] nor [ErrDuplicateTx]: the block
    passes as soon as the merkle root matches. *)
Theorem checkBlockSanity_ctor
    (header : BlockHeader) (height powLimit : Z) (flags : BehaviorFlags)
    (cb tA tA' tB : Tx) :
  BFMagneticAnomaly flags = true ->
  checkBlockHeaderSanity CompactToBig BlockHash AdjustedTime header powLimit
    flags = None ->
  IsCoinBase cb = true ->
  IsCoinBase tA = false -> IsCoinBase tA' = false -> IsCoinBase tB = false ->
  txSanity flags cb = None ->
  txSanity flags tA = None ->
  txSanity flags tB = None ->
  TxHash tA' = TxHash tA ->
  TxHash tA < TxHash tB ->
  TxHash cb <> TxHash tA ->
  TxHash cb <> TxHash tB ->
  blockSanity header height powLimit flags [cb; tA; tA']
    = Some (ruleError ErrInvalidTxOrder)
  /\ blockSanity header height powLimit flags [cb; tB; tA]
      = Some (ruleError ErrInvalidTxOrder)
  /\ blockSanity header height powLimit flags [cb; tA; tB]
      <> Some (ruleError ErrInvalidTxOrder)
  /\ blockSanity header height powLimit flags [cb; tA; tB]
      <> Some (ruleError ErrDuplicateTx)
  /\ (MerkleRoot header = calcMerkleRoot [cb; tA; tB] ->
      blockSanity header height powLimit flags [cb; tA; tB] = None).
Proof.
  intros Hma Hhdr Hcb HA HA' HB Scb SA SB Heq Hlt Hne1 Hne2.
  rewrite Hma in *.
  assert (Hdup : checkDuplicateTxs [cb; tA; tB] ∅ = None).
  { assert (Hempty : forall h : Z, h ∉ (∅ : gset Z))
      by (intros h; apply not_elem_of_empty).
    unfold Hash in *. simpl.
    rewrite bool_decide_eq_false_2 by apply Hempty.
    rewrite bool_decide_eq_false_2.
    2: { rewrite elem_of_union, elem_of_singleton.
         intros [Hin | Hin]; [congruence | exact (Hempty _ Hin)]. }
    rewrite bool_decide_eq_false_2; [reflexivity|].
    rewrite !elem_of_union, !elem_of_singleton.
    intros [Hin | [Hin | Hin]]; [lia | congruence | exact (Hempty _ Hin)]. }
  assert (Hord : forall t1 t2 : Tx,
             IsCoinBase t1 = false -> IsCoinBase t2 = false ->
             CheckTransactionSanity SerializeSize t1 true (BFUpgrade9 flags)
               (sanityScriptFlags true) = None ->
             TxHash t2 <= TxHash t1 ->
             blockSanity header height powLimit flags [cb; t1; t2]
             = Some (ruleError ErrInvalidTxOrder)).
  { intros t1 t2 H1 H2 S1 Hle. unfold checkBlockSanity.
    cbn [Header Transactions]. rewrite Hhdr, Hcb. cbn [negb existsb].
    rewrite H1, H2. cbn [orb]. rewrite Hma.
    cbn [checkTransactionsLoop]. rewrite Scb, S1.
    cbn [andb Z.ltb Z.compare Z.add Z.pos_sub Pos.add Pos.compare
         Pos.compare_cont].
    replace (0 + 1 + 1) with 2 by reflexivity.
    replace (0 + 1) with 1 by reflexivity.
    change (1 <? 0) with false. change (1 <? 1) with false.
    change (1 <? 2) with true. cbn [andb].
    destruct (Z.leb_spec 0 (Hash_Compare (TxHash t1) (TxHash t2))) as [_|Hc];
      [reflexivity|].
    exfalso. apply (proj2 (Hash_Compare_ge _ _)) in Hle. lia. }
  assert (Hpass : blockSanity header height powLimit flags [cb; tA; tB]
                  = if negb (Hash_IsEqual (MerkleRoot header)
                               (calcMerkleRoot [cb; tA; tB]))
                    then Some (ruleError ErrBadMerkleRoot)
                    else None).
  { unfold checkBlockSanity.
    cbn [Header Transactions]. rewrite Hhdr, Hcb. cbn [negb existsb].
    rewrite HA, HB. cbn [orb]. rewrite Hma.
    cbn [checkTransactionsLoop]. rewrite Scb, SA, SB.
    replace (0 + 1 + 1) with 2 by reflexivity.
    replace (0 + 1) with 1 by reflexivity.
    change (1 <? 0) with false. change (1 <? 1) with false.
    change (1 <? 2) with true. cbn [andb].
    destruct (Z.leb_spec 0 (Hash_Compare (TxHash tA) (TxHash tB))) as [Hc|_].
    { apply (proj1 (Hash_Compare_ge _ _)) in Hc. lia. }
    rewrite Hdup. reflexivity. }
  split; [apply Hord; try assumption; lia|].
  split; [apply Hord; try assumption; lia|].
  rewrite Hpass.
  split; [destruct (negb _); discriminate|].
  split; [destruct (negb _); discriminate|].
  intros Hroot. unfold Hash_IsEqual. rewrite Hroot, Z.eqb_refl. reflexivity.
Qed.

End BlockSanityClaims.

Lemma checkBlockSanity_ctor_witness :
  let cb := sampleCoinbase 5 in
  let tA := paddedSpend (mkOutPoint 11 0) 40 9 in
  let tB := paddedSpend (mkOutPoint 12 0) 40 10 in
  let sane txs :=
    checkBlockSanity wireSize compactToBig sampleBlockHash xorRoot sampleNow
      (mkBlock (sampleHeader (xorRoot [cb; tA; tB])) txs 600000)
      (PowLimit mainNetLike) flagsMagneticAnomaly in
  sane [cb; tA; tA] = Some (ruleError ErrInvalidTxOrder)
  /\ sane [cb; tB; tA] = Some (ruleError ErrInvalidTxOrder)
  /\ sane [cb; tA; tB] <> Some (ruleError ErrInvalidTxOrder)
  /\ sane [cb; tA; tB] <> Some (ruleError ErrDuplicateTx)
  /\ (xorRoot [cb; tA; tB] = xorRoot [cb; tA; tB] -> sane [cb; tA; tB] = None).
Proof.
  cbv zeta.
  apply (checkBlockSanity_ctor wireSize compactToBig sampleBlockHash xorRoot
           sampleNow
           (sampleHeader
              (xorRoot [sampleCoinbase 5; paddedSpend (mkOutPoint 11 0) 40 9;
                        paddedSpend (mkOutPoint 12 0) 40 10]))
           600000 (PowLimit mainNetLike) flagsMagneticAnomaly
           (sampleCoinbase 5) (paddedSpend (mkOutPoint 11 0) 40 9)
           (paddedSpend (mkOutPoint 11 0) 40 9)
           (paddedSpend (mkOutPoint 12 0) 40 10)).
  all: try reflexivity.
  all: vm_compute; discriminate.
Defined.

(** C2 as stated fails: with MagneticAnomaly active the block [cb, A, A] is
    turned down by the ordering check, before the duplicate check is
    reached. *)
Lemma checkBlockSanity_ctor_counterexample :
  let cb := sampleCoinbase 5 in
  let tA := paddedSpend (mkOutPoint 11 0) 40 9 in
  let r :=
    checkBlockSanity wireSize compactToBig sampleBlockHash xorRoot sampleNow
      (sampleBlock [cb; tA; tA]) (PowLimit mainNetLike) flagsMagneticAnomaly in
  BFMagneticAnomaly flagsMagneticAnomaly = true
  /\ r = Some (ruleError ErrInvalidTxOrder)
  /\ r <> Some (ruleError ErrDuplicateTx).
Proof.
  cbv zeta. split; [reflexivity|]. split; [vm_compute; reflexivity|].
  vm_compute. discriminate.
Qed.

(** ** Claims on the input checks *)

Lemma checkInputsLoop_app (pre post : list TxIn) (txHeight : Z)
    (view : UtxoViewpoint) (params : Params) (total : Z) :
  checkInputsLoop (pre ++ post) txHeight view params total
  = match checkInputsLoop pre txHeight view params total with
    | Ok total' => checkInputsLoop post txHeight view params total'
    | Err e => Err e
    end.
Proof.
  revert total. induction pre as [|i pre IH]; intros total; simpl.
  - reflexivity.
  - destruct (LookupEntry view (PreviousOutPoint i)) as [utxo|]; [|reflexivity].
    repeat match goal with
           | |- context [if ?c then _ else _] => destruct c; try reflexivity
           end; apply IH.
Qed.

(** The step of the loop at an unspent coinbase output. *)
Lemma checkInputsLoop_coinbase_step (txIn : TxIn) (post : list TxIn)
    (txHeight : Z) (view : UtxoViewpoint) (params : Params) (total : Z)
    (utxo : UtxoEntry) :
  LookupEntry view (PreviousOutPoint txIn) = Some utxo ->
  IsSpent utxo = false ->
  utxo_IsCoinBase utxo = true ->
  0 <= txHeight < 2 ^ 31 ->
  0 <= BlockHeight utxo < 2 ^ 31 ->
  0 <= CoinbaseMaturity params < 2 ^ 16 ->
  (txHeight - BlockHeight utxo < CoinbaseMaturity params ->
   checkInputsLoop (txIn :: post) txHeight view params total
   = Err (ruleError ErrImmatureSpend))
  /\ (CoinbaseMaturity params <= txHeight - BlockHeight utxo ->
      checkInputsLoop [txIn] txHeight view params total
      <> Err (ruleError ErrImmatureSpend)).
Proof.
  intros Hlook Hunspent Hcb Hh Ho Hm.
  assert (Hsub : sub32 txHeight (BlockHeight utxo) = txHeight - BlockHeight utxo).
  { apply int32_id. unfold is_int32. lia. }
  assert (Hmat : int32 (CoinbaseMaturity params) = CoinbaseMaturity params).
  { apply int32_id. unfold is_int32.
    assert (2 ^ 16 < 2 ^ 31) by (vm_compute; reflexivity). lia. }
  cbn [checkInputsLoop]. rewrite Hlook, Hunspent, Hcb, Hsub, Hmat. split.
  - intros Hlt. destruct (Z.ltb_spec (txHeight - BlockHeight utxo)
                            (CoinbaseMaturity params)); [reflexivity | lia].
  - intros Hge. destruct (Z.ltb_spec (txHeight - BlockHeight utxo)
                            (CoinbaseMaturity params)); [lia|].
    repeat match goal with
           | |- context [if ?c then _ else _] => destruct c
           end; discriminate.
Qed.

(** C8.  For an input of a non-coinbase transaction that the loop reaches
    (the inputs before it pass) and whose referenced utxo is an unspent
    coinbase output, the check of that input fails with [ErrImmatureSpend]
    exactly when [txHeight] minus the height the utxo was created at is below
    [CoinbaseMaturity], and [CheckTransactionInputs] then fails with
    [ErrImmatureSpend]; when the input is the last one the whole call fails
    with [ErrImmatureSpend] exactly in that case.  A coinbase created at
    height 100 with maturity 100 is immature at height 199 and passes the
    maturity check at height 200. *)
Theorem CheckTransactionInputs_maturity
    (tx : Tx) (txHeight : Z) (view : UtxoViewpoint) (params : Params)
    (pre post : list TxIn) (txIn : TxIn) (utxo : UtxoEntry) (total : Z) :
  IsCoinBase tx = false ->
  TxIns (MsgTx_of tx) = pre ++ txIn :: post ->
  checkInputsLoop pre txHeight view params 0 = Ok total ->
  LookupEntry view (PreviousOutPoint txIn) = Some utxo ->
  IsSpent utxo = false ->
  utxo_IsCoinBase utxo = true ->
  0 <= txHeight < 2 ^ 31 ->
  0 <= BlockHeight utxo < 2 ^ 31 ->
  0 <= CoinbaseMaturity params < 2 ^ 16 ->
  let immature := txHeight - BlockHeight utxo < CoinbaseMaturity params in
  (checkInputsLoop [txIn] txHeight view params total
   = Err (ruleError ErrImmatureSpend) <-> immature)
  /\ (immature ->
      CheckTransactionInputs tx txHeight view params
      = Err (ruleError ErrImmatureSpend))
  /\ (post = [] ->
      (CheckTransactionInputs tx txHeight view params
       = Err (ruleError ErrImmatureSpend) <-> immature))
  /\ (BlockHeight utxo = 100 -> CoinbaseMaturity params = 100 ->
      (txHeight = 199 ->
       CheckTransactionInputs tx txHeight view params
       = Err (ruleError ErrImmatureSpend))
      /\ (txHeight = 200 ->
          checkInputsLoop [txIn] txHeight view params total
          <> Err (ruleError ErrImmatureSpend))).
Proof.
  intros Hncb Hins Hpre Hlook Hunspent Hcb Hh Ho Hm immature.
  pose proof (checkInputsLoop_coinbase_step txIn post txHeight view params
                total utxo Hlook Hunspent Hcb Hh Ho Hm) as [Hstep Hpass].
  pose proof (checkInputsLoop_coinbase_step txIn [] txHeight view params
                total utxo Hlook Hunspent Hcb Hh Ho Hm) as [Hstep1 _].
  assert (Hfun : immature ->
                 CheckTransactionInputs tx txHeight view params
                 = Err (ruleError ErrImmatureSpend)).
  { intros Him. unfold CheckTransactionInputs. rewrite Hncb, Hins.
    rewrite checkInputsLoop_app, Hpre, (Hstep Him). reflexivity. }
  assert (Hiff : checkInputsLoop [txIn] txHeight view params total
                 = Err (ruleError ErrImmatureSpend) <-> immature).
  { split; [|exact Hstep1]. intros Herr.
    destruct (Z_lt_le_dec (txHeight - BlockHeight utxo)
                (CoinbaseMaturity params)) as [Hlt | Hge]; [exact Hlt|].
    exfalso. exact (Hpass Hge Herr). }
  split; [exact Hiff|]. split; [exact Hfun|]. split.
  - intros ->. split; [|exact Hfun]. intros Herr. apply Hiff.
    unfold CheckTransactionInputs in Herr. rewrite Hncb, Hins in Herr.
    rewrite checkInputsLoop_app, Hpre in Herr.
    destruct (checkInputsLoop [txIn] txHeight view params total) as [t|e];
      [|exact Herr].
    destruct (t <? sumOutputs (TxOuts (MsgTx_of tx))); discriminate Herr.
  - intros H100 Hm100. split.
    + intros ->. apply Hfun. unfold immature. lia.
    + intros ->. apply Hpass. lia.
Qed.

Lemma CheckTransactionInputs_maturity_witness :
  CheckTransactionInputs spendCoinbase 199 viewWithCoinbase mainNetLike
  = Err (ruleError ErrImmatureSpend)
  /\ checkInputsLoop (TxIns (MsgTx_of spendCoinbase)) 200 viewWithCoinbase
       mainNetLike 0
     <> Err (ruleError ErrImmatureSpend)
  /\ CheckTransactionInputs spendCoinbase 200 viewWithCoinbase mainNetLike
     = Ok 10000.
Proof.
  assert (Hr : forall h, 0 <= h < 2 ^ 31 ->
               0 <= h < 2 ^ 31 /\ 0 <= BlockHeight coinbaseUtxo < 2 ^ 31
               /\ 0 <= CoinbaseMaturity mainNetLike < 2 ^ 16).
  { intros h Hh. repeat split; try apply Hh; vm_compute; congruence. }
  split; [|split].
  - destruct (Hr 199 ltac:(lia)) as (H1 & H2 & H3).
    apply (CheckTransactionInputs_maturity spendCoinbase 199 viewWithCoinbase
             mainNetLike [] [] (mkTxIn coinbaseOutPoint [] MaxUint32)
             coinbaseUtxo 0 eq_refl eq_refl eq_refl eq_refl eq_refl eq_refl
             H1 H2 H3); reflexivity.
  - destruct (Hr 200 ltac:(lia)) as (H1 & H2 & H3).
    apply (CheckTransactionInputs_maturity spendCoinbase 200 viewWithCoinbase
             mainNetLike [] [] (mkTxIn coinbaseOutPoint [] MaxUint32)
             coinbaseUtxo 0 eq_refl eq_refl eq_refl eq_refl eq_refl eq_refl
             H1 H2 H3); reflexivity.
  - vm_compute. reflexivity.
Defined.

(** ** The calls of a run *)

Section Preservation.

Variable I : list Event -> Prop.
Variable Q : Event -> Prop.
Hypothesis I_stable : stable I Q.

Lemma preserves_ret {A} (a : A) : preserves I (ret a).
Proof. intros s H. exact H. Qed.

Lemma preserves_leave {A} (r : option error) : preserves I (@leave A r).
Proof. intros s H. exact H. Qed.

Lemma preserves_panic {A} : preserves I (@panic A).
Proof. intros s H. exact H. Qed.

Lemma preserves_propagate (err : option error) : preserves I (propagate err).
Proof. destruct err; intros s H; exact H. Qed.

Lemma preserves_getView : preserves I getView.
Proof. intros s H. exact H. Qed.

Lemma preserves_getStxos : preserves I getStxos.
Proof. intros s H. exact H. Qed.

Lemma preserves_putView (v : UtxoViewpoint) : preserves I (putView v).
Proof. intros s H. exact H. Qed.

Lemma preserves_putStxos (x : option (list SpentTxOut)) :
  preserves I (putStxos x).
Proof. intros s H. exact H. Qed.

Lemma preserves_emit (ev : Event) : Q ev -> preserves I (emit ev).
Proof. intros Hq s H. simpl. apply I_stable; assumption. Qed.

Lemma preserves_bind {A B} (m : M A) (k : A -> M B) :
  preserves I m -> (forall a, preserves I (k a)) -> preserves I (bind m k).
Proof.
  intros Hm Hk s H. unfold bind. specialize (Hm s H).
  destruct (m s) as [[a | r |] s']; simpl in *.
  - apply Hk. exact Hm.
  - exact Hm.
  - exact Hm.
Qed.

Lemma establishes_bind {A B} (m : M A) (k : A -> M B) :
  establishes I m -> (forall a, preserves I (k a)) -> establishes I (bind m k).
Proof.
  intros Hm Hk s. unfold bind. specialize (Hm s).
  destruct (m s) as [[a | r |] s']; simpl in *.
  - apply Hk. exact Hm.
  - exact Hm.
  - exact Hm.
Qed.

End Preservation.

(** Splits a computation into its statements; the events it records are
    left to [auto]. *)
Ltac preserves_step :=
  lazymatch goal with
  | |- preserves _ (ret _) => apply preserves_ret
  | |- preserves _ (leave _) => apply preserves_leave
  | |- preserves _ panic => apply preserves_panic
  | |- preserves _ (propagate _) => apply preserves_propagate
  | |- preserves _ getView => apply preserves_getView
  | |- preserves _ getStxos => apply preserves_getStxos
  | |- preserves _ (putView _) => apply preserves_putView
  | |- preserves _ (putStxos _) => apply preserves_putStxos
  | |- preserves _ (emit _) =>
      eapply preserves_emit; [eassumption | solve [auto]]
  | |- preserves _ (bind _ _) => apply preserves_bind; [ | intros ?]
  | |- preserves _ (if ?c then _ else _) => destruct c eqn:?
  | |- preserves _ (match ?x with _ => _ end) => destruct x eqn:?
  | |- preserves ?I (let x := ?v in @?f x) =>
      let y := fresh x in
      pose (y := v); change (preserves I (f y)); cbv beta;
      lazymatch type of v with
      | Z => idtac
      | Params => idtac
      | _ => clearbody y
      end
  end.

Section ConnectRuns.

Variable FetchEntry : OutPoint -> result (option UtxoEntry).
Variable addInputUtxos :
  UtxoViewpoint -> Block -> bool -> UtxoViewpoint * option error.
Variable connectTransaction :
  UtxoViewpoint -> Tx -> Z -> option (list SpentTxOut) -> bool ->
  UtxoViewpoint * option (list SpentTxOut) * option error.
Variable connectTransactions :
  UtxoViewpoint -> Block -> option (list SpentTxOut) -> bool ->
  UtxoViewpoint * option (list SpentTxOut) * option error.
Variable deploymentState : option blockNode -> result ThresholdState.
Variable calcSequenceLock :
  blockNode -> Tx -> UtxoViewpoint -> bool -> result SequenceLock.
Variable checkBlockScripts :
  Block -> UtxoViewpoint -> ScriptFlags -> Z -> Z -> option error.
Variable CalcPastMedianTime : option blockNode -> Time.
Variable Bip16Activation : Time.

Variable I : list Event -> Prop.
Variable Q : Event -> Prop.
Hypothesis I_stable : stable I Q.

Lemma connectInputsLoop_preserves (b : BlockChain) (node : blockNode)
    (magneticAnomalyActive : bool) (txs : list Tx) (totalFees : Z) :
  (forall tx, Q (EvConnectTransaction tx)) ->
  preserves I (connectInputsLoop connectTransaction b node
                 magneticAnomalyActive txs totalFees).
Proof.
  intros Hq. revert totalFees.
  induction txs as [|tx txs IH]; intros totalFees; cbn [connectInputsLoop].
  - apply (preserves_ret I).
  - unfold call_connectTransaction. repeat preserves_step. apply IH.
Qed.

Lemma sequenceLocksLoop_preserves (node : blockNode) (medianTime : Time)
    (txs : list Tx) :
  (forall tx, Q (EvCalcSequenceLock tx)) ->
  preserves I (sequenceLocksLoop calcSequenceLock node medianTime txs).
Proof.
  intros Hq. induction txs as [|tx txs IH]; cbn [sequenceLocksLoop].
  - apply (preserves_ret I).
  - repeat preserves_step. apply IH.
Qed.


End ConnectRuns.

(** ** Claims on the connect orchestrator *)

Section ConnectClaims.

Variable FetchEntry : OutPoint -> result (option UtxoEntry).
Variable addInputUtxos :
  UtxoViewpoint -> Block -> bool -> UtxoViewpoint * option error.
Variable connectTransaction :
  UtxoViewpoint -> Tx -> Z -> option (list SpentTxOut) -> bool ->
  UtxoViewpoint * option (list SpentTxOut) * option error.
Variable connectTransactions :
  UtxoViewpoint -> Block -> option (list SpentTxOut) -> bool ->
  UtxoViewpoint * option (list SpentTxOut) * option error.
Variable deploymentState : option blockNode -> result ThresholdState.
Variable calcSequenceLock :
  blockNode -> Tx -> UtxoViewpoint -> bool -> result SequenceLock.
Variable checkBlockScripts :
  Block -> UtxoViewpoint -> ScriptFlags -> Z -> Z -> option error.
Variable CalcPastMedianTime : option blockNode -> Time.
Variable Bip16Activation : Time.

Local Abbreviation connect :=
  (checkConnectBlock FetchEntry addInputUtxos connectTransaction
     connectTransactions deploymentState calcSequenceLock checkBlockScripts
     CalcPastMedianTime Bip16Activation).


(** [checkConnectBlock] begins with the genesis test and the BIP0030 step;
    what comes after makes none but the other calls. *)
Lemma checkConnectBlock_head (b : BlockChain) (node : blockNode)
    (block : Block) :
  exists rest : M unit,
    connect b node block
    = (if Hash_IsEqual (node_hash node) (GenesisHash (chainParams b))
       then leave (Some (ruleError ErrMissingTxOut))
       else
         bind (if bip0030Applies (chainParams b) node
               then bind (emit EvCheckBIP0030)
                      (fun _ =>
                         bind getView
                           (fun view =>
                              propagate (checkBIP0030 FetchEntry block view)))
               else ret tt)
              (fun _ => rest))
    /\ forall (I : list Event -> Prop) (Q : Event -> Prop),
        stable I Q ->
        (forall ev, ev <> EvCheckBIP0030 -> Q ev) ->
        preserves I rest.
Proof.
  unfold checkConnectBlock, bip0030Applies.
  eexists. split; [reflexivity|].
  intros I Q Hst Hq.
  unfold call_addInputUtxos, call_connectTransactions.
  repeat lazymatch goal with
         | |- preserves _ (connectInputsLoop _ _ _ _ _ _) =>
             apply (connectInputsLoop_preserves connectTransaction I Q Hst);
             intros; apply Hq; discriminate
         | |- preserves _ (sequenceLocksLoop _ _ _ _) =>
             apply (sequenceLocksLoop_preserves calcSequenceLock I Q Hst);
             intros; apply Hq; discriminate
         | |- preserves _ (emit _) =>
             apply (preserves_emit I Q Hst); apply Hq; discriminate
         | |- _ => preserves_step
         end.
Qed.

Section SoundStore.

Hypothesis store_sound : forall outpoint e, FetchEntry outpoint <> Err e.

Lemma checkBIP0030Outputs_codes (txHash : Hash) (idxs : list nat)
    (view : UtxoViewpoint) (e : error) :
  checkBIP0030Outputs FetchEntry txHash idxs view = Some e ->
  e = ruleError ErrOverwriteTx.
Proof.
  induction idxs as [|idx idxs IH]; cbn [checkBIP0030Outputs];
    [discriminate|].
  destruct (LookupEntry view _) as [utxo|].
  - destruct (negb (IsSpent utxo)); [|exact IH].
    intros H; injection H as <-; reflexivity.
  - destruct (FetchEntry _) as [[utxo|]|err] eqn:Hf.
    + destruct (negb (IsSpent utxo)); [|exact IH].
      intros H; injection H as <-; reflexivity.
    + exact IH.
    + exfalso. exact (store_sound _ _ Hf).
Qed.

Lemma checkBIP0030Outputs_hit (txHash : Hash) (idxs : list nat)
    (view : UtxoViewpoint) (txOutIdx : nat) (utxo : UtxoEntry) :
  In txOutIdx idxs ->
  (let prevOut := mkOutPoint txHash (uint32 (Z.of_nat txOutIdx)) in
   LookupEntry view prevOut = Some utxo
   \/ (LookupEntry view prevOut = None
       /\ FetchEntry prevOut = Ok (Some utxo))) ->
  IsSpent utxo = false ->
  checkBIP0030Outputs FetchEntry txHash idxs view
  = Some (ruleError ErrOverwriteTx).
Proof.
  intros Hin Hentry Hunspent. cbv zeta in Hentry.
  induction idxs as [|idx idxs IH]; [contradiction|].
  cbn [checkBIP0030Outputs].
  destruct Hin as [-> | Hin].
  - destruct Hentry as [Hv | [Hv Hs]]; rewrite Hv.
    + rewrite Hunspent. reflexivity.
    + rewrite Hs, Hunspent. reflexivity.
  - specialize (IH Hin). clear Hentry.
    destruct (LookupEntry view
                (mkOutPoint txHash (uint32 (Z.of_nat idx)))) as [u|].
    + destruct (negb (IsSpent u)); [reflexivity | exact IH].
    + destruct (FetchEntry (mkOutPoint txHash (uint32 (Z.of_nat idx))))
        as [[u|]|err] eqn:Hf.
      * destruct (negb (IsSpent u)); [reflexivity | exact IH].
      * exact IH.
      * exfalso. exact (store_sound _ _ Hf).
Qed.

Lemma checkBIP0030_overwrite (block : Block) (view : UtxoViewpoint) :
  overwritesUnspent FetchEntry (Transactions block) view ->
  checkBIP0030 FetchEntry block view = Some (ruleError ErrOverwriteTx).
Proof.
  unfold checkBIP0030, overwritesUnspent.
  intros (tx & idx & utxo & Hin & Hidx & Hentry & Hunspent).
  induction (Transactions block) as [|t txs IH]; [contradiction|].
  cbn [checkBIP0030Txs].
  destruct (checkBIP0030Outputs FetchEntry (TxHash t) _ view) as [e|] eqn:Ho.
  - f_equal. eapply checkBIP0030Outputs_codes; exact Ho.
  - destruct Hin as [-> | Hin]; [|exact (IH Hin)].
    rewrite (checkBIP0030Outputs_hit (TxHash tx) _ view idx utxo) in Ho;
      [discriminate | | exact Hentry | exact Hunspent].
    apply in_seq. lia.
Qed.

End SoundStore.

Lemma isBIP0030Node_spec (node : blockNode) :
  isBIP0030Node node = true <->
  (node_height node = 91842 /\ node_hash node = block91842Hash)
  \/ (node_height node = 91880 /\ node_hash node = block91880Hash).
Proof.
  unfold isBIP0030Node, Hash_IsEqual.
  destruct (Z.eqb_spec (node_height node) 91842);
    destruct (Z.eqb_spec (node_hash node) block91842Hash);
    destruct (Z.eqb_spec (node_height node) 91880);
    destruct (Z.eqb_spec (node_hash node) block91880Hash);
    cbn [andb]; split; try discriminate; try tauto;
    intros [[? ?] | [? ?]]; congruence.
Qed.

(** C9.  For a node that is not the genesis block, [checkConnectBlock]
    runs the BIP0030 overwrite check exactly when the height of the node is
    below [BIP0034Height] and the node is not one of the two grandfathered
    blocks (height 91842 or 91880 with the recorded hash); when it runs and
    an output position of the block is still unspent in the view or the
    store (and the store answers every lookup), the block is turned down
    with [ErrOverwriteTx]; the block at
    height 91842 with hash 00000000000a4d0a...e0caec is never checked. *)
Theorem checkConnectBlock_bip0030
    (b : BlockChain) (node : blockNode) (block : Block) (s : ConnectState) :
  Hash_IsEqual (node_hash node) (GenesisHash (chainParams b)) = false ->
  ~ In EvCheckBIP0030 (st_trace s) ->
  let run := connect b node block s in
  let exempt :=
    (node_height node = 91842
     /\ node_hash node
        = 0x00000000000a4d0a398161ffc163c503763b1f4360639393e0e4c8e300e0caec)
    \/ (node_height node = 91880
        /\ node_hash node
           = 0x00000000000743f190a18c5577a3c2d2a1f610ae9601ac046a38084ccb7cd721)
  in
  (In EvCheckBIP0030 (st_trace (snd run)) <->
   node_height node < BIP0034Height (chainParams b) /\ ~ exempt)
  /\ (node_height node < BIP0034Height (chainParams b) -> ~ exempt ->
      (forall outpoint e, FetchEntry outpoint <> Err e) ->
      overwritesUnspent FetchEntry (Transactions block) (st_view s) ->
      fst run = Return (Some (ruleError ErrOverwriteTx)))
  /\ (node_height node = 91842 ->
      node_hash node
      = 0x00000000000a4d0a398161ffc163c503763b1f4360639393e0e4c8e300e0caec ->
      ~ In EvCheckBIP0030 (st_trace (snd run))).
Proof.
  intros Hgen Hfresh run exempt.
  assert (Hex : isBIP0030Node node = true <-> exempt)
    by apply isBIP0030Node_spec.
  assert (Happ : bip0030Applies (chainParams b) node = true <->
                 node_height node < BIP0034Height (chainParams b)
                 /\ ~ exempt).
  { unfold bip0030Applies. rewrite andb_true_iff, negb_true_iff, Z.ltb_lt.
    rewrite <- Hex. destruct (isBIP0030Node node); intuition congruence. }
  destruct (checkConnectBlock_head b node block) as (rest & Heq & Hrest).
  assert (Hiff : In EvCheckBIP0030 (st_trace (snd run)) <->
                 node_height node < BIP0034Height (chainParams b)
                 /\ ~ exempt).
  { rewrite <- Happ. subst run. rewrite Heq, Hgen.
    destruct (bip0030Applies (chainParams b) node) eqn:Hc.
    - split; [reflexivity|]. intros _.
      apply (establishes_bind (fun tr => In EvCheckBIP0030 tr)).
      + apply (establishes_bind (fun tr => In EvCheckBIP0030 tr)).
        * intros s0. simpl. apply in_or_app. right. left. reflexivity.
        * intros _. repeat preserves_step.
      + intros _. apply (Hrest _ (fun _ => True)); [|trivial].
        intros tr ev Htr _. apply in_or_app. left. exact Htr.
    - split; [|discriminate]. intros Hin. exfalso.
      assert (Hno : preserves (fun tr => ~ In EvCheckBIP0030 tr)
                      (bind (ret tt) (fun _ => rest))).
      { apply preserves_bind; [apply preserves_ret|]. intros _.
        apply (Hrest _ (fun ev => ev <> EvCheckBIP0030)); [|trivial].
        intros tr ev Htr Hev Hin'. apply in_app_or in Hin' as [Hin' | Hin'].
        - exact (Htr Hin').
        - destruct Hin' as [Hin' | []]. exact (Hev Hin'). }
      exact (Hno s Hfresh Hin). }
  split; [exact Hiff|]. split.
  - intros Hlt Hnex Hstore Hover. subst run. rewrite Heq, Hgen.
    rewrite (proj2 Happ (conj Hlt Hnex)).
    unfold bind at 1. unfold bind at 1. unfold emit at 1.
    unfold bind at 1. unfold getView at 1. cbn [st_view].
    rewrite (checkBIP0030_overwrite Hstore block (st_view s) Hover).
    reflexivity.
  - intros Hh Hhash Hin. apply Hiff in Hin as [_ Hnex].
    apply Hnex. left. split; assumption.
Qed.

End ConnectClaims.

Lemma checkConnectBlock_bip0030_witness :
  fst (sampleRun sampleConnectTransactions (nodeAt 91843 12345)
         (blockAt 91843 [coinbasePaying 5000000000 5]) viewOverwritten)
  = Return (Some (ruleError ErrOverwriteTx)).
Proof.
  unfold sampleRun.
  apply (checkConnectBlock_bip0030 emptyStore loadedView
           sampleConnectTransaction sampleConnectTransactions csvActive
           noRelativeLock acceptingScripts sampleMedianTime
           sampleBip16Activation sampleChain (nodeAt 91843 12345)
           (blockAt 91843 [coinbasePaying 5000000000 5])
           (startState viewOverwritten)).
  - reflexivity.
  - simpl. tauto.
  - vm_compute. reflexivity.
  - intros [[H _] | [H _]]; vm_compute in H; discriminate H.
  - intros outpoint e. discriminate.
  - exists (coinbasePaying 5000000000 5), 0%nat,
      (mkUtxoEntry 5000000000 [] 91000 true false).
    split; [unfold blockAt; cbn; left; reflexivity|].
    split; [cbn; lia|].
    split; [cbv zeta; left; vm_compute; reflexivity | reflexivity].
Defined.



(** *** The error of the Outputs-Then-Inputs update *)

Lemma nilAfterOTI_ret {A} (a : A) : nilAfterOTI (ret a).
Proof. intros s H. exact H. Qed.

Lemma nilAfterOTI_leave {A} (r : option error) : nilAfterOTI (@leave A r).
Proof. intros s H Hin. contradiction. Qed.

Lemma nilAfterOTI_panic {A} : nilAfterOTI (@panic A).
Proof. intros s H. exact H. Qed.

Lemma nilAfterOTI_propagate (err : option error) : nilAfterOTI (propagate err).
Proof.
  destruct err; [apply nilAfterOTI_leave | apply (nilAfterOTI_ret tt)].
Qed.

Lemma nilAfterOTI_getView : nilAfterOTI getView.
Proof. intros s H. exact H. Qed.

Lemma nilAfterOTI_getStxos : nilAfterOTI getStxos.
Proof. intros s H. exact H. Qed.

Lemma nilAfterOTI_putView (v : UtxoViewpoint) : nilAfterOTI (putView v).
Proof. intros s H. exact H. Qed.

Lemma nilAfterOTI_putStxos (x : option (list SpentTxOut)) :
  nilAfterOTI (putStxos x).
Proof. intros s H. exact H. Qed.

Lemma nilAfterOTI_emit (ev : Event) :
  ev <> EvConnectTransactions -> nilAfterOTI (emit ev).
Proof.
  intros Hev s H. simpl. intros Hin. apply in_app_or in Hin as [Hin | Hin].
  - exact (H Hin).
  - destruct Hin as [Hin | []]. exact (Hev Hin).
Qed.

Lemma nilAfterOTI_bind {A B} (m : M A) (k : A -> M B) :
  nilAfterOTI m -> (forall a, nilAfterOTI (k a)) -> nilAfterOTI (bind m k).
Proof.
  intros Hm Hk s H. unfold bind. specialize (Hm s H).
  destruct (m s) as [[a | r |] s']; simpl in *.
  - apply Hk. exact Hm.
  - exact Hm.
  - exact Hm.
Qed.

Ltac nilAfterOTI_step :=
  lazymatch goal with
  | |- nilAfterOTI (ret _) => apply nilAfterOTI_ret
  | |- nilAfterOTI (leave _) => apply nilAfterOTI_leave
  | |- nilAfterOTI panic => apply nilAfterOTI_panic
  | |- nilAfterOTI (propagate _) => apply nilAfterOTI_propagate
  | |- nilAfterOTI getView => apply nilAfterOTI_getView
  | |- nilAfterOTI getStxos => apply nilAfterOTI_getStxos
  | |- nilAfterOTI (putView _) => apply nilAfterOTI_putView
  | |- nilAfterOTI (putStxos _) => apply nilAfterOTI_putStxos
  | |- nilAfterOTI (emit _) => apply nilAfterOTI_emit; discriminate
  | |- nilAfterOTI (bind _ _) => apply nilAfterOTI_bind; [ | intros ?]
  | |- nilAfterOTI (if ?c then _ else _) => destruct c eqn:?
  | |- nilAfterOTI (match ?x with _ => _ end) => destruct x eqn:?
  | |- nilAfterOTI (let x := ?v in @?f x) =>
      let y := fresh x in
      pose (y := v); change (nilAfterOTI (f y)); cbv beta; clearbody y
  end.

Section ConnectError.

Variable FetchEntry : OutPoint -> result (option UtxoEntry).
Variable addInputUtxos :
  UtxoViewpoint -> Block -> bool -> UtxoViewpoint * option error.
Variable connectTransaction :
  UtxoViewpoint -> Tx -> Z -> option (list SpentTxOut) -> bool ->
  UtxoViewpoint * option (list SpentTxOut) * option error.
Variable connectTransactions :
  UtxoViewpoint -> Block -> option (list SpentTxOut) -> bool ->
  UtxoViewpoint * option (list SpentTxOut) * option error.
Variable deploymentState : option blockNode -> result ThresholdState.
Variable calcSequenceLock :
  blockNode -> Tx -> UtxoViewpoint -> bool -> result SequenceLock.
Variable checkBlockScripts :
  Block -> UtxoViewpoint -> ScriptFlags -> Z -> Z -> option error.
Variable CalcPastMedianTime : option blockNode -> Time.
Variable Bip16Activation : Time.

Local Abbreviation connect :=
  (checkConnectBlock FetchEntry addInputUtxos connectTransaction
     connectTransactions deploymentState calcSequenceLock checkBlockScripts
     CalcPastMedianTime Bip16Activation).

(** The Outputs-Then-Inputs update reports an error whenever it is asked. *)
Hypothesis update_fails :
  forall view block stxos overwrite,
    snd (connectTransactions view block stxos overwrite) <> None.

Lemma connectInputsLoop_nilAfterOTI (b : BlockChain) (node : blockNode)
    (magneticAnomalyActive : bool) (txs : list Tx) (totalFees : Z) :
  nilAfterOTI (connectInputsLoop connectTransaction b node
                 magneticAnomalyActive txs totalFees).
Proof.
  revert totalFees.
  induction txs as [|tx txs IH]; intros totalFees; cbn [connectInputsLoop].
  - apply nilAfterOTI_ret.
  - unfold call_connectTransaction. repeat nilAfterOTI_step. apply IH.
Qed.

Lemma sequenceLocksLoop_nilAfterOTI (node : blockNode) (medianTime : Time)
    (txs : list Tx) :
  nilAfterOTI (sequenceLocksLoop calcSequenceLock node medianTime txs).
Proof.
  induction txs as [|tx txs IH]; cbn [sequenceLocksLoop].
  - apply nilAfterOTI_ret.
  - repeat nilAfterOTI_step. apply IH.
Qed.

(** The statement [err := connectTransactions(...); if err != nil
    { return nil }]. *)
Lemma connectTransactions_step_nilAfterOTI (block : Block) :
  nilAfterOTI
    (bind (call_connectTransactions connectTransactions block)
       (fun err => match err with
                   | Some _ => leave None
                   | None => ret tt
                   end)).
Proof.
  intros s _. unfold call_connectTransactions, bind, emit, getView, getStxos,
    putView, putStxos, ret, leave. cbn [st_view st_stxos st_trace].
  pose proof (update_fails (st_view s) block (st_stxos s) false) as Hfail.
  destruct (connectTransactions (st_view s) block (st_stxos s) false)
    as [[view' stxos'] [e|]]; cbn [fst snd] in *.
  - intros _. reflexivity.
  - contradiction.
Qed.

Lemma checkConnectBlock_nilAfterOTI (b : BlockChain) (node : blockNode)
    (block : Block) :
  nilAfterOTI (connect b node block).
Proof.
  unfold checkConnectBlock, call_addInputUtxos.
  repeat lazymatch goal with
         | |- nilAfterOTI (connectInputsLoop _ _ _ _ _ _) =>
             apply connectInputsLoop_nilAfterOTI
         | |- nilAfterOTI (sequenceLocksLoop _ _ _ _) =>
             apply sequenceLocksLoop_nilAfterOTI
         | |- nilAfterOTI (bind (call_connectTransactions _ _) _) =>
             apply connectTransactions_step_nilAfterOTI
         | |- _ => nilAfterOTI_step
         end.
Qed.

(** C1: the code swallows the error.  Where the Outputs-Then-Inputs update
    [connectTransactions] reports an error, every run of [checkConnectBlock]
    that reaches the update (it does so only with MagneticAnomaly active)
    returns nil, not the error. *)
Theorem checkConnectBlock_swallows_connect_error
    (b : BlockChain) (node : blockNode) (block : Block) (s : ConnectState) :
  ~ In EvConnectTransactions (st_trace s) ->
  In EvConnectTransactions (st_trace (snd (connect b node block s))) ->
  fst (connect b node block s) = Return None.
Proof.
  intros Hfresh Hin.
  pose proof (checkConnectBlock_nilAfterOTI b node block s Hfresh) as H.
  destruct (fst (connect b node block s)) as [a | r |].
  - contradiction.
  - f_equal. exact (H Hin).
  - contradiction.
Qed.

End ConnectError.

Lemma checkConnectBlock_swallows_connect_error_witness :
  let node := nodeAt 600000 1234 in
  let block := blockAt 600000 [coinbasePaying 5000000000 5; spendCoinbase] in
  (MagneticAnonomalyForkHeight mainNetLike <? node_height node) = true
  /\ fst (sampleRun failingConnectTransactions node block viewWithCoinbase)
     = Return None
  /\ fst (sampleRun sampleConnectTransactions node block viewWithCoinbase)
     = Return (Some (ruleError ErrBadCoinbaseValue)).
Proof.
  cbv zeta. split; [reflexivity|]. split; [|vm_compute; reflexivity].
  unfold sampleRun.
  apply (checkConnectBlock_swallows_connect_error emptyStore loadedView
           sampleConnectTransaction failingConnectTransactions csvActive
           noRelativeLock acceptingScripts sampleMedianTime
           sampleBip16Activation).
  - intros view block stxos overwrite. discriminate.
  - simpl. tauto.
  - vm_compute. right. left. reflexivity.
Defined.

(** * Further properties of the code *)

(** ** [CheckTransactionSanity] *)

Lemma MaxSatoshi_value : MaxSatoshi = 2100000000000000.
Proof. reflexivity. Qed.

Lemma checkOutputValues_from (outs : list TxOut) (total : Z) :
  0 <= total <= MaxSatoshi ->
  (checkOutputValues outs total = None <->
   Forall (fun txOut => 0 <= Value txOut <= MaxSatoshi) outs
   /\ total + valueSum outs <= MaxSatoshi).
Proof.
  revert total. induction outs as [|o outs IH]; intros total Ht.
  - simpl. split; [intros _; split; [constructor | lia] | reflexivity].
  - cbn [checkOutputValues valueSum fold_right].
    fold (valueSum outs).
    assert (Hnn : 0 <= valueSum outs -> True) by trivial.
    destruct (Z.ltb_spec (Value o) 0) as [Hneg | Hpos].
    { split; [discriminate|]. intros [Hall _]. inversion Hall; subst. lia. }
    destruct (Z.ltb_spec MaxSatoshi (Value o)) as [Hbig | Hle].
    { split; [discriminate|]. intros [Hall _]. inversion Hall; subst. lia. }
    assert (Hadd : add64 total (Value o) = total + Value o).
    { apply int64_id. unfold is_int64. rewrite MaxSatoshi_value in *.
      assert (2 ^ 63 = 9223372036854775808) by reflexivity. lia. }
    rewrite Hadd.
    destruct (Z.ltb_spec (total + Value o) 0) as [Hn | _]; [lia|].
    destruct (Z.ltb_spec MaxSatoshi (total + Value o)) as [Hover | Hfit].
    { split; [discriminate|]. intros [Hall Hsum]. exfalso.
      inversion Hall as [|? ? _ Hrest]; subst.
      assert (0 <= valueSum outs).
      { clear - Hrest. induction Hrest as [|x l Hx _ IHl]; simpl; lia. }
      lia. }
    rewrite IH by lia. split.
    + intros [Hall Hsum]. split; [constructor; [lia | exact Hall] | lia].
    + intros [Hall Hsum]. inversion Hall; subst. split; [assumption | lia].
Qed.

Lemma sumOutputs_from (outs : list TxOut) (total : Z) :
  Forall (fun txOut => 0 <= Value txOut <= MaxSatoshi) outs ->
  0 <= total -> total + valueSum outs <= MaxSatoshi ->
  fold_left (fun t txOut => add64 t (Value txOut)) outs total
  = total + valueSum outs.
Proof.
  revert total. induction outs as [|o outs IH]; intros total Hall Ht Hs.
  - simpl. lia.
  - inversion Hall as [|? ? Ho Hrest]; subst.
    cbn [fold_left valueSum fold_right] in *. fold (valueSum outs) in *.
    assert (0 <= valueSum outs).
    { clear - Hrest. induction Hrest as [|x l Hx _ IHl]; simpl; lia. }
    assert (Hadd : add64 total (Value o) = total + Value o).
    { apply int64_id. unfold is_int64. rewrite MaxSatoshi_value in *.
      assert (2 ^ 63 = 9223372036854775808) by reflexivity. lia. }
    rewrite Hadd, IH; [lia | assumption | lia | lia].
Qed.

(** X1.  The output loop of [CheckTransactionSanity] passes exactly when
    every output value lies in [0, MaxSatoshi] and the exact sum of the
    values is at most [MaxSatoshi]; the int64 additions then never wrap, so
    that the wrapping sum the later checks compute ([sumOutputs]) is the
    exact sum. *)
Theorem checkOutputValues_exact (outs : list TxOut) :
  (checkOutputValues outs 0 = None <->
   Forall (fun txOut => 0 <= Value txOut <= MaxSatoshi) outs
   /\ valueSum outs <= MaxSatoshi)
  /\ (checkOutputValues outs 0 = None ->
      sumOutputs outs = valueSum outs
      /\ 0 <= sumOutputs outs <= MaxSatoshi).
Proof.
  assert (Hiff := checkOutputValues_from outs 0
                    ltac:(rewrite MaxSatoshi_value; lia)).
  rewrite Z.add_0_l in Hiff. split; [exact Hiff|].
  intros Hnone. apply Hiff in Hnone as [Hall Hsum].
  unfold sumOutputs. rewrite sumOutputs_from by (try assumption; lia).
  rewrite Z.add_0_l. split; [reflexivity|]. split; [|exact Hsum].
  clear - Hall. induction Hall as [|x l Hx _ IHl]; simpl; lia.
Qed.

Lemma checkDuplicateInputs_from (ins : list TxIn) (seen : gset OutPoint) :
  checkDuplicateInputs ins seen = None <->
  NoDup (map PreviousOutPoint ins)
  /\ forall txIn, In txIn ins -> PreviousOutPoint txIn ∉ seen.
Proof.
  revert seen. induction ins as [|i ins IH]; intros seen.
  - simpl. split; [intros _; split; [constructor | intros ? []] | reflexivity].
  - cbn [checkDuplicateInputs map].
    destruct (bool_decide (PreviousOutPoint i ∈ seen)) eqn:Hd.
    + apply bool_decide_eq_true in Hd. split; [discriminate|].
      intros [_ Hfresh]. exfalso. exact (Hfresh i (or_introl eq_refl) Hd).
    + apply bool_decide_eq_false in Hd. rewrite IH. split.
      * intros [Hnd Hfresh]. split.
        -- apply NoDup_cons. split; [|exact Hnd].
           intros Hin. apply list_elem_of_In, in_map_iff in Hin
             as (j & Hj & Hjin).
           apply (Hfresh j Hjin). rewrite Hj.
           apply elem_of_union. left. apply elem_of_singleton. reflexivity.
        -- intros j [<- | Hj]; [exact Hd|].
           intros Hin. apply (Hfresh j Hj).
           apply elem_of_union. right. exact Hin.
      * intros [Hnd Hfresh]. apply NoDup_cons in Hnd as [Hni Hnd].
        split; [exact Hnd|]. intros j Hj Hin.
        apply elem_of_union in Hin as [Hin | Hin].
        -- apply elem_of_singleton in Hin. apply Hni. rewrite <- Hin.
           apply list_elem_of_In, in_map. exact Hj.
        -- exact (Hfresh j (or_intror Hj) Hin).
Qed.

Lemma checkDuplicateInputs_empty_iff (ins : list TxIn) :
  checkDuplicateInputs ins ∅ = None <-> NoDup (map PreviousOutPoint ins).
Proof.
  rewrite checkDuplicateInputs_from. split.
  - intros [H _]. exact H.
  - intros H. split; [exact H|]. intros txIn _. apply not_elem_of_empty.
Qed.

(** X2.  The input loop of [CheckTransactionSanity] passes exactly when the
    outpoints the inputs spend are pairwise distinct, and answers
    [ErrDuplicateTxInputs] otherwise. *)
Theorem checkDuplicateInputs_NoDup (ins : list TxIn) :
  (checkDuplicateInputs ins ∅ = None <-> NoDup (map PreviousOutPoint ins))
  /\ (checkDuplicateInputs ins ∅ = Some (ruleError ErrDuplicateTxInputs) <->
      ~ NoDup (map PreviousOutPoint ins)).
Proof.
  pose proof (checkDuplicateInputs_empty_iff ins) as Hiff.
  split; [exact Hiff|].
  destruct (checkDuplicateInputs ins ∅) as [e|] eqn:He.
  - rewrite (checkDuplicateInputs_err ins ∅ e He). split.
    + intros _ Hnd. apply Hiff in Hnd. discriminate Hnd.
    + reflexivity.
  - split; [discriminate|]. intros Hn. exfalso. apply Hn, Hiff. reflexivity.
Qed.

(** [IsCoinBaseTx] is [isNullOutpoint] on the only input. *)
Lemma IsCoinBaseTx_spec (msgTx : MsgTx) :
  IsCoinBaseTx msgTx = true <->
  exists txIn0, TxIns msgTx = [txIn0]
                /\ isNullOutpoint (PreviousOutPoint txIn0) = true.
Proof.
  unfold IsCoinBaseTx.
  destruct (TxIns msgTx) as [|i [|j rest]].
  - split; [discriminate|]. intros (x & Hx & _). discriminate Hx.
  - cbv zeta.
    assert (H : (if negb (op_Index (PreviousOutPoint i) =? MaxUint32)
                    || negb (Hash_IsEqual (op_Hash (PreviousOutPoint i))
                               zeroHash)
                 then false else true)
                = isNullOutpoint (PreviousOutPoint i)).
    { unfold isNullOutpoint.
      destruct (op_Index (PreviousOutPoint i) =? MaxUint32);
        destruct (Hash_IsEqual (op_Hash (PreviousOutPoint i)) zeroHash);
        reflexivity. }
    rewrite H. split.
    + intros Hn. exists i. split; [reflexivity | exact Hn].
    + intros (x & Hx & Hn). injection Hx as <-. exact Hn.
  - split; [discriminate|]. intros (x & Hx & _). discriminate Hx.
Qed.

Lemma existsb_false_Forall {A} (f : A -> bool) (l : list A) :
  existsb f l = false <-> Forall (fun x => f x = false) l.
Proof.
  induction l as [|x l IH]; simpl.
  - split; [constructor | reflexivity].
  - rewrite orb_false_iff, IH. split.
    + intros [Hx Hl]. constructor; assumption.
    + intros H. inversion H; subst. split; assumption.
Qed.

(** X3.  [CheckTransactionSanity] accepts a transaction exactly when it has
    an input and an output, its serialized size is at most
    [MaxTransactionSize] and, under MagneticAnomaly or Upgrade9, at least the
    floor (65 with Upgrade9, else 100), its output values and their exact sum
    lie in [0, MaxSatoshi], its inputs spend pairwise distinct outpoints, and
    it is either a coinbase with a signature script of 2 to 100 bytes or
    spends no null outpoint. *)
Theorem CheckTransactionSanity_accepts_iff
    (SerializeSize : MsgTx -> Z) (tx : Tx)
    (magneticAnomalyActive upgrade9Active : bool) (scriptFlags : ScriptFlags) :
  let msgTx := MsgTx_of tx in
  CheckTransactionSanity SerializeSize tx magneticAnomalyActive
    upgrade9Active scriptFlags = None <->
  TxIns msgTx <> [] /\ TxOuts msgTx <> []
  /\ SerializeSize msgTx <= 1000000
  /\ (magneticAnomalyActive || upgrade9Active = true ->
      (if upgrade9Active then 65 else 100) <= SerializeSize msgTx)
  /\ Forall (fun txOut => 0 <= Value txOut <= MaxSatoshi) (TxOuts msgTx)
  /\ valueSum (TxOuts msgTx) <= MaxSatoshi
  /\ NoDup (map PreviousOutPoint (TxIns msgTx))
  /\ ((exists txIn0,
         TxIns msgTx = [txIn0]
         /\ isNullOutpoint (PreviousOutPoint txIn0) = true
         /\ 2 <= Z.of_nat (length (SignatureScript txIn0)) <= 100)
      \/ (IsCoinBase tx = false
          /\ Forall (fun txIn => isNullOutpoint (PreviousOutPoint txIn) = false)
               (TxIns msgTx))).
Proof.
  intros msgTx. unfold CheckTransactionSanity. fold msgTx.
  destruct (Z.eqb_spec (Z.of_nat (length (TxIns msgTx))) 0) as [Hi | Hi].
  { split; [discriminate|]. intros [H _]. exfalso. apply H.
    apply length_zero_iff_nil. lia. }
  destruct (Z.eqb_spec (Z.of_nat (length (TxOuts msgTx))) 0) as [Ho | Ho].
  { split; [discriminate|]. intros (_ & H & _). exfalso. apply H.
    apply length_zero_iff_nil. lia. }
  assert (Hins : TxIns msgTx <> []) by (intros E; rewrite E in Hi; simpl in Hi; lia).
  assert (Houts : TxOuts msgTx <> []) by (intros E; rewrite E in Ho; simpl in Ho; lia).
  unfold MaxTransactionSize, oneMegabyte, MinTransactionSize,
    MagneticAnomalyMinTransactionSize, MinCoinbaseScriptLen,
    MaxCoinbaseScriptLen.
  destruct (Z.ltb_spec 1000000 (SerializeSize msgTx)) as [Hbig | Hfit].
  { split; [discriminate|]. intros (_ & _ & H & _). lia. }
  set (tooSmall := if magneticAnomalyActive || upgrade9Active
                   then SerializeSize msgTx
                        <? (if upgrade9Active then 65 else 100)
                   else false).
  assert (Hsmall : tooSmall = false <->
                   (magneticAnomalyActive || upgrade9Active = true ->
                    (if upgrade9Active then 65 else 100) <= SerializeSize msgTx)).
  { subst tooSmall. destruct (magneticAnomalyActive || upgrade9Active).
    - rewrite Z.ltb_ge. tauto.
    - split; [discriminate | reflexivity]. }
  destruct tooSmall.
  { split; [discriminate|]. intros (_ & _ & _ & H & _).
    apply Hsmall in H. discriminate H. }
  pose proof (checkOutputValues_from (TxOuts msgTx) 0
                ltac:(rewrite MaxSatoshi_value; lia)) as Hov.
  rewrite Z.add_0_l in Hov.
  destruct (checkOutputValues (TxOuts msgTx) 0) as [e|].
  { split; [discriminate|]. intros (_ & _ & _ & _ & Hall & Hsum & _).
    exfalso. assert (Some e = None) by (apply Hov; tauto). discriminate. }
  pose proof (checkDuplicateInputs_empty_iff (TxIns msgTx)) as Hdup.
  destruct (checkDuplicateInputs (TxIns msgTx) ∅) as [e|].
  { split; [discriminate|]. intros (_ & _ & _ & _ & _ & _ & Hnd & _).
    exfalso. assert (Some e = None) by (apply Hdup; exact Hnd). discriminate. }
  assert (Hbase : TxIns msgTx <> [] /\ TxOuts msgTx <> []
                  /\ SerializeSize msgTx <= 1000000
                  /\ (magneticAnomalyActive || upgrade9Active = true ->
                      (if upgrade9Active then 65 else 100) <= SerializeSize msgTx)
                  /\ Forall (fun txOut => 0 <= Value txOut <= MaxSatoshi)
                       (TxOuts msgTx)
                  /\ valueSum (TxOuts msgTx) <= MaxSatoshi
                  /\ NoDup (map PreviousOutPoint (TxIns msgTx))).
  { pose proof (proj1 Hov eq_refl) as [? ?].
    repeat split; try assumption; try (apply Hsmall; reflexivity).
    apply Hdup. reflexivity. }
  pose proof (IsCoinBaseTx_spec msgTx) as Hcb.
  unfold IsCoinBase. fold msgTx.
  destruct (IsCoinBaseTx msgTx) eqn:Ecb.
  - destruct (proj1 Hcb eq_refl) as (i0 & Hi0 & Hnull).
    rewrite Hi0.
    destruct (Z.ltb_spec (Z.of_nat (length (SignatureScript i0))) 2) as [Hs | Hs];
      [|destruct (Z.ltb_spec 100 (Z.of_nat (length (SignatureScript i0))))
          as [Hl | Hl]]; cbn [orb].
    + split; [discriminate|]. intros (_ & _ & _ & _ & _ & _ & _ & Hor).
      destruct Hor as [(j & Hj & _ & Hlen) | [Hf _]]; [|discriminate Hf].
      injection Hj as <-. lia.
    + split; [discriminate|]. intros (_ & _ & _ & _ & _ & _ & _ & Hor).
      destruct Hor as [(j & Hj & _ & Hlen) | [Hf _]]; [|discriminate Hf].
      injection Hj as <-. lia.
    + split; [|reflexivity]. intros _. rewrite Hi0 in Hbase.
      destruct Hbase as (H1 & H2 & H3 & H4 & H5 & H6 & H7).
      repeat split; try assumption.
      left. exists i0. repeat split; try assumption; lia.
  - pose proof (existsb_false_Forall
                  (fun txIn => isNullOutpoint (PreviousOutPoint txIn))
                  (TxIns msgTx)) as Hex.
    destruct (existsb _ (TxIns msgTx)) eqn:Ee.
    + split; [discriminate|]. intros (_ & _ & _ & _ & _ & _ & _ & Hor).
      destruct Hor as [(j & Hj & Hn & _) | [_ Hall]].
      * exfalso. assert (false = true)
          by (apply Hcb; exists j; split; assumption). discriminate.
      * apply Hex in Hall. discriminate Hall.
    + split; [|reflexivity]. intros _.
      destruct Hbase as (H1 & H2 & H3 & H4 & H5 & H6 & H7).
      repeat split; try assumption. right. split; [reflexivity|].
      apply Hex. reflexivity.
Qed.

(** ** [checkBlockSanity] *)

Lemma CheckTransactionSanity_codes (SerializeSize : MsgTx -> Z) (tx : Tx)
    (ma u9 : bool) (scriptFlags : ScriptFlags) (e : error) :
  CheckTransactionSanity SerializeSize tx ma u9 scriptFlags = Some e ->
  In e (map ruleError
          [ErrNoTxInputs; ErrNoTxOutputs; ErrTxTooBig; ErrTxTooSmall;
           ErrBadTxOutValue; ErrDuplicateTxInputs; ErrBadCoinbaseScriptLen;
           ErrBadTxInput]).
Proof.
  unfold CheckTransactionSanity.
  destruct (_ =? 0); [intros H; injection H as <-; simpl; tauto|].
  destruct (_ =? 0); [intros H; injection H as <-; simpl; tauto|].
  destruct (_ <? _); [intros H; injection H as <-; simpl; tauto|].
  match goal with
  | |- (if ?c then _ else _) = _ -> _ => destruct c
  end; [intros H; injection H as <-; simpl; tauto|].
  intros H. apply CheckTransactionSanity_tail_codes in H.
  destruct H as [-> | [-> | [-> | ->]]]; simpl; tauto.
Qed.

Lemma checkBlockHeaderSanity_codes (CompactToBig : Z -> Z)
    (BlockHash : BlockHeader -> Hash) (AdjustedTime : Time)
    (header : BlockHeader) (powLimit : Z) (flags : BehaviorFlags) (e : error) :
  checkBlockHeaderSanity CompactToBig BlockHash AdjustedTime header powLimit
    flags = Some e ->
  In e (map ruleError
          [ErrUnexpectedDifficulty; ErrHighHash; ErrInvalidTime; ErrTimeTooNew]).
Proof.
  unfold checkBlockHeaderSanity, checkProofOfWork.
  repeat match goal with
         | |- context [if ?c then _ else _] => destruct c
         end;
    intros H; try discriminate H; injection H as <-; simpl; tauto.
Qed.

Lemma checkDuplicateTxs_from (txs : list Tx) (seen : gset Z) :
  checkDuplicateTxs txs seen = None <->
  NoDup (map TxHash txs) /\ forall tx, In tx txs -> TxHash tx ∉ seen.
Proof.
  revert seen. induction txs as [|t txs IH]; intros seen.
  - simpl. split; [intros _; split; [constructor | intros ? []] | reflexivity].
  - cbn [checkDuplicateTxs map]. case_bool_decide as Hd.
    + split; [discriminate|].
      intros [_ Hfresh]. exfalso. exact (Hfresh t (or_introl eq_refl) Hd).
    + rewrite IH. split.
      * intros [Hnd Hfresh]. split.
        -- apply NoDup_cons. split; [|exact Hnd].
           intros Hin. apply list_elem_of_In, in_map_iff in Hin
             as (j & Hj & Hjin).
           apply (Hfresh j Hjin). rewrite Hj.
           apply elem_of_union. left. apply elem_of_singleton. reflexivity.
        -- intros j [<- | Hj]; [exact Hd|].
           intros Hin. apply (Hfresh j Hj).
           apply elem_of_union. right. exact Hin.
      * intros [Hnd Hfresh]. apply NoDup_cons in Hnd as [Hni Hnd].
        split; [exact Hnd|]. intros j Hj Hin.
        apply elem_of_union in Hin as [Hin | Hin].
        -- apply elem_of_singleton in Hin. apply Hni. rewrite <- Hin.
           apply list_elem_of_In, in_map. exact Hj.
        -- exact (Hfresh j (or_intror Hj) Hin).
Qed.

Lemma checkDuplicateTxs_empty_iff (txs : list Tx) :
  checkDuplicateTxs txs ∅ = None <-> NoDup (map TxHash txs).
Proof.
  rewrite checkDuplicateTxs_from. split.
  - intros [H _]. exact H.
  - intros H. split; [exact H|]. intros tx _. apply not_elem_of_empty.
Qed.

Lemma checkDuplicateTxs_err (txs : list Tx) (seen : gset Z) (e : error) :
  checkDuplicateTxs txs seen = Some e -> e = ruleError ErrDuplicateTx.
Proof.
  revert seen. induction txs as [|t txs IH]; intros seen; simpl.
  - discriminate.
  - case_bool_decide.
    + intros He; injection He as <-; reflexivity.
    + apply IH.
Qed.

Section BlockSanityMore.

Variable SerializeSize : MsgTx -> Z.
Variable CompactToBig : Z -> Z.
Variable BlockHash : BlockHeader -> Hash.
Variable calcMerkleRoot : list Tx -> Hash.
Variable AdjustedTime : Time.

Local Abbreviation sane flags tx :=
  (CheckTransactionSanity SerializeSize tx (BFMagneticAnomaly flags)
     (BFUpgrade9 flags) (sanityScriptFlags (BFMagneticAnomaly flags))).

Local Abbreviation headerSanity header powLimit flags :=
  (checkBlockHeaderSanity CompactToBig BlockHash AdjustedTime header powLimit
     flags).

Local Abbreviation blockSanity block powLimit flags :=
  (checkBlockSanity SerializeSize CompactToBig BlockHash calcMerkleRoot
     AdjustedTime block powLimit flags).

(** The transaction loop from the third transaction on. *)
Lemma checkTransactionsLoop_ordered (ma u9 : bool) (sf : ScriptFlags)
    (i : Z) (lastTxid : Hash) (txs : list Tx) :
  1 < i ->
  (checkTransactionsLoop SerializeSize ma u9 sf i lastTxid txs = None <->
   Forall (fun tx => CheckTransactionSanity SerializeSize tx ma u9 sf = None)
     txs
   /\ (ma = true -> Sorted Z.lt (lastTxid :: map TxHash txs))).
Proof.
  revert i lastTxid. induction txs as [|t txs IH]; intros i lastTxid Hi.
  - simpl. split; [|reflexivity]. intros _. split; [constructor|].
    intros _. repeat constructor.
  - cbn [checkTransactionsLoop map].
    destruct (Z.ltb_spec 1 i) as [_ | ?]; [|lia].
    rewrite andb_true_r.
    destruct (Z.leb_spec 0 (Hash_Compare lastTxid (TxHash t))) as [Hc | Hc].
    + apply (proj1 (Hash_Compare_ge _ _)) in Hc.
      destruct ma; cbn [andb].
      * split; [discriminate|]. intros [_ Hs]. specialize (Hs eq_refl).
        apply Sorted_inv in Hs as [_ Hhd]. apply HdRel_inv in Hhd.
        unfold Hash in *. lia.
      * destruct (CheckTransactionSanity SerializeSize t false u9 sf) eqn:Es.
        -- split; [discriminate|]. intros [Hall _].
           inversion Hall; subst. congruence.
        -- rewrite (IH (i + 1) (TxHash t)) by lia. split.
           ++ intros [Hall _]. split; [constructor; assumption | discriminate].
           ++ intros [Hall _]. inversion Hall; subst.
              split; [assumption | discriminate].
    + assert (Hlt : lastTxid < TxHash t).
      { destruct (Z_lt_le_dec lastTxid (TxHash t)) as [|Hle]; [assumption|].
        apply (proj2 (Hash_Compare_ge _ _)) in Hle. lia. }
      rewrite andb_false_r.
      destruct (CheckTransactionSanity SerializeSize t ma u9 sf) eqn:Es.
      * split; [discriminate|]. intros [Hall _].
        inversion Hall; subst. congruence.
      * rewrite (IH (i + 1) (TxHash t)) by lia. split.
        -- intros [Hall Hs]. split; [constructor; assumption|].
           intros Hma. constructor; [exact (Hs Hma)|].
           constructor. exact Hlt.
        -- intros [Hall Hs]. inversion Hall; subst. split; [assumption|].
           intros Hma. apply Sorted_inv in Hs as [Hs _]; [exact Hs | exact Hma].
Qed.

(** The whole loop, which starts at the coinbase. *)
Lemma checkTransactionsLoop_block (ma u9 : bool) (sf : ScriptFlags)
    (cb : Tx) (others : list Tx) :
  checkTransactionsLoop SerializeSize ma u9 sf 0 zeroHash (cb :: others) = None
  <->
  Forall (fun tx => CheckTransactionSanity SerializeSize tx ma u9 sf = None)
    (cb :: others)
  /\ (ma = true -> Sorted Z.lt (map TxHash others)).
Proof.
  cbn [checkTransactionsLoop].
  change (1 <? 0) with false. rewrite andb_false_r. cbn [andb].
  destruct (CheckTransactionSanity SerializeSize cb ma u9 sf) eqn:Ecb.
  { split; [discriminate|]. intros [Hall _]. inversion Hall; subst. congruence. }
  destruct others as [|t others].
  - simpl. split; [|reflexivity]. intros _.
    split; [repeat constructor; assumption | intros _; constructor].
  - cbn [checkTransactionsLoop map].
    change (1 <? 0 + 1) with false. rewrite andb_false_r. cbn [andb].
    destruct (CheckTransactionSanity SerializeSize t ma u9 sf) eqn:Et.
    { split; [discriminate|]. intros [Hall _].
      inversion Hall as [|? ? _ Hrest]; subst.
      inversion Hrest; subst. congruence. }
    rewrite (checkTransactionsLoop_ordered ma u9 sf (0 + 1 + 1) (TxHash t))
      by lia.
    split.
    + intros [Hall Hs]. split; [repeat constructor; assumption | exact Hs].
    + intros [Hall Hs]. inversion Hall as [|? ? _ Hrest]; subst.
      inversion Hrest; subst. split; assumption.
Qed.

Lemma checkTransactionsLoop_codes (ma u9 : bool) (sf : ScriptFlags)
    (i : Z) (lastTxid : Hash) (txs : list Tx) (e : error) :
  checkTransactionsLoop SerializeSize ma u9 sf i lastTxid txs = Some e ->
  e <> ruleError ErrDuplicateTx.
Proof.
  revert i lastTxid. induction txs as [|t txs IH]; intros i lastTxid;
    cbn [checkTransactionsLoop]; [discriminate|].
  destruct (_ && _ && _).
  - intros H; injection H as <-. discriminate.
  - destruct (CheckTransactionSanity SerializeSize t ma u9 sf) eqn:Es.
    + intros H; injection H as <-.
      apply CheckTransactionSanity_codes in Es. simpl in Es.
      intros ->.
      repeat (destruct Es as [Es | Es]; [discriminate Es|]). contradiction.
    + apply IH.
Qed.

(** X4.  [checkBlockSanity] accepts a block exactly when its header is sane,
    its first transaction is a coinbase and no other is, every transaction
    passes [CheckTransactionSanity] under the flags of the block, with
    MagneticAnomaly the txids after the coinbase are strictly ascending, the
    merkle root of the header is the computed one, and the txids are
    pairwise distinct. *)
Theorem checkBlockSanity_accepts_iff
    (block : Block) (powLimit : Z) (flags : BehaviorFlags) :
  blockSanity block powLimit flags = None <->
  headerSanity (Header block) powLimit flags = None
  /\ (exists cb others,
        Transactions block = cb :: others
        /\ IsCoinBase cb = true
        /\ Forall (fun tx => IsCoinBase tx = false) others
        /\ (BFMagneticAnomaly flags = true -> Sorted Z.lt (map TxHash others)))
  /\ Forall (fun tx => sane flags tx = None) (Transactions block)
  /\ MerkleRoot (Header block) = calcMerkleRoot (Transactions block)
  /\ NoDup (map TxHash (Transactions block)).
Proof.
  unfold checkBlockSanity.
  destruct (headerSanity (Header block) powLimit flags) as [e|].
  { split; [discriminate|]. intros [H _]. discriminate H. }
  destruct (Transactions block) as [|cb others] eqn:Etxs.
  { split; [discriminate|]. intros (_ & (c & o & H & _) & _). discriminate H. }
  destruct (IsCoinBase cb) eqn:Ecb; cbn [negb].
  2:{ split; [discriminate|].
      intros (_ & (c & o & H & Hc & _) & _). injection H as <- <-. congruence. }
  pose proof (existsb_false_Forall IsCoinBase others) as Hex.
  destruct (existsb IsCoinBase others) eqn:Ee.
  { split; [discriminate|].
    intros (_ & (c & o & H & _ & Hall & _) & _). injection H as <- <-.
    apply Hex in Hall. discriminate Hall. }
  rewrite <- Etxs at 1.
  pose proof (checkTransactionsLoop_block (BFMagneticAnomaly flags)
                (BFUpgrade9 flags)
                (sanityScriptFlags (BFMagneticAnomaly flags)) cb others)
    as Hloop.
  rewrite Etxs at 1.
  destruct (checkTransactionsLoop SerializeSize _ _ _ 0 zeroHash (cb :: others))
    as [e|] eqn:El.
  { split; [discriminate|].
    intros (_ & (c & o & H & _ & _ & Hs) & Hall & _). injection H as <- <-.
    assert (Some e = None) by (apply Hloop; split; assumption). discriminate. }
  pose proof (proj1 Hloop eq_refl) as [Hall Hsorted].
  unfold Hash_IsEqual.
  destruct (Z.eqb_spec (MerkleRoot (Header block)) (calcMerkleRoot (cb :: others)))
    as [Hroot | Hroot]; cbn [negb].
  2:{ split; [discriminate|]. intros (_ & _ & _ & H & _). contradiction. }
  rewrite checkDuplicateTxs_empty_iff. split.
  - intros Hnd. split; [reflexivity|]. split.
    + exists cb, others. repeat split; try assumption. apply Hex. reflexivity.
    + repeat split; assumption.
  - intros (_ & _ & _ & _ & Hnd). exact Hnd.
Qed.

(** X5.  With MagneticAnomaly active [checkBlockSanity] answers
    [ErrDuplicateTx] only for a block in which a transaction has the txid of
    the coinbase: two transactions after the coinbase with one txid are
    turned down by the ordering rule before. *)
Theorem checkBlockSanity_duplicate_is_coinbase
    (block : Block) (powLimit : Z) (flags : BehaviorFlags) :
  BFMagneticAnomaly flags = true ->
  blockSanity block powLimit flags = Some (ruleError ErrDuplicateTx) ->
  exists cb others tx,
    Transactions block = cb :: others
    /\ In tx others /\ TxHash tx = TxHash cb
    /\ NoDup (map TxHash others).
Proof.
  intros Hma. unfold checkBlockSanity.
  destruct (headerSanity (Header block) powLimit flags) as [e|] eqn:Eh.
  { intros H; injection H as ->.
    apply checkBlockHeaderSanity_codes in Eh. simpl in Eh.
    repeat (destruct Eh as [Eh | Eh]; [discriminate Eh|]). contradiction. }
  destruct (Transactions block) as [|cb others] eqn:Etxs; [discriminate|].
  destruct (negb (IsCoinBase cb)); [discriminate|].
  destruct (existsb IsCoinBase others); [discriminate|].
  rewrite Hma.
  pose proof (checkTransactionsLoop_block true (BFUpgrade9 flags)
                (sanityScriptFlags true) cb others) as Hloop.
  destruct (checkTransactionsLoop SerializeSize true _ _ 0 zeroHash
              (cb :: others)) as [e|] eqn:El.
  { intros H; injection H as ->.
    exfalso. exact (checkTransactionsLoop_codes _ _ _ _ _ _ _ El eq_refl). }
  destruct (negb _); [discriminate|].
  intros Hdup.
  pose proof (proj1 Hloop eq_refl) as [_ Hsorted]. specialize (Hsorted eq_refl).
  assert (Hnd : NoDup (map TxHash others)).
  { apply Sorted_StronglySorted in Hsorted; [|intros x y z; apply Z.lt_trans].
    clear - Hsorted. induction Hsorted as [|x l Hl IHl Hx]; [constructor|].
    apply NoDup_cons. split; [|exact IHl].
    intros Hin. apply list_elem_of_In in Hin.
    rewrite List.Forall_forall in Hx. specialize (Hx x Hin). lia. }
  assert (Hnot : ~ NoDup (map TxHash (cb :: others))).
  { intros H. apply checkDuplicateTxs_empty_iff in H. congruence. }
  cbn [map] in Hnot. rewrite NoDup_cons in Hnot.
  destruct (decide (TxHash cb ∈ map TxHash others)) as [Hin | Hni].
  - apply list_elem_of_In, in_map_iff in Hin as (tx & Hh & Htx).
    exists cb, others, tx. repeat split; assumption.
  - exfalso. apply Hnot. split; assumption.
Qed.

(** X6.  In [checkBlockSanity] an error of the header comes first; with a
    sane header, a block without transactions is [ErrNoTransactions], a
    first transaction that is not a coinbase is [ErrFirstTxNotCoinbase], and
    a coinbase after a first coinbase is [ErrMultipleCoinbases], whatever
    else the transactions hold. *)
Theorem checkBlockSanity_structure
    (block : Block) (powLimit : Z) (flags : BehaviorFlags) :
  (forall e, headerSanity (Header block) powLimit flags = Some e ->
             blockSanity block powLimit flags = Some e)
  /\ (headerSanity (Header block) powLimit flags = None ->
      (Transactions block = [] ->
       blockSanity block powLimit flags = Some (ruleError ErrNoTransactions))
      /\ (forall tx0 others,
            Transactions block = tx0 :: others ->
            (IsCoinBase tx0 = false ->
             blockSanity block powLimit flags
             = Some (ruleError ErrFirstTxNotCoinbase))
            /\ (IsCoinBase tx0 = true ->
                Exists (fun tx => IsCoinBase tx = true) others ->
                blockSanity block powLimit flags
                = Some (ruleError ErrMultipleCoinbases)))).
Proof.
  unfold checkBlockSanity. split.
  - intros e ->. reflexivity.
  - intros ->. split.
    + intros ->. reflexivity.
    + intros tx0 others ->. split.
      * intros ->. reflexivity.
      * intros -> Hex. cbn [negb].
        assert (He : existsb IsCoinBase others = true).
        { apply existsb_exists. apply List.Exists_exists in Hex
            as (x & Hx & Hc). exists x. split; assumption. }
        rewrite He. reflexivity.
Qed.

End BlockSanityMore.

Lemma checkBlockSanity_duplicate_is_coinbase_witness :
  exists cb others tx,
    Transactions collidingBlock = cb :: others
    /\ In tx others /\ TxHash tx = TxHash cb
    /\ NoDup (map TxHash others).
Proof.
  apply (checkBlockSanity_duplicate_is_coinbase wireSize compactToBig
           sampleBlockHash xorRoot sampleNow collidingBlock
           (PowLimit mainNetLike) flagsMagneticAnomaly).
  - reflexivity.
  - vm_compute. reflexivity.
Defined.

(** ** [CheckTransactionInputs] *)

Lemma amountSum_nonneg (txHeight : Z) (utxoView : UtxoViewpoint)
    (params : Params) (ins : list TxIn) (utxos : list UtxoEntry) :
  Forall2 (spendableAt txHeight utxoView params) ins utxos ->
  0 <= amountSum utxos.
Proof.
  induction 1 as [|i u ins utxos Hu _ IH]; simpl; [lia|].
  destruct Hu as (_ & _ & _ & Hr). lia.
Qed.

Lemma checkInputsLoop_from (ins : list TxIn) (txHeight : Z)
    (utxoView : UtxoViewpoint) (params : Params) (total r : Z) :
  0 <= total <= MaxSatoshi ->
  (checkInputsLoop ins txHeight utxoView params total = Ok r <->
   exists utxos,
     Forall2 (spendableAt txHeight utxoView params) ins utxos
     /\ total + amountSum utxos <= MaxSatoshi
     /\ r = total + amountSum utxos).
Proof.
  revert total. induction ins as [|i ins IH]; intros total Ht.
  - simpl. split.
    + intros H; injection H as <-. exists []. simpl.
      split; [constructor | lia].
    + intros (utxos & Hall & _ & ->). inversion Hall; subst. simpl.
      f_equal. lia.
  - cbn [checkInputsLoop].
    destruct (LookupEntry utxoView (PreviousOutPoint i)) as [u|] eqn:Hl.
    2:{ split; [discriminate|]. intros (utxos & Hall & _).
        inversion Hall as [|? u ? ? (Hu & _)]; subst. congruence. }
    destruct (IsSpent u) eqn:Hsp.
    { split; [discriminate|]. intros (utxos & Hall & _).
      inversion Hall as [|? u' ? ? (Hu & Hs & _)]; subst. congruence. }
    cbv zeta.
    match goal with
    | |- context [if ?c then Err (ruleError ErrImmatureSpend) else _] =>
        destruct c eqn:Him
    end.
    { split; [discriminate|]. intros (utxos & Hall & _).
      inversion Hall as [|? u' ? ? (Hu & _ & Hm & _)]; subst.
      assert (u' = u) by congruence. subst u'.
      destruct (utxo_IsCoinBase u); [|discriminate].
      specialize (Hm eq_refl). apply Z.ltb_lt in Him. lia. }
    destruct (Z.ltb_spec (Amount u) 0) as [Hneg | Hnn].
    { split; [discriminate|]. intros (utxos & Hall & _).
      inversion Hall as [|? u' ? ? (Hu & _ & _ & Hr)]; subst.
      assert (u' = u) by congruence. subst u'. lia. }
    destruct (Z.ltb_spec MaxSatoshi (Amount u)) as [Hbig | Hle].
    { split; [discriminate|]. intros (utxos & Hall & _).
      inversion Hall as [|? u' ? ? (Hu & _ & _ & Hr)]; subst.
      assert (u' = u) by congruence. subst u'. lia. }
    assert (Hadd : add64 total (Amount u) = total + Amount u).
    { apply int64_id. unfold is_int64. rewrite MaxSatoshi_value in *.
      assert (2 ^ 63 = 9223372036854775808) by reflexivity. lia. }
    rewrite Hadd.
    destruct (Z.ltb_spec (total + Amount u) total) as [? | _]; [lia|].
    cbn [orb].
    destruct (Z.ltb_spec MaxSatoshi (total + Amount u)) as [Hover | Hfit].
    { split; [discriminate|]. intros (utxos & Hall & Hsum & _).
      inversion Hall as [|? u' ? us (Hu & _) Hrest]; subst.
      assert (u' = u) by congruence. subst u'.
      pose proof (amountSum_nonneg _ _ _ _ _ Hrest).
      cbn [amountSum fold_right] in Hsum. fold (amountSum us) in Hsum. lia. }
    rewrite IH by lia. split.
    + intros (utxos & Hall & Hsum & ->). exists (u :: utxos).
      cbn [amountSum fold_right]. fold (amountSum utxos).
      split; [|lia]. constructor; [|exact Hall].
      unfold spendableAt. repeat split; try assumption; try lia.
      intros Hcb. rewrite Hcb in Him. apply Z.ltb_ge in Him. exact Him.
    + intros (utxos & Hall & Hsum & ->).
      inversion Hall as [|? u' ? us (Hu & _) Hrest]; subst.
      assert (u' = u) by congruence. subst u'.
      cbn [amountSum fold_right] in *. fold (amountSum us) in *.
      exists us. split; [exact Hrest | lia].
Qed.

Lemma sumOutputs_sane (outs : list TxOut) :
  checkOutputValues outs 0 = None ->
  sumOutputs outs = valueSum outs /\ 0 <= valueSum outs <= MaxSatoshi.
Proof.
  intros H.
  apply (proj1 (checkOutputValues_from outs 0
                  ltac:(rewrite MaxSatoshi_value; lia))) in H
    as [Hall Hs].
  assert (0 <= valueSum outs).
  { clear - Hall. induction Hall as [|x l Hx _ IHl]; simpl; lia. }
  split; [|lia]. unfold sumOutputs.
  rewrite sumOutputs_from; [lia | assumption | lia | lia].
Qed.

(** X7.  For a transaction that is not a coinbase and whose outputs passed
    the value checks of [CheckTransactionSanity], [CheckTransactionInputs]
    returns a fee exactly when every input refers to an entry of the view
    that is unspent, mature if it is a coinbase output and of an amount in
    [0, MaxSatoshi], the exact sum of these amounts is at most [MaxSatoshi]
    and not below the exact sum of the outputs; the fee is the difference of
    the two exact sums, and lies in [0, MaxSatoshi]. *)
Theorem CheckTransactionInputs_accepts_iff (tx : Tx) (txHeight : Z)
    (utxoView : UtxoViewpoint) (params : Params) (fee : Z) :
  IsCoinBase tx = false ->
  checkOutputValues (TxOuts (MsgTx_of tx)) 0 = None ->
  (CheckTransactionInputs tx txHeight utxoView params = Ok fee <->
   exists utxos,
     Forall2 (spendableAt txHeight utxoView params) (TxIns (MsgTx_of tx)) utxos
     /\ amountSum utxos <= MaxSatoshi
     /\ valueSum (TxOuts (MsgTx_of tx)) <= amountSum utxos
     /\ fee = amountSum utxos - valueSum (TxOuts (MsgTx_of tx)))
  /\ (CheckTransactionInputs tx txHeight utxoView params = Ok fee ->
      0 <= fee <= MaxSatoshi).
Proof.
  intros Hcb Hout. apply sumOutputs_sane in Hout as [Hsum Hrange].
  assert (H0 : 0 <= 0 <= MaxSatoshi) by (rewrite MaxSatoshi_value; lia).
  unfold CheckTransactionInputs. rewrite Hcb, Hsum. cbv zeta.
  destruct (checkInputsLoop (TxIns (MsgTx_of tx)) txHeight utxoView params 0)
    as [totalIn | e] eqn:Hloop.
  - apply (proj1 (checkInputsLoop_from _ _ _ _ 0 totalIn H0)) in Hloop
      as (utxos & Hall & Hle & Htot).
    pose proof (amountSum_nonneg _ _ _ _ _ Hall) as Hnn.
    rewrite Z.add_0_l in Hle, Htot. subst totalIn.
    assert (Hsub : sub64 (amountSum utxos) (valueSum (TxOuts (MsgTx_of tx)))
                   = amountSum utxos - valueSum (TxOuts (MsgTx_of tx))).
    { apply int64_id. unfold is_int64. rewrite MaxSatoshi_value in *.
      assert (2 ^ 63 = 9223372036854775808) by reflexivity. lia. }
    assert (Huniq : forall utxos',
               Forall2 (spendableAt txHeight utxoView params)
                 (TxIns (MsgTx_of tx)) utxos' -> utxos' = utxos).
    { clear - Hall. induction Hall as [|i u ins us Hu _ IH];
        intros utxos' H'; inversion H' as [|? u' ? us' Hu' Hrest]; subst;
        [reflexivity|].
      destruct Hu as (Hl & _), Hu' as (Hl' & _).
      f_equal; [congruence | exact (IH _ Hrest)]. }
    destruct (Z.ltb_spec (amountSum utxos) (valueSum (TxOuts (MsgTx_of tx))))
      as [Hlt | Hge].
    + split; [|discriminate]. split; [discriminate|].
      intros (utxos' & Hall' & _ & Hv & _).
      rewrite (Huniq _ Hall') in Hv. lia.
    + rewrite Hsub. split.
      * split.
        -- intros H; injection H as <-. exists utxos.
           repeat split; try assumption; lia.
        -- intros (utxos' & Hall' & _ & _ & ->).
           rewrite (Huniq _ Hall'). reflexivity.
      * intros H; injection H as <-. lia.
  - split; [|discriminate]. split; [discriminate|].
    intros (utxos & Hall & Hle & _).
    assert (Hok : checkInputsLoop (TxIns (MsgTx_of tx)) txHeight utxoView
                    params 0 = Ok (0 + amountSum utxos)).
    { apply (checkInputsLoop_from _ _ _ _ 0 _ H0). exists utxos.
      split; [exact Hall|]. split; [lia | reflexivity]. }
    congruence.
Qed.

Lemma CheckTransactionInputs_accepts_iff_witness :
  (CheckTransactionInputs spendCoinbase 200 viewWithCoinbase mainNetLike
   = Ok 10000 <->
   exists utxos,
     Forall2 (spendableAt 200 viewWithCoinbase mainNetLike)
       (TxIns (MsgTx_of spendCoinbase)) utxos
     /\ amountSum utxos <= MaxSatoshi
     /\ valueSum (TxOuts (MsgTx_of spendCoinbase)) <= amountSum utxos
     /\ 10000 = amountSum utxos - valueSum (TxOuts (MsgTx_of spendCoinbase)))
  /\ (CheckTransactionInputs spendCoinbase 200 viewWithCoinbase mainNetLike
      = Ok 10000 -> 0 <= 10000 <= MaxSatoshi).
Proof.
  apply (CheckTransactionInputs_accepts_iff spendCoinbase 200 viewWithCoinbase
           mainNetLike 10000); reflexivity.
Defined.

(** ** [CalcBlockSubsidy] *)

Lemma baseSubsidy_shift_range (n : Z) :
  0 <= n -> 0 <= Z.shiftr baseSubsidy n <= baseSubsidy.
Proof.
  intros Hn. rewrite Z.shiftr_div_pow2 by exact Hn.
  assert (Hp : 0 < 2 ^ n) by (apply Z.pow_pos_nonneg; lia).
  assert (Hb : 0 <= baseSubsidy) by (vm_compute; discriminate).
  split.
  - apply Z.div_pos; assumption.
  - apply Z.div_le_upper_bound; [exact Hp | nia].
Qed.

Lemma baseSubsidy_shift_antitone (m n : Z) :
  0 <= m <= n -> Z.shiftr baseSubsidy n <= Z.shiftr baseSubsidy m.
Proof.
  intros Hmn. rewrite !Z.shiftr_div_pow2 by lia.
  apply Z.div_le_compat_l; [vm_compute; discriminate|].
  split; [apply Z.pow_pos_nonneg; lia | apply Z.pow_le_mono_r; lia].
Qed.

Lemma CalcBlockSubsidy_nonneg_height (height : Z) (chainParams : Params) :
  0 < SubsidyReductionInterval chainParams < 2 ^ 31 ->
  0 <= height < 2 ^ 31 ->
  CalcBlockSubsidy height chainParams
  = Z.shiftr baseSubsidy (height / SubsidyReductionInterval chainParams).
Proof.
  intros Hi Hh. unfold CalcBlockSubsidy.
  destruct (Z.eqb_spec (SubsidyReductionInterval chainParams) 0) as [? | _];
    [lia|].
  apply subsidy_shift_count; unfold is_int32; try lia.
  apply Z.div_pos; lia.
Qed.

(** X8.  Whatever the height and the parameters, the subsidy lies between 0
    and [baseSubsidy]; and with a positive interval it is 0 at every height
    from 33 intervals on. *)
Theorem CalcBlockSubsidy_range (height : Z) (chainParams : Params) :
  0 <= CalcBlockSubsidy height chainParams <= baseSubsidy
  /\ (0 < SubsidyReductionInterval chainParams < 2 ^ 31 ->
      33 * SubsidyReductionInterval chainParams <= height < 2 ^ 31 ->
      CalcBlockSubsidy height chainParams = 0).
Proof.
  split.
  - unfold CalcBlockSubsidy. destruct (_ =? 0).
    + vm_compute. split; discriminate.
    + apply baseSubsidy_shift_range. unfold uint, uint64.
      apply Z.mod_pos_bound. reflexivity.
  - intros Hi Hh. rewrite CalcBlockSubsidy_nonneg_height by lia.
    apply baseSubsidy_shift_out.
    apply Z.div_le_lower_bound; lia.
Qed.

(** X9.  With a positive interval the subsidy never grows with the height:
    a block at a height at least as large gets at most as much. *)
Theorem CalcBlockSubsidy_antitone (h1 h2 : Z) (chainParams : Params) :
  0 < SubsidyReductionInterval chainParams < 2 ^ 31 ->
  0 <= h1 -> h1 <= h2 -> h2 < 2 ^ 31 ->
  CalcBlockSubsidy h2 chainParams <= CalcBlockSubsidy h1 chainParams.
Proof.
  intros Hi H1 H12 H2. rewrite !CalcBlockSubsidy_nonneg_height by lia.
  apply baseSubsidy_shift_antitone. split.
  - apply Z.div_pos; lia.
  - apply Z.div_le_mono; lia.
Qed.

Lemma CalcBlockSubsidy_antitone_witness :
  CalcBlockSubsidy 420000 mainNetLike <= CalcBlockSubsidy 209999 mainNetLike.
Proof.
  apply (CalcBlockSubsidy_antitone 209999 420000 mainNetLike);
    try lia; vm_compute; split; reflexivity.
Defined.

(** X10.  A negative height is not turned down: with a positive interval the
    subsidy is the full [baseSubsidy] for a height above minus the interval
    (the quotient truncates to 0) and 0 from minus the interval down (the
    negative quotient becomes a shift count of at least 2^64 - 2^31). *)
Theorem CalcBlockSubsidy_negative_height (height : Z) (chainParams : Params) :
  0 < SubsidyReductionInterval chainParams < 2 ^ 31 ->
  - 2 ^ 31 <= height < 0 ->
  CalcBlockSubsidy height chainParams
  = if - SubsidyReductionInterval chainParams <? height then baseSubsidy else 0.
Proof.
  intros Hi Hh. unfold CalcBlockSubsidy.
  destruct (Z.eqb_spec (SubsidyReductionInterval chainParams) 0) as [? | _];
    [lia|].
  set (i := SubsidyReductionInterval chainParams) in *.
  assert (Hq : Z.quot height i = - (- height / i)).
  { rewrite <- (Z.opp_involutive height) at 1.
    rewrite Z.quot_opp_l by lia. rewrite Z.quot_div_nonneg by lia.
    reflexivity. }
  assert (Hlo : - height / i <= - height) by (apply Z.div_le_upper_bound; nia).
  assert (Hnn : 0 <= - height / i) by (apply Z.div_pos; lia).
  change (2 ^ 31) with 2147483648 in *.
  unfold div32. rewrite Hq.
  rewrite int32_id by (unfold is_int32; change (2 ^ 31) with 2147483648; lia).
  destruct (Z.ltb_spec (- i) height) as [Hnear | Hfar].
  - rewrite Z.div_small by lia. reflexivity.
  - assert (1 <= - height / i) by (apply Z.div_le_lower_bound; lia).
    apply baseSubsidy_shift_out. unfold uint, uint64.
    change (2 ^ 64) with 18446744073709551616.
    replace (- (- height / i))
      with (18446744073709551616 - (- height / i)
            + (- 1) * 18446744073709551616) by lia.
    rewrite Z.mod_add by lia. rewrite Z.mod_small by lia. lia.
Qed.

Lemma CalcBlockSubsidy_negative_height_witness :
  CalcBlockSubsidy (- 1) mainNetLike = baseSubsidy
  /\ CalcBlockSubsidy (- 210000) mainNetLike = 0.
Proof.
  split.
  - apply (CalcBlockSubsidy_negative_height (- 1) mainNetLike);
      try lia; vm_compute; split; reflexivity.
  - apply (CalcBlockSubsidy_negative_height (- 210000) mainNetLike);
      try lia; vm_compute; split; reflexivity.
Defined.

Lemma totalSubsidy_invariant (n : nat) (chainParams : Params) :
  0 < SubsidyReductionInterval chainParams < 2 ^ 31 ->
  Z.of_nat n < 2 ^ 31 ->
  totalSubsidy n chainParams
  + (2 * SubsidyReductionInterval chainParams
     - Z.of_nat n mod SubsidyReductionInterval chainParams)
    * Z.shiftr baseSubsidy (Z.of_nat n / SubsidyReductionInterval chainParams)
  <= 2 * SubsidyReductionInterval chainParams * baseSubsidy.
Proof.
  intros Hi. set (i := SubsidyReductionInterval chainParams) in *.
  induction n as [|n IH]; intros Hn.
  - cbn [totalSubsidy]. change (Z.of_nat 0) with 0.
    rewrite Z.mod_0_l, Z.div_0_l by lia. rewrite Z.shiftr_0_r. lia.
  - cbn [totalSubsidy]. specialize (IH ltac:(lia)).
    rewrite (CalcBlockSubsidy_nonneg_height (Z.of_nat n)) by (fold i; lia).
    fold i. rewrite Nat2Z.inj_succ. unfold Z.succ.
    set (h := Z.of_nat n) in *.
    assert (Hh : 0 <= h) by (subst h; lia).
    pose proof (Z.div_mod h i ltac:(lia)) as Hdm.
    pose proof (Z.mod_pos_bound h i ltac:(lia)) as Hr.
    assert (Hq : 0 <= h / i) by (apply Z.div_pos; lia).
    pose proof (baseSubsidy_shift_range (h / i) Hq) as Hf.
    destruct (Z_lt_le_dec (h mod i + 1) i) as [Hin | Hwrap].
    + assert (Hq' : (h + 1) / i = h / i).
      { symmetry. apply (Z.div_unique _ _ _ (h mod i + 1)); lia. }
      assert (Hr' : (h + 1) mod i = h mod i + 1).
      { symmetry. apply (Z.mod_unique _ _ (h / i)); lia. }
      rewrite Hq', Hr'. nia.
    + assert (Hq' : (h + 1) / i = h / i + 1).
      { symmetry. apply (Z.div_unique _ _ _ 0); lia. }
      assert (Hr' : (h + 1) mod i = 0).
      { symmetry. apply (Z.mod_unique _ _ (h / i + 1)); lia. }
      rewrite Hq', Hr'.
      assert (Hhalf : 2 * Z.shiftr baseSubsidy (h / i + 1)
                      <= Z.shiftr baseSubsidy (h / i)).
      { rewrite <- (Z.shiftr_shiftr baseSubsidy (h / i) 1) by lia.
        rewrite (Z.shiftr_div_pow2 _ 1) by lia. change (2 ^ 1) with 2.
        pose proof (Z.div_mod (Z.shiftr baseSubsidy (h / i)) 2 ltac:(lia)).
        pose proof (Z.mod_pos_bound (Z.shiftr baseSubsidy (h / i)) 2
                      ltac:(lia)).
        lia. }
      assert (Hrr : h mod i = i - 1) by lia.
      rewrite Hrr in IH. nia.
Qed.

(** X11.  The subsidies of the first [n] blocks together never exceed twice
    the interval times [baseSubsidy]; with the interval 210000 of the main
    network this is [MaxSatoshi], the 21 million coins. *)
Theorem totalSubsidy_bound (n : nat) (chainParams : Params) :
  0 < SubsidyReductionInterval chainParams < 2 ^ 31 ->
  Z.of_nat n <= 2 ^ 31 ->
  totalSubsidy n chainParams
  <= 2 * SubsidyReductionInterval chainParams * baseSubsidy
  /\ (SubsidyReductionInterval chainParams = 210000 ->
      totalSubsidy n chainParams <= MaxSatoshi).
Proof.
  intros Hi Hn.
  assert (Hb : totalSubsidy n chainParams
               <= 2 * SubsidyReductionInterval chainParams * baseSubsidy).
  { destruct n as [|n];
      [cbn [totalSubsidy]; change baseSubsidy with 5000000000; lia|].
    cbn [totalSubsidy].
    pose proof (totalSubsidy_invariant n chainParams Hi ltac:(lia)) as Hinv.
    rewrite (CalcBlockSubsidy_nonneg_height (Z.of_nat n)) by lia.
    set (i := SubsidyReductionInterval chainParams) in *.
    pose proof (Z.mod_pos_bound (Z.of_nat n) i ltac:(lia)) as Hr.
    assert (Hq : 0 <= Z.of_nat n / i) by (apply Z.div_pos; lia).
    pose proof (baseSubsidy_shift_range (Z.of_nat n / i) Hq) as Hf.
    nia. }
  split; [exact Hb|]. intros H210. rewrite H210 in Hb.
  rewrite MaxSatoshi_value. change baseSubsidy with 5000000000 in Hb. lia.
Qed.

Lemma totalSubsidy_bound_witness :
  totalSubsidy 3 mainNetLike
  <= 2 * SubsidyReductionInterval mainNetLike * baseSubsidy
  /\ (SubsidyReductionInterval mainNetLike = 210000 ->
      totalSubsidy 3 mainNetLike <= MaxSatoshi).
Proof.
  apply (totalSubsidy_bound 3 mainNetLike);
    try lia; vm_compute; split; reflexivity.
Defined.

(** ** [IsFinalizedTransaction] *)

(** X12.  A transaction that is finalized for a block height and a block
    time stays finalized for every later height and time. *)
Theorem IsFinalizedTransaction_monotone (tx : Tx)
    (blockHeight blockTime blockHeight' blockTime' : Z) :
  blockHeight <= blockHeight' -> blockTime <= blockTime' ->
  IsFinalizedTransaction tx blockHeight blockTime = true ->
  IsFinalizedTransaction tx blockHeight' blockTime' = true.
Proof.
  intros Hh Ht. unfold IsFinalizedTransaction. cbv zeta.
  destruct (LockTime (MsgTx_of tx) =? 0); [reflexivity|].
  destruct (LockTime (MsgTx_of tx) <? LockTimeThreshold).
  - destruct (Z.ltb_spec (LockTime (MsgTx_of tx)) blockHeight) as [Hlt | _].
    + intros _.
      destruct (Z.ltb_spec (LockTime (MsgTx_of tx)) blockHeight'); [|lia].
      reflexivity.
    + intros ->. destruct (_ <? _); reflexivity.
  - destruct (Z.ltb_spec (LockTime (MsgTx_of tx)) blockTime) as [Hlt | _].
    + intros _.
      destruct (Z.ltb_spec (LockTime (MsgTx_of tx)) blockTime'); [|lia].
      reflexivity.
    + intros ->. destruct (_ <? _); reflexivity.
Qed.

Lemma IsFinalizedTransaction_monotone_witness :
  IsFinalizedTransaction (spendOf coinbaseOutPoint 0 499999999 1 5)
    500000001 0 = true.
Proof.
  apply (IsFinalizedTransaction_monotone
           (spendOf coinbaseOutPoint 0 499999999 1 5) 500000000 0);
    [lia | lia | reflexivity].
Defined.

(** ** [checkBIP0030] *)

Lemma checkBIP0030Outputs_some
    (FetchEntry : OutPoint -> result (option UtxoEntry))
    (txHash : Hash) (idxs : list nat) (view : UtxoViewpoint) (e : error) :
  checkBIP0030Outputs FetchEntry txHash idxs view = Some e ->
  exists txOutIdx,
    In txOutIdx idxs
    /\ let prevOut := mkOutPoint txHash (uint32 (Z.of_nat txOutIdx)) in
       (e = ruleError ErrOverwriteTx
        /\ exists utxo,
             (LookupEntry view prevOut = Some utxo
              \/ (LookupEntry view prevOut = None
                  /\ FetchEntry prevOut = Ok (Some utxo)))
             /\ IsSpent utxo = false)
       \/ (LookupEntry view prevOut = None /\ FetchEntry prevOut = Err e).
Proof.
  induction idxs as [|idx idxs IH]; cbn [checkBIP0030Outputs];
    [discriminate|].
  assert (Hrest :
            checkBIP0030Outputs FetchEntry txHash idxs view = Some e ->
            exists txOutIdx,
              In txOutIdx (idx :: idxs)
              /\ let prevOut := mkOutPoint txHash (uint32 (Z.of_nat txOutIdx)) in
                 (e = ruleError ErrOverwriteTx
                  /\ exists utxo,
                       (LookupEntry view prevOut = Some utxo
                        \/ (LookupEntry view prevOut = None
                            /\ FetchEntry prevOut = Ok (Some utxo)))
                       /\ IsSpent utxo = false)
                 \/ (LookupEntry view prevOut = None
                     /\ FetchEntry prevOut = Err e)).
  { intros H. destruct (IH H) as (i & Hi & Hcase).
    exists i. split; [right; exact Hi | exact Hcase]. }
  destruct (LookupEntry view (mkOutPoint txHash (uint32 (Z.of_nat idx))))
    as [utxo|] eqn:Hv.
  - destruct (IsSpent utxo) eqn:Hs; cbn [negb]; [exact Hrest|].
    intros H; injection H as <-. exists idx. split; [left; reflexivity|].
    left. split; [reflexivity|]. exists utxo. split; [left; exact Hv | exact Hs].
  - destruct (FetchEntry (mkOutPoint txHash (uint32 (Z.of_nat idx))))
      as [[utxo|]|err] eqn:Hf.
    + destruct (IsSpent utxo) eqn:Hs; cbn [negb]; [exact Hrest|].
      intros H; injection H as <-. exists idx. split; [left; reflexivity|].
      left. split; [reflexivity|]. exists utxo.
      split; [right; split; assumption | exact Hs].
    + exact Hrest.
    + intros H; injection H as <-. exists idx. split; [left; reflexivity|].
      right. split; assumption.
Qed.

Lemma checkBIP0030Outputs_none
    (FetchEntry : OutPoint -> result (option UtxoEntry))
    (txHash : Hash) (idxs : list nat) (view : UtxoViewpoint) :
  checkBIP0030Outputs FetchEntry txHash idxs view = None ->
  forall txOutIdx utxo,
    In txOutIdx idxs ->
    (let prevOut := mkOutPoint txHash (uint32 (Z.of_nat txOutIdx)) in
     LookupEntry view prevOut = Some utxo
     \/ (LookupEntry view prevOut = None
         /\ FetchEntry prevOut = Ok (Some utxo))) ->
    IsSpent utxo = true.
Proof.
  induction idxs as [|idx idxs IH]; cbn [checkBIP0030Outputs];
    [intros _ ? ? []|].
  intros Hnone i u Hin Hentry. cbv zeta in Hentry.
  destruct (LookupEntry view (mkOutPoint txHash (uint32 (Z.of_nat idx))))
    as [utxo|] eqn:Hv.
  - destruct (IsSpent utxo) eqn:Hs; cbn [negb] in Hnone; [|discriminate].
    destruct Hin as [<- | Hin]; [|exact (IH Hnone i u Hin Hentry)].
    destruct Hentry as [He | [He _]]; congruence.
  - destruct (FetchEntry (mkOutPoint txHash (uint32 (Z.of_nat idx))))
      as [[utxo|]|err] eqn:Hf.
    + destruct (IsSpent utxo) eqn:Hs; cbn [negb] in Hnone; [|discriminate].
      destruct Hin as [<- | Hin]; [|exact (IH Hnone i u Hin Hentry)].
      destruct Hentry as [He | [_ He]]; congruence.
    + destruct Hin as [<- | Hin]; [|exact (IH Hnone i u Hin Hentry)].
      destruct Hentry as [He | [_ He]]; congruence.
    + discriminate.
Qed.

(** X13.  [checkBIP0030] returns nil only for a block none of whose output
    positions is unspent in the view or, failing an entry there, in the
    store; and an error it returns is [ErrOverwriteTx] for such a position,
    or the error the store gave for a position of the block that the view
    does not hold. *)
Theorem checkBIP0030_result
    (FetchEntry : OutPoint -> result (option UtxoEntry))
    (block : Block) (view : UtxoViewpoint) :
  (checkBIP0030 FetchEntry block view = None ->
   ~ overwritesUnspent FetchEntry (Transactions block) view)
  /\ (forall e,
        checkBIP0030 FetchEntry block view = Some e ->
        (e = ruleError ErrOverwriteTx
         /\ overwritesUnspent FetchEntry (Transactions block) view)
        \/ exists tx txOutIdx,
             In tx (Transactions block)
             /\ (txOutIdx < length (TxOuts (MsgTx_of tx)))%nat
             /\ LookupEntry view
                  (mkOutPoint (TxHash tx) (uint32 (Z.of_nat txOutIdx))) = None
             /\ FetchEntry
                  (mkOutPoint (TxHash tx) (uint32 (Z.of_nat txOutIdx)))
                = Err e).
Proof.
  unfold checkBIP0030, overwritesUnspent.
  induction (Transactions block) as [|tx txs IH]; cbn [checkBIP0030Txs].
  - split; [|discriminate]. intros _ (tx & _ & _ & [] & _).
  - destruct IH as [IHnone IHsome].
    destruct (checkBIP0030Outputs FetchEntry (TxHash tx)
                (seq 0 (length (TxOuts (MsgTx_of tx)))) view) as [e0|] eqn:Ho.
    + split; [discriminate|]. intros e H; injection H as <-.
      apply checkBIP0030Outputs_some in Ho as (i & Hi & Hcase).
      apply in_seq in Hi. cbv zeta in Hcase.
      destruct Hcase as [[-> (u & Hu & Hs)] | [Hv Hf]].
      * left. split; [reflexivity|]. exists tx, i, u.
        split; [left; reflexivity|]. split; [lia|]. split; assumption.
      * right. exists tx, i.
        split; [left; reflexivity|]. split; [lia|]. split; assumption.
    + split.
      * intros Hrest (t & i & u & [<- | Hin] & Hi & Hentry & Hs).
        -- pose proof (checkBIP0030Outputs_none _ _ _ _ Ho i u
                         ltac:(apply in_seq; lia) Hentry).
           congruence.
        -- apply (IHnone Hrest). exists t, i, u. repeat split; assumption.
      * intros e He. destruct (IHsome e He)
          as [[-> (t & i & u & Hin & Hrest)] | (t & i & Hin & Hrest)].
        -- left. split; [reflexivity|]. exists t, i, u.
           split; [right; exact Hin | exact Hrest].
        -- right. exists t, i. split; [right; exact Hin | exact Hrest].
Qed.

(** ** [checkProofOfWork] and [checkBlockHeaderSanity] *)

Lemma checkProofOfWork_None_iff (CompactToBig : Z -> Z)
    (BlockHash : BlockHeader -> Hash) (header : BlockHeader) (powLimit : Z)
    (flags : BehaviorFlags) :
  checkProofOfWork CompactToBig BlockHash header powLimit flags = None <->
  0 < CompactToBig (Bits header) <= powLimit
  /\ (BFNoPoWCheck flags = false ->
      HashToBig (BlockHash header) <= CompactToBig (Bits header)).
Proof.
  unfold checkProofOfWork. cbv zeta.
  destruct (Z.leb_spec (CompactToBig (Bits header)) 0).
  { split; [discriminate | lia]. }
  destruct (Z.ltb_spec powLimit (CompactToBig (Bits header))).
  { split; [discriminate | lia]. }
  destruct (BFNoPoWCheck flags); cbn [negb].
  - split; [|reflexivity]. intros _. split; [lia | discriminate].
  - destruct (Z.ltb_spec (CompactToBig (Bits header))
                (HashToBig (BlockHash header))).
    + split; [discriminate|]. intros [_ H']. specialize (H' eq_refl). lia.
    + split; [|reflexivity]. intros _. split; [lia|]. intros _. lia.
Qed.

(** X14.  [CheckProofOfWork] accepts a block exactly when the target of its
    header is positive and at most the limit and the block hash, as a
    number, is at most the target; it answers [ErrUnexpectedDifficulty]
    exactly when the target is out of that range and [ErrHighHash] exactly
    when the target is in range and the hash above it.  A header it accepts
    passes [checkProofOfWork] under every flag set. *)
Theorem CheckProofOfWork_cases (CompactToBig : Z -> Z)
    (BlockHash : BlockHeader -> Hash) (block : Block) (powLimit : Z) :
  let target := CompactToBig (Bits (Header block)) in
  let hashNum := HashToBig (BlockHash (Header block)) in
  let r := CheckProofOfWork CompactToBig BlockHash block powLimit in
  (r = None <-> 0 < target <= powLimit /\ hashNum <= target)
  /\ (r = Some (ruleError ErrUnexpectedDifficulty) <->
      target <= 0 \/ powLimit < target)
  /\ (r = Some (ruleError ErrHighHash) <->
      0 < target <= powLimit /\ target < hashNum)
  /\ (forall flags,
        r = None ->
        checkProofOfWork CompactToBig BlockHash (Header block) powLimit flags
        = None).
Proof.
  cbv zeta. split; [|split; [|split]].
  - unfold CheckProofOfWork. rewrite checkProofOfWork_None_iff.
    cbn [BFNone BFNoPoWCheck]. tauto.
  - unfold CheckProofOfWork, checkProofOfWork. cbv zeta.
    destruct (Z.leb_spec (CompactToBig (Bits (Header block))) 0).
    { split; [intros _; left; assumption | reflexivity]. }
    destruct (Z.ltb_spec powLimit (CompactToBig (Bits (Header block)))).
    { split; [intros _; right; assumption | reflexivity]. }
    cbn [BFNone BFNoPoWCheck negb].
    destruct (_ <? _); (split; [discriminate | lia]).
  - unfold CheckProofOfWork, checkProofOfWork. cbv zeta.
    destruct (Z.leb_spec (CompactToBig (Bits (Header block))) 0).
    { split; [discriminate | lia]. }
    destruct (Z.ltb_spec powLimit (CompactToBig (Bits (Header block)))).
    { split; [discriminate | lia]. }
    cbn [BFNone BFNoPoWCheck negb].
    destruct (Z.ltb_spec (CompactToBig (Bits (Header block)))
                (HashToBig (BlockHash (Header block)))).
    + split; [intros _; lia | reflexivity].
    + split; [discriminate | lia].
  - intros flags. unfold CheckProofOfWork.
    rewrite !checkProofOfWork_None_iff. cbn [BFNone BFNoPoWCheck].
    intros [Hr Hh]. split; [exact Hr|]. intros _. exact (Hh eq_refl).
Qed.

(** X15.  With an adjusted time whose nanosecond part is not negative,
    [checkBlockHeaderSanity] accepts a header exactly when its target is
    positive and at most the limit, its hash is at most the target unless
    [BFNoPoWCheck] is set, its timestamp has no nanoseconds, and the
    timestamp is at most two hours (7200 seconds) after the adjusted time: a
    timestamp of exactly the adjusted second plus 7200 still passes. *)
Theorem checkBlockHeaderSanity_accepts_iff (CompactToBig : Z -> Z)
    (BlockHash : BlockHeader -> Hash) (AdjustedTime : Time)
    (header : BlockHeader) (powLimit : Z) (flags : BehaviorFlags) :
  0 <= Nanosecond AdjustedTime ->
  (checkBlockHeaderSanity CompactToBig BlockHash AdjustedTime header powLimit
     flags = None <->
   0 < CompactToBig (Bits header) <= powLimit
   /\ (BFNoPoWCheck flags = false ->
       HashToBig (BlockHash header) <= CompactToBig (Bits header))
   /\ Nanosecond (Timestamp header) = 0
   /\ Unix (Timestamp header) <= Unix AdjustedTime + 7200).
Proof.
  intros Hns. unfold checkBlockHeaderSanity.
  pose proof (checkProofOfWork_None_iff CompactToBig BlockHash header powLimit
                flags) as Hpow.
  destruct (checkProofOfWork CompactToBig BlockHash header powLimit flags)
    as [e|].
  { split; [discriminate|]. intros (H1 & H2 & _).
    assert (Some e = None) by (apply Hpow; split; assumption). discriminate. }
  destruct (proj1 Hpow eq_refl) as [Hr Hh].
  unfold Time_Equal, time_Unix, Time_After, Time_AddSeconds. cbn [Unix Nanosecond].
  rewrite Z.eqb_refl. cbn [andb].
  destruct (Z.eqb_spec (Nanosecond (Timestamp header)) 0) as [Hn0 | Hn0];
    cbn [negb].
  2:{ split; [discriminate|]. intros (_ & _ & H & _). contradiction. }
  change MaxTimeOffsetSeconds with 7200.
  destruct (Z.ltb_spec (Unix AdjustedTime + 7200) (Unix (Timestamp header)))
    as [Hlate | Hok]; cbn [orb].
  { split; [discriminate|]. intros (_ & _ & _ & H). lia. }
  destruct (Z.eqb_spec (Unix (Timestamp header)) (Unix AdjustedTime + 7200));
    cbn [andb].
  - destruct (Z.ltb_spec (Nanosecond AdjustedTime)
                (Nanosecond (Timestamp header))); [lia|].
    split; [|reflexivity]. intros _. repeat split; try assumption; lia.
  - split; [|reflexivity]. intros _. repeat split; try assumption; lia.
Qed.

Lemma checkBlockHeaderSanity_accepts_iff_witness :
  checkBlockHeaderSanity compactToBig sampleBlockHash
    (mkTime (1600000000 - 7200) 0) (sampleHeader 0) (PowLimit mainNetLike)
    flagsMagneticAnomaly = None <->
  0 < compactToBig (Bits (sampleHeader 0)) <= PowLimit mainNetLike
  /\ (BFNoPoWCheck flagsMagneticAnomaly = false ->
      HashToBig (sampleBlockHash (sampleHeader 0))
      <= compactToBig (Bits (sampleHeader 0)))
  /\ Nanosecond (Timestamp (sampleHeader 0)) = 0
  /\ Unix (Timestamp (sampleHeader 0))
     <= Unix (mkTime (1600000000 - 7200) 0) + 7200.
Proof.
  apply (checkBlockHeaderSanity_accepts_iff compactToBig sampleBlockHash
           (mkTime (1600000000 - 7200) 0) (sampleHeader 0)
           (PowLimit mainNetLike) flagsMagneticAnomaly).
  cbn. lia.
Defined.

(** ** The course of [checkConnectBlock] *)

(** As [preserves_step], with the flags of the run that are known kept in
    the conditions they decide. *)
Ltac run_step :=
  lazymatch goal with
  | |- preserves ?I (let x := ?v in @?f x) =>
      lazymatch type of v with
      | bool => change (preserves I (f v)); cbv beta
      | option Checkpoint => change (preserves I (f v)); cbv beta
      | _ => preserves_step
      end
  | |- preserves ?I (if ?c then ?a else ?b) =>
      let c' := eval cbv beta iota in c in
      lazymatch c' with
      | true => change (preserves I a)
      | false => change (preserves I b)
      | negb true => change (preserves I b)
      | negb false => change (preserves I a)
      | (if ?d then false else true) =>
          destruct d eqn:?; [change (preserves I b) | change (preserves I a)]
      | _ => destruct c eqn:?
      end
  | |- _ => preserves_step
  end.

Lemma connectInputsLoop_mode
    (connectTransaction :
       UtxoViewpoint -> Tx -> Z -> option (list SpentTxOut) -> bool ->
       UtxoViewpoint * option (list SpentTxOut) * option error)
    (I : list Event -> Prop) (Q : Event -> Prop) (b : BlockChain)
    (node : blockNode) (magneticAnomalyActive : bool) (txs : list Tx)
    (totalFees : Z) :
  stable I Q ->
  (magneticAnomalyActive = false -> forall tx, Q (EvConnectTransaction tx)) ->
  preserves I (connectInputsLoop connectTransaction b node
                 magneticAnomalyActive txs totalFees).
Proof.
  intros Hst Hq. revert totalFees.
  induction txs as [|tx txs IH]; intros totalFees; cbn [connectInputsLoop].
  - apply (preserves_ret I).
  - unfold call_connectTransaction.
    destruct magneticAnomalyActive; cbn [negb].
    + repeat preserves_step. apply IH.
    + specialize (Hq eq_refl). repeat preserves_step. apply IH.
Qed.

Section ConnectCourse.

Variable FetchEntry : OutPoint -> result (option UtxoEntry).
Variable addInputUtxos :
  UtxoViewpoint -> Block -> bool -> UtxoViewpoint * option error.
Variable connectTransaction :
  UtxoViewpoint -> Tx -> Z -> option (list SpentTxOut) -> bool ->
  UtxoViewpoint * option (list SpentTxOut) * option error.
Variable connectTransactions :
  UtxoViewpoint -> Block -> option (list SpentTxOut) -> bool ->
  UtxoViewpoint * option (list SpentTxOut) * option error.
Variable deploymentState : option blockNode -> result ThresholdState.
Variable calcSequenceLock :
  blockNode -> Tx -> UtxoViewpoint -> bool -> result SequenceLock.
Variable checkBlockScripts :
  Block -> UtxoViewpoint -> ScriptFlags -> Z -> Z -> option error.
Variable CalcPastMedianTime : option blockNode -> Time.
Variable Bip16Activation : Time.

Local Abbreviation connect :=
  (checkConnectBlock FetchEntry addInputUtxos connectTransaction
     connectTransactions deploymentState calcSequenceLock checkBlockScripts
     CalcPastMedianTime Bip16Activation).

(** X16.  The way [checkConnectBlock] updates the view follows the
    MagneticAnomaly fork alone: for a node above the fork height it tells
    [addInputUtxos] so, never connects a transaction on its own and leaves
    the update to [connectTransactions]; for a node at or below the fork
    height it tells [addInputUtxos] so and never calls
    [connectTransactions]. *)
Theorem checkConnectBlock_connect_mode
    (b : BlockChain) (node : blockNode) (block : Block) (s : ConnectState) :
  st_trace s = [] ->
  let trace := st_trace (snd (connect b node block s)) in
  let magneticAnomalyActive :=
    MagneticAnonomalyForkHeight (chainParams b) <? node_height node in
  (forall flag, In (EvAddInputUtxos flag) trace -> flag = magneticAnomalyActive)
  /\ (forall tx, In (EvConnectTransaction tx) trace ->
                 magneticAnomalyActive = false)
  /\ (In EvConnectTransactions trace -> magneticAnomalyActive = true).
Proof.
  intros Hnil trace ma.
  pose (Q := fun ev =>
               match ev with
               | EvAddInputUtxos flag => flag = ma
               | EvConnectTransaction _ => ma = false
               | EvConnectTransactions => ma = true
               | _ => True
               end).
  assert (Hst : stable (Forall Q) Q).
  { intros tr ev Htr Hev. apply Forall_app. split; [exact Htr|].
    constructor; [exact Hev | constructor]. }
  assert (Hrun : preserves (Forall Q) (connect b node block)).
  { subst Q ma.
    unfold checkConnectBlock, call_addInputUtxos, call_connectTransactions.
    destruct (MagneticAnonomalyForkHeight (chainParams b) <? node_height node).
    all: repeat lazymatch goal with
           | |- preserves _ (connectInputsLoop _ _ _ _ _ _) =>
               apply (connectInputsLoop_mode _ _ _ _ _ _ _ _ Hst);
               intros; first [discriminate | reflexivity]
           | |- preserves _ (sequenceLocksLoop _ _ _ _) =>
               apply (sequenceLocksLoop_preserves calcSequenceLock _ _ Hst);
               intros; exact Logic.I
           | |- preserves _ (emit _) =>
               apply (preserves_emit _ _ Hst);
               first [exact Logic.I | reflexivity]
           | |- _ => run_step
           end. }
  specialize (Hrun s). rewrite Hnil in Hrun. specialize (Hrun (List.Forall_nil _)).
  fold trace in Hrun. rewrite List.Forall_forall in Hrun.
  split; [|split].
  - intros flag Hin. exact (Hrun _ Hin).
  - intros tx Hin. exact (Hrun _ Hin).
  - intros Hin. exact (Hrun _ Hin).
Qed.


(** X17.  [checkConnectBlock] runs the scripts only for a node above the
    latest checkpoint: with a checkpoint at or above the height of the node
    [checkBlockScripts] is never called. *)
Theorem checkConnectBlock_scripts_after_checkpoint
    (b : BlockChain) (node : blockNode) (block : Block) (s : ConnectState) :
  st_trace s = [] ->
  forall scriptFlags maxSigChecks,
    In (EvCheckBlockScripts scriptFlags maxSigChecks)
      (st_trace (snd (connect b node block s))) ->
    match LatestCheckpoint b with
    | Some checkpoint => cp_Height checkpoint < node_height node
    | None => True
    end.
Proof.
  intros Hnil.
  pose (Q := fun ev =>
               match ev with
               | EvCheckBlockScripts _ _ =>
                   match LatestCheckpoint b with
                   | Some checkpoint => cp_Height checkpoint < node_height node
                   | None => True
                   end
               | _ => True
               end).
  assert (Hst : stable (Forall Q) Q).
  { intros tr ev Htr Hev. apply Forall_app. split; [exact Htr|].
    constructor; [exact Hev | constructor]. }
  assert (Hrun : preserves (Forall Q) (connect b node block)).
  { subst Q.
    unfold checkConnectBlock, call_addInputUtxos, call_connectTransactions.
    destruct (LatestCheckpoint b) as [checkpoint|].
    all: repeat lazymatch goal with
           | |- preserves _ (connectInputsLoop _ _ _ _ _ _) =>
               apply (connectInputsLoop_mode _ _ _ _ _ _ _ _ Hst);
               intros; exact Logic.I
           | |- preserves _ (sequenceLocksLoop _ _ _ _) =>
               apply (sequenceLocksLoop_preserves calcSequenceLock _ _ Hst);
               intros; exact Logic.I
           | |- preserves _ (emit _) =>
               apply (preserves_emit _ _ Hst);
               first [ exact Logic.I
                     | match goal with
                       | E : (_ <=? _) = false |- _ < _ =>
                           apply Z.leb_gt in E; exact E
                       end ]
           | |- _ => run_step
           end. }
  specialize (Hrun s). rewrite Hnil in Hrun.
  specialize (Hrun (List.Forall_nil _)).
  rewrite List.Forall_forall in Hrun.
  intros scriptFlags maxSigChecks Hin. exact (Hrun _ Hin).
Qed.

Lemma preserves_bind_value {A B} (I : list Event -> Prop) (P : A -> Prop)
    (m : M A) (k : A -> M B) :
  preserves I m ->
  (forall s a s', m s = (Next a, s') -> P a) ->
  (forall a, P a -> preserves I (k a)) ->
  preserves I (bind m k).
Proof.
  intros Hm Hval Hk s H. unfold bind. specialize (Hm s H).
  destruct (m s) as [[a | r |] s'] eqn:Em; simpl in *.
  - apply (Hk a (Hval s a s' Em)). exact Hm.
  - exact Hm.
  - exact Hm.
Qed.

Lemma fold_flags_In (steps : list (bool * list ScriptFlag))
    (init : ScriptFlags) (flag : ScriptFlag) :
  In flag
    (fold_left
       (fun (scriptFlags : ScriptFlags) (step : bool * list ScriptFlag) =>
          if fst step then flags_or scriptFlags (snd step) else scriptFlags)
       steps init)
  <-> In flag init
      \/ Exists (fun step => fst step = true /\ In flag (snd step)) steps.
Proof.
  revert init. induction steps as [|[c more] steps IH]; intros init;
    cbn [fold_left].
  - rewrite Exists_nil. tauto.
  - rewrite IH, Exists_cons. cbn [fst snd].
    destruct c; unfold flags_or; [rewrite in_app_iff|]; intuition congruence.
Qed.

Lemma blockScriptFlags_In (params : Params) (node : blockNode)
    (blockHeader : BlockHeader) (medianTimePast : Time)
    (Bip16Activation' : Time) (csvActive : bool) (flag : ScriptFlag) :
  In flag (blockScriptFlags params node blockHeader medianTimePast
             Bip16Activation' csvActive)
  <-> match flag with
      | ScriptBip16 => Unix Bip16Activation' <= node_timestamp node
      | ScriptVerifyDERSignatures =>
          3 <= hdr_Version blockHeader
          /\ BIP0066Height params <= node_height node
      | ScriptVerifyCheckLockTimeVerify =>
          4 <= hdr_Version blockHeader
          /\ BIP0065Height params <= node_height node
      | ScriptVerifyStrictEncoding | ScriptVerifyBip143SigHash =>
          UahfForkHeight params < node_height node
      | ScriptVerifyLowS | ScriptVerifyNullFail =>
          DaaForkHeight params < node_height node
      | ScriptVerifySigPushOnly | ScriptVerifyCleanStack
      | ScriptVerifyCheckDataSig =>
          MagneticAnonomalyForkHeight params < node_height node
      | ScriptVerifySchnorr | ScriptVerifyAllowSegwitRecovery =>
          GreatWallForkHeight params < node_height node
      | ScriptVerifyMinimalData | ScriptVerifySchnorrMultisig =>
          GravitonForkHeight params < node_height node
      | ScriptReportSigChecks | ScriptVerifyReverseBytes =>
          PhononForkHeight params < node_height node
      | ScriptVerify64BitIntegers | ScriptVerifyNativeIntrospection =>
          int64 (CosmicInflationActivationTime params) <= Unix medianTimePast
      | ScriptAllowCashTokens =>
          Upgrade9ForkHeight params < node_height node
      | ScriptAllowMay2025 =>
          int64 (Upgrade11ActivationTime params) <= Unix medianTimePast
      | ScriptVerifyCheckSequenceVerify => csvActive = true
      end.
Proof.
  unfold blockScriptFlags. rewrite fold_flags_In.
  repeat rewrite Exists_cons. rewrite Exists_nil. cbn [fst snd In].
  rewrite !andb_true_iff, !Z.ltb_lt, !Z.leb_le.
  destruct flag; intuition discriminate.
Qed.

Lemma preserves_if {A} (I : list Event -> Prop) (c : bool) (m1 m2 : M A) :
  (c = true -> preserves I m1) -> (c = false -> preserves I m2) ->
  preserves I (if c then m1 else m2).
Proof. destruct c; intros H1 H2; [apply H1 | apply H2]; reflexivity. Qed.

(** As [run_step], with the script flags built so far kept as well. *)
Ltac flags_step :=
  lazymatch goal with
  | |- preserves ?I (let x := ?v in @?f x) =>
      lazymatch type of v with
      | ScriptFlags =>
          let y := fresh x in
          pose (y := v); change (preserves I (f y)); cbv beta
      | list ScriptFlag =>
          let y := fresh x in
          pose (y := v); change (preserves I (f y)); cbv beta
      | _ => run_step
      end
  | |- preserves ?I (if ?c then ?a else ?b) =>
      lazymatch type of c with
      | bool => apply (preserves_if I c a b); intros ?
      | _ => run_step
      end
  | |- _ => run_step
  end.

Lemma checkConnectBlock_flags_preserved
    (b : BlockChain) (node : blockNode) (block : Block) (csvActive : bool) :
  csvActive
  = match deploymentState (node_parent node) with
    | Ok csvState => bool_decide (csvState = ThresholdActive)
    | Err _ => false
    end ->
  preserves
    (Forall (fun ev =>
               match ev with
               | EvCheckBlockScripts scriptFlags _ =>
                   scriptFlags
                   = blockScriptFlags (chainParams b) node (Header block)
                       (CalcPastMedianTime (node_parent node))
                       Bip16Activation csvActive
               | _ => True
               end))
    (connect b node block).
Proof.
  intros Hcsv.
  match goal with |- preserves (Forall ?q) _ => set (Q := q) end.
  assert (Hst : stable (Forall Q) Q).
  { intros tr ev Htr Hev. apply Forall_app. split; [exact Htr|].
    constructor; [exact Hev | constructor]. }
  unfold checkConnectBlock, call_addInputUtxos, call_connectTransactions.
  repeat lazymatch goal with
         | |- preserves _ (connectInputsLoop _ _ _ _ _ _) =>
             apply (connectInputsLoop_mode _ _ _ _ _ _ _ _ Hst);
             intros; exact Logic.I
         | |- preserves _ (sequenceLocksLoop _ _ _ _) =>
             apply (sequenceLocksLoop_preserves calcSequenceLock _ _ Hst);
             intros; exact Logic.I
         | |- preserves _ (bind (if bool_decide ?c then _ else ret ?sf) _) =>
             apply (preserves_bind_value _
                      (fun a => a = if bool_decide c
                                    then flags_or sf
                                           [ScriptVerifyCheckSequenceVerify]
                                    else sf));
             [ | intros st0 flags0 st0';
                 destruct (bool_decide c); cbv zeta; unfold bind, ret;
                 [ destruct (sequenceLocksLoop _ _ _ _ st0) as [[[] | |] ?] | ];
                 intros Hrun; inversion Hrun; reflexivity
               | intros flags0 Hflags0 ]
         | |- preserves _ (emit (EvCheckBlockScripts _ _)) =>
             apply (preserves_emit _ _ Hst); subst Q; cbv beta iota;
             rewrite Hcsv;
             match goal with
             | Ha : ?a = _ |- ?a = _ => rewrite Ha
             end;
             unfold blockScriptFlags; cbn [fold_left fst snd];
             destruct (bool_decide _); reflexivity
         | |- preserves _ (emit _) =>
             apply (preserves_emit _ _ Hst); exact Logic.I
         | |- _ => flags_step
         end.

Qed.

(** X18.  The script flags [checkConnectBlock] hands to the script engine
    are exactly those whose rule is in force for the node: BIP16 by the
    timestamp, DER signatures and CHECKLOCKTIMEVERIFY by the block version
    and the BIP0066 and BIP0065 heights, the flags of each fork by the
    height of the node being above the fork height (by the past median time
    for CosmicInflation and Upgrade11), and CHECKSEQUENCEVERIFY by the CSV
    deployment being active. *)
Theorem checkConnectBlock_script_flags
    (b : BlockChain) (node : blockNode) (block : Block) (s : ConnectState) :
  st_trace s = [] ->
  forall scriptFlags maxSigChecks,
    In (EvCheckBlockScripts scriptFlags maxSigChecks)
      (st_trace (snd (connect b node block s))) ->
    forall flag,
      In flag scriptFlags <->
      let params := chainParams b in
      let medianTimePast := CalcPastMedianTime (node_parent node) in
      match flag with
      | ScriptBip16 => Unix Bip16Activation <= node_timestamp node
      | ScriptVerifyDERSignatures =>
          3 <= hdr_Version (Header block)
          /\ BIP0066Height params <= node_height node
      | ScriptVerifyCheckLockTimeVerify =>
          4 <= hdr_Version (Header block)
          /\ BIP0065Height params <= node_height node
      | ScriptVerifyStrictEncoding | ScriptVerifyBip143SigHash =>
          UahfForkHeight params < node_height node
      | ScriptVerifyLowS | ScriptVerifyNullFail =>
          DaaForkHeight params < node_height node
      | ScriptVerifySigPushOnly | ScriptVerifyCleanStack
      | ScriptVerifyCheckDataSig =>
          MagneticAnonomalyForkHeight params < node_height node
      | ScriptVerifySchnorr | ScriptVerifyAllowSegwitRecovery =>
          GreatWallForkHeight params < node_height node
      | ScriptVerifyMinimalData | ScriptVerifySchnorrMultisig =>
          GravitonForkHeight params < node_height node
      | ScriptReportSigChecks | ScriptVerifyReverseBytes =>
          PhononForkHeight params < node_height node
      | ScriptVerify64BitIntegers | ScriptVerifyNativeIntrospection =>
          int64 (CosmicInflationActivationTime params) <= Unix medianTimePast
      | ScriptAllowCashTokens =>
          Upgrade9ForkHeight params < node_height node
      | ScriptAllowMay2025 =>
          int64 (Upgrade11ActivationTime params) <= Unix medianTimePast
      | ScriptVerifyCheckSequenceVerify =>
          deploymentState (node_parent node) = Ok ThresholdActive
      end.
Proof.
  intros Hnil scriptFlags maxSigChecks Hin flag.
  pose proof (checkConnectBlock_flags_preserved b node block _ eq_refl s)
    as Hrun.
  rewrite Hnil in Hrun. specialize (Hrun (List.Forall_nil _)).
  rewrite List.Forall_forall in Hrun. specialize (Hrun _ Hin).
  cbv beta iota in Hrun. rewrite Hrun, blockScriptFlags_In. cbv zeta.
  destruct flag; try reflexivity.
  destruct (deploymentState (node_parent node)) as [csvState | e].
  - rewrite bool_decide_eq_true. split; congruence.
  - split; discriminate.
Qed.

End ConnectCourse.

Lemma checkConnectBlock_connect_mode_witness :
  let trace :=
    st_trace (snd (sampleRun sampleConnectTransactions (nodeAt 600000 33)
                     spendingBlock viewWithCoinbase)) in
  let magneticAnomalyActive :=
    MagneticAnonomalyForkHeight (chainParams sampleChain) <? 600000 in
  (forall flag, In (EvAddInputUtxos flag) trace -> flag = magneticAnomalyActive)
  /\ (forall tx, In (EvConnectTransaction tx) trace ->
                 magneticAnomalyActive = false)
  /\ (In EvConnectTransactions trace -> magneticAnomalyActive = true).
Proof.
  apply (checkConnectBlock_connect_mode emptyStore loadedView
           sampleConnectTransaction sampleConnectTransactions csvActive
           noRelativeLock acceptingScripts sampleMedianTime
           sampleBip16Activation sampleChain (nodeAt 600000 33) spendingBlock
           (startState viewWithCoinbase)).
  reflexivity.
Defined.

Lemma checkConnectBlock_scripts_after_checkpoint_witness :
  match LatestCheckpoint checkpointedChain with
  | Some checkpoint => cp_Height checkpoint < node_height (nodeAt 900000 1234)
  | None => True
  end.
Proof.
  apply (checkConnectBlock_scripts_after_checkpoint emptyStore loadedView
           sampleConnectTransaction sampleConnectTransactions csvActive
           noRelativeLock acceptingScripts sampleMedianTime
           sampleBip16Activation checkpointedChain (nodeAt 900000 1234)
           (blockAt 900000 [coinbasePaying 312500000 5; spendCoinbase])
           (startState viewWithCoinbase) eq_refl sampleScriptFlags 226950).
  vm_compute. do 5 right. left. reflexivity.
Defined.

Lemma checkConnectBlock_script_flags_witness :
  In ScriptVerifyCheckSequenceVerify sampleScriptFlags <->
  csvActive (node_parent (nodeAt 900000 1234)) = Ok ThresholdActive.
Proof.
  apply (checkConnectBlock_script_flags emptyStore loadedView
           sampleConnectTransaction sampleConnectTransactions csvActive
           noRelativeLock acceptingScripts sampleMedianTime
           sampleBip16Activation sampleChain (nodeAt 900000 1234)
           (blockAt 900000 [coinbasePaying 312500000 5; spendCoinbase])
           (startState viewWithCoinbase) eq_refl sampleScriptFlags 226950
           ltac:(vm_compute; do 5 right; left; reflexivity)
           ScriptVerifyCheckSequenceVerify).
Defined.

(** ** Checks against the position in the chain *)

Lemma versionGate_iff (version blockHeight : Z) (params : Params) :
  ((version <? 2) && (BIP0034Height params <=? blockHeight))
  || ((version <? 3) && (BIP0066Height params <=? blockHeight))
  || ((version <? 4) && (BIP0065Height params <=? blockHeight)) = false
  <-> (BIP0034Height params <= blockHeight -> 2 <= version)
      /\ (BIP0066Height params <= blockHeight -> 3 <= version)
      /\ (BIP0065Height params <= blockHeight -> 4 <= version).
Proof.
  destruct (Z.ltb_spec version 2), (Z.ltb_spec version 3),
    (Z.ltb_spec version 4), (Z.leb_spec (BIP0034Height params) blockHeight),
    (Z.leb_spec (BIP0066Height params) blockHeight),
    (Z.leb_spec (BIP0065Height params) blockHeight);
    cbn [andb orb]; split; try discriminate; try reflexivity; try lia;
    intros _; lia.
Qed.

Lemma checkFinalizedLoop_iff (txs : list Tx) (blockHeight : Z)
    (blockTime : Time) :
  checkFinalizedLoop txs blockHeight blockTime = None
  <-> Forall (fun tx =>
                IsFinalizedTransaction tx blockHeight (Unix blockTime) = true)
        txs.
Proof.
  induction txs as [|tx txs IH]; cbn [checkFinalizedLoop].
  - split; [intros _; constructor | reflexivity].
  - destruct (IsFinalizedTransaction tx blockHeight (Unix blockTime)) eqn:Ef;
      cbn [negb].
    + rewrite IH. split.
      * intros H. constructor; assumption.
      * intros H. inversion H; assumption.
    + split; [discriminate|]. intros H. inversion H; congruence.
Qed.

Lemma checkFinalizedLoop_err (txs : list Tx) (blockHeight : Z)
    (blockTime : Time) (e : error) :
  checkFinalizedLoop txs blockHeight blockTime = Some e ->
  e = ruleError ErrUnfinalizedTx.
Proof.
  induction txs as [|tx txs IH]; cbn [checkFinalizedLoop]; [discriminate|].
  destruct (negb _); [|exact IH]. intros H; injection H as <-. reflexivity.
Qed.

Lemma checkSerializedHeight_iff (coinbaseTx : Tx) (wantHeight : Z) :
  checkSerializedHeight coinbaseTx wantHeight = Some None
  <-> ExtractCoinbaseHeight coinbaseTx = Some (Ok wantHeight).
Proof.
  unfold checkSerializedHeight.
  destruct (ExtractCoinbaseHeight coinbaseTx) as [[h | e]|].
  - destruct (Z.eqb_spec h wantHeight) as [-> | Hne]; cbn [negb].
    + split; reflexivity.
    + split; [discriminate|]. intros H. injection H as H. contradiction.
  - split; discriminate.
  - split; discriminate.
Qed.

Section ContextProperties.

Variable SelectDifficultyAdjustmentAlgorithm : blockNode -> nat.
Variable calcNextRequiredDifficulty : blockNode -> Time -> nat -> result Z.
Variable CalcPastMedianTime : option blockNode -> Time.
Variable BlockHash : BlockHeader -> Hash.
Variable verifyCheckpoint : Z -> Hash -> bool.
Variable findPreviousCheckpoint : result (option blockNode).
Variable deploymentState : option blockNode -> result ThresholdState.
Variable onMainNetOrTestNet3 : bool.
Variable BlockSerializeSize : Block -> Z.

Local Abbreviation headerContext :=
  (checkBlockHeaderContext SelectDifficultyAdjustmentAlgorithm
     calcNextRequiredDifficulty CalcPastMedianTime BlockHash verifyCheckpoint
     findPreviousCheckpoint).

Local Abbreviation blockContext :=
  (checkBlockContext SelectDifficultyAdjustmentAlgorithm
     calcNextRequiredDifficulty CalcPastMedianTime BlockHash verifyCheckpoint
     findPreviousCheckpoint deploymentState onMainNetOrTestNet3
     BlockSerializeSize).

Lemma checkBlockHeaderContext_None_iff (b : BlockChain)
    (header : BlockHeader) (prev : blockNode) (flags : BehaviorFlags) :
  headerContext b header (Some prev) flags = Some None <->
  (BFFastAdd flags = false ->
   calcNextRequiredDifficulty prev (Timestamp header)
     (SelectDifficultyAdjustmentAlgorithm prev) = Ok (Bits header)
   /\ Time_After (Timestamp header) (CalcPastMedianTime (Some prev)) = true)
  /\ verifyCheckpoint (int32 (node_height prev + 1)) (BlockHash header) = true
  /\ (exists checkpointNode,
        findPreviousCheckpoint = Ok checkpointNode
        /\ forall cp, checkpointNode = Some cp ->
                      node_height cp <= int32 (node_height prev + 1))
  /\ (BIP0034Height (chainParams b) <= int32 (node_height prev + 1) ->
      2 <= hdr_Version header)
  /\ (BIP0066Height (chainParams b) <= int32 (node_height prev + 1) ->
      3 <= hdr_Version header)
  /\ (BIP0065Height (chainParams b) <= int32 (node_height prev + 1) ->
      4 <= hdr_Version header).
Proof.
  unfold checkBlockHeaderContext. cbv zeta.
  set (blockHeight := int32 (node_height prev + 1)).
  pose proof (versionGate_iff (hdr_Version header) blockHeight (chainParams b))
    as Hgate.
  assert (Htail :
    (if negb (verifyCheckpoint blockHeight (BlockHash header))
     then Some (Some (ruleError ErrBadCheckpoint))
     else
       match findPreviousCheckpoint with
       | Err err => Some (Some err)
       | Ok checkpointNode =>
           if match checkpointNode with
              | Some cp => blockHeight <? node_height cp
              | None => false
              end
           then Some (Some (ruleError ErrForkTooOld))
           else
             if ((hdr_Version header <? 2)
                 && (BIP0034Height (chainParams b) <=? blockHeight))
                || ((hdr_Version header <? 3)
                    && (BIP0066Height (chainParams b) <=? blockHeight))
                || ((hdr_Version header <? 4)
                    && (BIP0065Height (chainParams b) <=? blockHeight))
             then Some (Some (ruleError ErrBlockVersionTooOld))
             else Some None
       end) = Some None
    <-> verifyCheckpoint blockHeight (BlockHash header) = true
        /\ (exists checkpointNode,
              findPreviousCheckpoint = Ok checkpointNode
              /\ forall cp, checkpointNode = Some cp ->
                            node_height cp <= blockHeight)
        /\ (BIP0034Height (chainParams b) <= blockHeight ->
            2 <= hdr_Version header)
        /\ (BIP0066Height (chainParams b) <= blockHeight ->
            3 <= hdr_Version header)
        /\ (BIP0065Height (chainParams b) <= blockHeight ->
            4 <= hdr_Version header)).
  { destruct (verifyCheckpoint blockHeight (BlockHash header)); cbn [negb].
    2:{ split; [discriminate|]. intros [H _]. discriminate H. }
    destruct findPreviousCheckpoint as [checkpointNode | e].
    2:{ split; [discriminate|]. intros (_ & (c & H & _) & _). discriminate H. }
    assert (Hcp : (match checkpointNode with
                   | Some cp => blockHeight <? node_height cp
                   | None => false
                   end) = false
                  <-> forall cp, checkpointNode = Some cp ->
                                 node_height cp <= blockHeight).
    { destruct checkpointNode as [cp|].
      - rewrite Z.ltb_ge. split.
        + intros H c Hc. injection Hc as <-. exact H.
        + intros H. apply H. reflexivity.
      - split; [intros _ c Hc; discriminate Hc | reflexivity]. }
    destruct (match checkpointNode with
              | Some cp => blockHeight <? node_height cp
              | None => false
              end).
    { split; [discriminate|]. intros (_ & (c & H & Hc) & _).
      injection H as <-. apply Hcp in Hc. discriminate Hc. }
    destruct (_ || _).
    { split; [discriminate|]. intros (_ & _ & Hv).
      apply Hgate in Hv. discriminate Hv. }
    split; [|reflexivity]. intros _. split; [reflexivity|]. split.
    - exists checkpointNode. split; [reflexivity|]. apply Hcp. reflexivity.
    - apply Hgate. reflexivity. }
  destruct (BFFastAdd flags); cbn [negb].
  - rewrite Htail. split.
    + intros H. split; [discriminate | exact H].
    + intros [_ H]. exact H.
  - destruct (calcNextRequiredDifficulty prev (Timestamp header)
                (SelectDifficultyAdjustmentAlgorithm prev))
      as [expected | e].
    2:{ split; [discriminate|]. intros [H _].
        destruct (H eq_refl) as [H' _]. discriminate H'. }
    destruct (Z.eqb_spec (Bits header) expected) as [<- | Hne]; cbn [negb].
    2:{ split; [discriminate|]. intros [H _].
        destruct (H eq_refl) as [H' _]. injection H' as H'. congruence. }
    destruct (Time_After (Timestamp header) (CalcPastMedianTime (Some prev)));
      cbn [negb].
    + rewrite Htail. split.
      * intros H. split; [intros _; split; reflexivity | exact H].
      * intros [_ H]. exact H.
    + split; [discriminate|]. intros [H _].
      destruct (H eq_refl) as [_ H']. discriminate H'.
Qed.

(** X19.  [checkBlockHeaderContext] accepts a header on top of a node
    exactly when, unless [BFFastAdd] is set, its bits are the required
    difficulty and its timestamp is after the past median time, and in
    every case the hash agrees with the checkpoints, the height (one above
    the node) is not below the previous checkpoint, and the version is at
    least 2, 3 and 4 from the BIP0034, BIP0066 and BIP0065 heights on.  So a
    header accepted under some flags is accepted with [BFFastAdd] set. *)
Theorem checkBlockHeaderContext_accepts_iff (b : BlockChain)
    (header : BlockHeader) (prev : blockNode) (flags : BehaviorFlags) :
  let blockHeight := int32 (node_height prev + 1) in
  (headerContext b header (Some prev) flags = Some None <->
   (BFFastAdd flags = false ->
    calcNextRequiredDifficulty prev (Timestamp header)
      (SelectDifficultyAdjustmentAlgorithm prev) = Ok (Bits header)
    /\ Time_After (Timestamp header) (CalcPastMedianTime (Some prev)) = true)
   /\ verifyCheckpoint blockHeight (BlockHash header) = true
   /\ (exists checkpointNode,
         findPreviousCheckpoint = Ok checkpointNode
         /\ forall cp, checkpointNode = Some cp ->
                       node_height cp <= blockHeight)
   /\ (BIP0034Height (chainParams b) <= blockHeight -> 2 <= hdr_Version header)
   /\ (BIP0066Height (chainParams b) <= blockHeight -> 3 <= hdr_Version header)
   /\ (BIP0065Height (chainParams b) <= blockHeight ->
       4 <= hdr_Version header))
  /\ (forall flags',
        BFFastAdd flags' = true ->
        headerContext b header (Some prev) flags = Some None ->
        headerContext b header (Some prev) flags' = Some None).
Proof.
  cbv zeta. split; [apply checkBlockHeaderContext_None_iff|].
  intros flags' Hfast. rewrite !checkBlockHeaderContext_None_iff.
  intros (_ & H). split; [|exact H]. intros Hf. congruence.
Qed.

(** X20.  [checkBlockContext] accepts a block on top of a node exactly
    when its header passes [checkBlockHeaderContext], the number of its
    transactions and its serialized size are at most the block size limit
    in force at its height, on the main network and testnet3 the block at
    the height after the UAHF fork is larger than 1 MB, and, unless
    [BFFastAdd] is set, the CSV state is known, every transaction is
    finalized at the height after the node and at the past median time when
    CSV is active, the header timestamp when not, and from the BIP0034
    height on a block of version 2 or more has a coinbase that starts with
    that height. *)
Theorem checkBlockContext_accepts_iff (b : BlockChain) (block : Block)
    (prev : blockNode) (flags : BehaviorFlags) :
  let header := Header block in
  let blockHeight := int32 (node_height prev + 1) in
  let maxBlockSize :=
    MaxBlockSize b (UahfForkHeight (chainParams b) <? Height block)
      (ABLAForkHeight (chainParams b) <? Height block) in
  blockContext b block (Some prev) flags = Some None <->
  headerContext b header (Some prev) flags = Some None
  /\ uint64 (Z.of_nat (length (Transactions block))) <= maxBlockSize
  /\ uint64 (BlockSerializeSize block) <= maxBlockSize
  /\ (onMainNetOrTestNet3 = true ->
      Height block = int32 (UahfForkHeight (chainParams b) + 1) ->
      LegacyMaxBlockSize < BlockSerializeSize block)
  /\ (BFFastAdd flags = false ->
      exists csvState,
        deploymentState (Some prev) = Ok csvState
        /\ Forall (fun tx =>
                     IsFinalizedTransaction tx blockHeight
                       (Unix (if bool_decide (csvState = ThresholdActive)
                              then CalcPastMedianTime (Some prev)
                              else Timestamp header)) = true)
             (Transactions block)
        /\ (2 <= hdr_Version header ->
            BIP0034Height (chainParams b) <= blockHeight ->
            exists coinbaseTx rest,
              Transactions block = coinbaseTx :: rest
              /\ ExtractCoinbaseHeight coinbaseTx = Some (Ok blockHeight))).
Proof.
  cbv zeta. unfold checkBlockContext. cbv zeta.
  destruct (headerContext b (Header block) (Some prev) flags) as [[e|]|].
  1, 3: split; [discriminate | intros [H _]; discriminate H].
  set (maxBlockSize :=
         MaxBlockSize b (UahfForkHeight (chainParams b) <? Height block)
           (ABLAForkHeight (chainParams b) <? Height block)).
  set (blockHeight := int32 (node_height prev + 1)).
  destruct (Z.ltb_spec maxBlockSize
              (uint64 (Z.of_nat (length (Transactions block))))) as [Hn | Hn].
  { split; [discriminate|]. intros (_ & H & _). lia. }
  assert (Hrule :
            onMainNetOrTestNet3
            && (Height block =? int32 (UahfForkHeight (chainParams b) + 1))
            && (BlockSerializeSize block <=? LegacyMaxBlockSize) = false
            <-> (onMainNetOrTestNet3 = true ->
                 Height block = int32 (UahfForkHeight (chainParams b) + 1) ->
                 LegacyMaxBlockSize < BlockSerializeSize block)).
  { destruct onMainNetOrTestNet3;
      destruct (Z.eqb_spec (Height block)
                  (int32 (UahfForkHeight (chainParams b) + 1)));
      destruct (Z.leb_spec (BlockSerializeSize block) LegacyMaxBlockSize);
      cbn [andb]; split; intros; try reflexivity; try discriminate;
      try contradiction; try lia. }
  destruct (onMainNetOrTestNet3 && _ && _).
  { split; [discriminate|]. intros (_ & _ & _ & H & _).
    apply Hrule in H. discriminate H. }
  pose proof (proj1 Hrule eq_refl) as Hsmall. clear Hrule.
  destruct (Z.ltb_spec maxBlockSize (uint64 (BlockSerializeSize block)))
    as [Hz | Hz].
  { split; [discriminate|]. intros (_ & _ & H & _). lia. }
  destruct (BFFastAdd flags); cbn [negb].
  { split; [|reflexivity]. intros _. split; [reflexivity|].
    split; [exact Hn|]. split; [exact Hz|]. split; [exact Hsmall|].
    discriminate. }
  destruct (deploymentState (Some prev)) as [csvState | e].
  2:{ split; [discriminate|]. intros (_ & _ & _ & _ & H).
      destruct (H eq_refl) as (c & H' & _). discriminate H'. }
  pose proof (checkFinalizedLoop_iff (Transactions block) blockHeight
                (if bool_decide (csvState = ThresholdActive)
                 then CalcPastMedianTime (Some prev)
                 else Timestamp (Header block))) as Hfin.
  destruct (checkFinalizedLoop _ _ _) as [e|].
  { split; [discriminate|]. intros (_ & _ & _ & _ & H).
    destruct (H eq_refl) as (c & Hc & Hall & _). injection Hc as <-.
    apply Hfin in Hall. discriminate Hall. }
  pose proof (proj1 Hfin eq_refl) as Hall. clear Hfin.
  assert (Hbip :
            ShouldHaveSerializedBlockHeight (Header block)
            && (BIP0034Height (chainParams b) <=? blockHeight) = true
            <-> 2 <= hdr_Version (Header block)
                /\ BIP0034Height (chainParams b) <= blockHeight).
  { unfold ShouldHaveSerializedBlockHeight.
    change serializedHeightVersion with 2.
    rewrite andb_true_iff, !Z.leb_le. reflexivity. }
  destruct (ShouldHaveSerializedBlockHeight (Header block) && _).
  - destruct (proj1 Hbip eq_refl) as [Hv Hb].
    destruct (Transactions block) as [|coinbaseTx rest] eqn:Etxs.
    + split; [discriminate|]. intros (_ & _ & _ & _ & H).
      destruct (H eq_refl) as (c & _ & _ & Hcb).
      destruct (Hcb Hv Hb) as (cb & r & Hnil & _). discriminate Hnil.
    + rewrite checkSerializedHeight_iff. split.
      * intros Hx. split; [reflexivity|]. split; [exact Hn|].
        split; [exact Hz|]. split; [exact Hsmall|].
        intros _. exists csvState. split; [reflexivity|].
        split; [exact Hall|]. intros _ _.
        exists coinbaseTx, rest. split; [reflexivity | exact Hx].
      * intros (_ & _ & _ & _ & H).
        destruct (H eq_refl) as (c & _ & _ & Hcb).
        destruct (Hcb Hv Hb) as (cb & r & Heq & Hx).
        injection Heq as <- <-. exact Hx.
  - split; [|reflexivity]. intros _. split; [reflexivity|].
    split; [exact Hn|]. split; [exact Hz|]. split; [exact Hsmall|].
    intros _. exists csvState. split; [reflexivity|].
    split; [exact Hall|]. intros Hv Hb.
    assert (false = true) by (apply Hbip; split; assumption). discriminate.
Qed.

End ContextProperties.

(** ** The exported checks against the best chain *)

Section EntryPointProperties.

Variable SerializeSize : MsgTx -> Z.
Variable CompactToBig : Z -> Z.
Variable BlockHash : BlockHeader -> Hash.
Variable calcMerkleRoot : list Tx -> Hash.
Variable AdjustedTime : Time.
Variable SelectDifficultyAdjustmentAlgorithm : blockNode -> nat.
Variable calcNextRequiredDifficulty : blockNode -> Time -> nat -> result Z.
Variable CalcPastMedianTime : option blockNode -> Time.
Variable verifyCheckpoint : Z -> Hash -> bool.
Variable findPreviousCheckpoint : result (option blockNode).
Variable deploymentState : option blockNode -> result ThresholdState.
Variable onMainNetOrTestNet3 : bool.
Variable BlockSerializeSize : Block -> Z.
Variable FetchEntry : OutPoint -> result (option UtxoEntry).
Variable addInputUtxos :
  UtxoViewpoint -> Block -> bool -> UtxoViewpoint * option error.
Variable connectTransaction :
  UtxoViewpoint -> Tx -> Z -> option (list SpentTxOut) -> bool ->
  UtxoViewpoint * option (list SpentTxOut) * option error.
Variable connectTransactions :
  UtxoViewpoint -> Block -> option (list SpentTxOut) -> bool ->
  UtxoViewpoint * option (list SpentTxOut) * option error.
Variable calcSequenceLock :
  blockNode -> Tx -> UtxoViewpoint -> bool -> result SequenceLock.
Variable checkBlockScripts :
  Block -> UtxoViewpoint -> ScriptFlags -> Z -> Z -> option error.
Variable Bip16Activation : Time.
Variable bestChainTip : option blockNode.

Local Abbreviation headerCheck :=
  (CheckBlockHeaderContext CompactToBig BlockHash AdjustedTime
     SelectDifficultyAdjustmentAlgorithm calcNextRequiredDifficulty
     CalcPastMedianTime verifyCheckpoint findPreviousCheckpoint bestChainTip).

Local Abbreviation template :=
  (CheckConnectBlockTemplate SerializeSize CompactToBig BlockHash
     calcMerkleRoot AdjustedTime SelectDifficultyAdjustmentAlgorithm
     calcNextRequiredDifficulty CalcPastMedianTime verifyCheckpoint
     findPreviousCheckpoint deploymentState onMainNetOrTestNet3
     BlockSerializeSize FetchEntry addInputUtxos connectTransaction
     connectTransactions calcSequenceLock checkBlockScripts Bip16Activation
     bestChainTip).

(** X21.  A header that [CheckBlockHeaderContext] accepts on top of the tip
    has done the work it claims (a target in range and a hash at most the
    target: no flag is set), carries the required difficulty, has a
    timestamp of whole seconds that is after the past median time of the tip
    and at most 7200 seconds after the adjusted time, and agrees with the
    checkpoints. *)
Theorem CheckBlockHeaderContext_accepts (b : BlockChain)
    (header : BlockHeader) (tip : blockNode) :
  bestChainTip = Some tip ->
  headerCheck b header = Some None ->
  0 < CompactToBig (Bits header) <= PowLimit (chainParams b)
  /\ HashToBig (BlockHash header) <= CompactToBig (Bits header)
  /\ calcNextRequiredDifficulty tip (Timestamp header)
       (SelectDifficultyAdjustmentAlgorithm tip) = Ok (Bits header)
  /\ Nanosecond (Timestamp header) = 0
  /\ Time_After (Timestamp header) (CalcPastMedianTime (Some tip)) = true
  /\ Unix (Timestamp header) <= Unix AdjustedTime + 7200
  /\ verifyCheckpoint (int32 (node_height tip + 1)) (BlockHash header) = true.
Proof.
  intros Htip. unfold CheckBlockHeaderContext. cbv zeta. rewrite Htip.
  destruct (checkBlockHeaderSanity CompactToBig BlockHash AdjustedTime header
              (PowLimit (chainParams b)) BFNone) as [e|] eqn:Hsane;
    [discriminate|].
  intros Hctx.
  apply (proj1 (checkBlockHeaderContext_None_iff _ _ _ _ _ _ _ _ _ _))
    in Hctx as (Hslow & Hcp & _).
  destruct (Hslow eq_refl) as [Hdiff Hafter]. clear Hslow.
  unfold checkBlockHeaderSanity in Hsane.
  destruct (checkProofOfWork CompactToBig BlockHash header
              (PowLimit (chainParams b)) BFNone) as [e|] eqn:Hpow;
    [discriminate|].
  apply (proj1 (checkProofOfWork_None_iff _ _ _ _ _)) in Hpow as [Hr Hh].
  specialize (Hh eq_refl).
  unfold Time_Equal, time_Unix, Time_After, Time_AddSeconds in Hsane.
  cbn [Unix Nanosecond] in Hsane. rewrite Z.eqb_refl in Hsane.
  cbn [andb] in Hsane.
  destruct (Z.eqb_spec (Nanosecond (Timestamp header)) 0) as [Hn0 | Hn0];
    cbn [negb] in Hsane; [|discriminate].
  change MaxTimeOffsetSeconds with 7200 in Hsane.
  destruct (Z.ltb_spec (Unix AdjustedTime + 7200) (Unix (Timestamp header)))
    as [Hlate | Hok]; cbn [orb] in Hsane; [discriminate|].
  repeat split; try assumption; lia.
Qed.

(** X22.  [CheckConnectBlockTemplate] turns down a block whose previous
    block is not the tip with [ErrPrevBlockNotBest] before any other check;
    and it never sets [BFUpgrade9]: above the MagneticAnomaly height a
    block whose coinbase serializes to fewer than 100 bytes is turned down
    with [ErrTxTooSmall], whatever the Upgrade9 height is. *)
Theorem CheckConnectBlockTemplate_sanity (b : BlockChain) (block : Block)
    (tip : blockNode) :
  bestChainTip = Some tip ->
  (node_hash tip <> PrevBlock (Header block) ->
   template b block
   = (Return (Some (ruleError ErrPrevBlockNotBest)), templateState))
  /\ (node_hash tip = PrevBlock (Header block) ->
      MagneticAnonomalyForkHeight (chainParams b) < Height block ->
      checkBlockHeaderSanity CompactToBig BlockHash AdjustedTime
        (Header block) (PowLimit (chainParams b))
        (mkBehaviorFlags false true true false) = None ->
      forall coinbaseTx others,
        Transactions block = coinbaseTx :: others ->
        IsCoinBase coinbaseTx = true ->
        Forall (fun tx => IsCoinBase tx = false) others ->
        TxOuts (MsgTx_of coinbaseTx) <> [] ->
        SerializeSize (MsgTx_of coinbaseTx) < 100 ->
        template b block
        = (Return (Some (ruleError ErrTxTooSmall)), templateState)).
Proof.
  intros Htip. unfold CheckConnectBlockTemplate. cbv zeta. rewrite Htip.
  split.
  - intros Hne.
    destruct (Z.eqb_spec (node_hash tip) (PrevBlock (Header block)));
      [contradiction | reflexivity].
  - intros Heq Hma Hsane coinbaseTx others Htxs Hcb Hothers Houts Hsize.
    destruct (Z.eqb_spec (node_hash tip) (PrevBlock (Header block)));
      [|contradiction]. cbn [negb].
    destruct (Z.ltb_spec (MagneticAnonomalyForkHeight (chainParams b))
                (Height block)); [|lia].
    cbn [BFFastAdd BFNoPoWCheck BFUpgrade9].
    unfold checkBlockSanity. rewrite Hsane, Htxs, Hcb. cbn [negb].
    rewrite (proj2 (existsb_false_Forall IsCoinBase others) Hothers).
    cbn [BFMagneticAnomaly BFUpgrade9 checkTransactionsLoop].
    change (1 <? 0) with false. cbn [andb].
    unfold CheckTransactionSanity. cbv zeta.
    apply IsCoinBaseTx_spec in Hcb as (txIn0 & Hins & _). rewrite Hins.
    cbn [length]. change (Z.of_nat 1 =? 0) with false.
    destruct (TxOuts (MsgTx_of coinbaseTx)) as [|o outs]; [contradiction|].
    cbn [length]. rewrite Nat2Z.inj_succ.
    destruct (Z.eqb_spec (Z.succ (Z.of_nat (length outs))) 0); [lia|].
    change MaxTransactionSize with 1000000.
    destruct (Z.ltb_spec 1000000 (SerializeSize (MsgTx_of coinbaseTx))); [lia|].
    cbn [orb]. change MagneticAnomalyMinTransactionSize with 100.
    destruct (Z.ltb_spec (SerializeSize (MsgTx_of coinbaseTx)) 100); [|lia].
    reflexivity.
Qed.

End EntryPointProperties.

Lemma CheckBlockHeaderContext_accepts_witness :
  0 < compactToBig (Bits (sampleHeader 0)) <= PowLimit (chainParams sampleChain)
  /\ HashToBig (sampleBlockHash (sampleHeader 0))
     <= compactToBig (Bits (sampleHeader 0))
  /\ Ok (Bits (sampleHeader 0)) = Ok (Bits (sampleHeader 0))
  /\ Nanosecond (Timestamp (sampleHeader 0)) = 0
  /\ Time_After (Timestamp (sampleHeader 0)) (sampleMedianTime (Some sampleTip))
     = true
  /\ Unix (Timestamp (sampleHeader 0)) <= Unix sampleNow + 7200
  /\ true = true.
Proof.
  apply (CheckBlockHeaderContext_accepts compactToBig sampleBlockHash
           sampleNow (fun _ => 0%nat)
           (fun _ _ _ => Ok (Bits (sampleHeader 0))) sampleMedianTime
           (fun _ _ => true) (Ok None) (Some sampleTip) sampleChain
           (sampleHeader 0) sampleTip).
  - reflexivity.
  - vm_compute. reflexivity.
Defined.

Lemma CheckConnectBlockTemplate_sanity_witness :
  CheckConnectBlockTemplate wireSize compactToBig sampleBlockHash xorRoot
    sampleNow (fun _ => 0%nat) (fun _ _ _ => Ok (Bits (sampleHeader 0)))
    sampleMedianTime (fun _ _ => true) (Ok None) csvActive true
    (fun _ => 1000) emptyStore loadedView sampleConnectTransaction
    sampleConnectTransactions noRelativeLock acceptingScripts
    sampleBip16Activation (Some sampleTip) sampleChain smallCoinbaseBlock
  = (Return (Some (ruleError ErrTxTooSmall)), templateState).
Proof.
  apply (CheckConnectBlockTemplate_sanity wireSize compactToBig
           sampleBlockHash xorRoot sampleNow (fun _ => 0%nat)
           (fun _ _ _ => Ok (Bits (sampleHeader 0)))
           sampleMedianTime (fun _ _ => true) (Ok None) csvActive true
           (fun _ => 1000) emptyStore loadedView sampleConnectTransaction
           sampleConnectTransactions noRelativeLock acceptingScripts
           sampleBip16Activation (Some sampleTip) sampleChain
           smallCoinbaseBlock sampleTip eq_refl)
    with (coinbaseTx := smallCoinbase) (others := @nil Tx).
  - reflexivity.
  - vm_compute. reflexivity.
  - vm_compute. reflexivity.
  - reflexivity.
  - reflexivity.
  - constructor.
  - discriminate.
  - vm_compute. reflexivity.
Defined.

(** ** Script error codes *)

Lemma knownCodes_In (e : TxScript.ErrorCode) :
  In e TxScript.knownCodes <-> 0 <= e < TxScript.numErrorCodes.
Proof.
  unfold TxScript.knownCodes. rewrite in_map_iff. split.
  - intros (n & <- & Hn). apply in_seq in Hn.
    change TxScript.numErrorCodes with 66 in *. lia.
  - intros He. exists (Z.to_nat e). split; [lia|].
    apply in_seq. change TxScript.numErrorCodes with 66 in *. lia.
Qed.

Lemma knownCodes_named (e : TxScript.ErrorCode) :
  In e TxScript.knownCodes ->
  TxScript.errorCodeStrings !! e = Some (TxScript.String e)
  /\ TxScript.String e <> String.EmptyString
  /\ (exists rest,
        TxScript.String e = String.String (Ascii.ascii_of_nat 69) rest).
Proof.
  intros Hin.
  assert (Hall :
    forallb
      (fun c =>
         match TxScript.errorCodeStrings !! c with
         | Some s =>
             String.eqb s (TxScript.String c)
             && match s with
                | String.String a _ => Ascii.eqb a (Ascii.ascii_of_nat 69)
                | String.EmptyString => false
                end
         | None => false
         end) TxScript.knownCodes = true) by (vm_compute; reflexivity).
  rewrite forallb_forall in Hall. specialize (Hall e Hin).
  destruct (TxScript.errorCodeStrings !! e) as [s|]; [|discriminate].
  apply andb_true_iff in Hall as [Hs Ha]. apply String.eqb_eq in Hs.
  rewrite <- Hs. destruct s as [|a rest]; [discriminate|].
  apply Ascii.eqb_eq in Ha. subst a.
  split; [reflexivity|]. split; [discriminate|]. exists rest. reflexivity.
Qed.

Lemma unknownCodes_unnamed (e : TxScript.ErrorCode) :
  ~ In e TxScript.knownCodes ->
  TxScript.errorCodeStrings !! e = None
  /\ TxScript.String e = TxScript.unknownErrorCode e.
Proof.
  intros Hout.
  assert (Hnone : TxScript.errorCodeStrings !! e = None).
  { unfold TxScript.errorCodeStrings.
    apply not_elem_of_list_to_map_1. intros Hin.
    apply Hout. apply list_elem_of_In in Hin. revert Hin.
    match goal with
    | |- In e ?keys -> _ =>
        assert (Hkeys : forallb (fun k => existsb (Z.eqb k) TxScript.knownCodes)
                          keys = true) by (vm_compute; reflexivity);
        intros Hin; rewrite forallb_forall in Hkeys;
        specialize (Hkeys e Hin)
    end.
    apply existsb_exists in Hkeys as (k & Hk & Heq).
    apply Z.eqb_eq in Heq. subst k. exact Hk. }
  split; [exact Hnone|]. unfold TxScript.String. rewrite Hnone. reflexivity.
Qed.

(** X23.  [String] gives every code below [numErrorCodes] the name the map
    holds for it, which is not empty and not the text for an unknown code;
    every other number, the negative ones too, has no entry and is printed
    as [Unknown ErrorCode] with its decimal numeral. *)
Theorem ErrorCode_String_cases (e : TxScript.ErrorCode) :
  (0 <= e < TxScript.numErrorCodes ->
   TxScript.errorCodeStrings !! e = Some (TxScript.String e)
   /\ TxScript.String e <> String.EmptyString
   /\ TxScript.String e <> TxScript.unknownErrorCode e)
  /\ (~ 0 <= e < TxScript.numErrorCodes ->
      TxScript.errorCodeStrings !! e = None
      /\ TxScript.String e = TxScript.unknownErrorCode e).
Proof.
  split.
  - intros He. apply knownCodes_In in He.
    destruct (knownCodes_named e He) as (Hs & Hne & rest & Hname).
    split; [exact Hs|]. split; [exact Hne|].
    rewrite Hname. unfold TxScript.unknownErrorCode. cbn [String.append].
    intros H. injection H as H _. vm_compute in H. discriminate H.
  - intros He. apply unknownCodes_unnamed. rewrite knownCodes_In. exact He.
Qed.

Lemma append_inj_l (s t1 t2 : String.string) :
  String.append s t1 = String.append s t2 -> t1 = t2.
Proof.
  induction s as [|a s IH]; cbn [String.append]; [trivial|].
  intros H. injection H as H. exact (IH H).
Qed.

Lemma append_char_inj (s1 s2 : String.string) (a : Ascii.ascii) :
  String.append s1 (String.String a String.EmptyString)
  = String.append s2 (String.String a String.EmptyString) ->
  s1 = s2.
Proof.
  revert s2. induction s1 as [|c1 s1 IH]; intros [|c2 s2];
    cbn [String.append]; intros H.
  - reflexivity.
  - injection H as _ H. destruct s2; discriminate H.
  - injection H as _ H. destruct s1; discriminate H.
  - injection H as -> H. f_equal. exact (IH _ H).
Qed.

Lemma sprintf_d_inj (n m : Z) :
  TxScript.sprintf_d n = TxScript.sprintf_d m -> n = m.
Proof.
  unfold TxScript.sprintf_d. intros H.
  assert (Hnn : forall z, Z.to_int z <> Decimal.Pos Decimal.Nil
                          /\ Z.to_int z <> Decimal.Neg Decimal.Nil).
  { intros [|p|p]; cbn; split; try discriminate;
      intros Hp; injection Hp as Hp;
      exact (DecimalPos.Unsigned.to_uint_nonnil _ Hp). }
  apply DecimalZ.to_int_inj.
  pose proof (DecimalString.NilZero.isi (Z.to_int n)
                (proj1 (Hnn n)) (proj2 (Hnn n))) as H1.
  pose proof (DecimalString.NilZero.isi (Z.to_int m)
                (proj1 (Hnn m)) (proj2 (Hnn m))) as H2.
  rewrite H in H1. congruence.
Qed.

(** X24.  [String] never gives two numbers the same text: the names of the
    codes differ from one another and from every text for an unknown code,
    and the texts for unknown codes differ with the number. *)
Theorem ErrorCode_String_inj (e1 e2 : TxScript.ErrorCode) :
  TxScript.String e1 = TxScript.String e2 -> e1 = e2.
Proof.
  intros H.
  assert (Hdec : forall e, {In e TxScript.knownCodes}
                           + {~ In e TxScript.knownCodes}).
  { intros e. apply in_dec. apply Z.eq_dec. }
  assert (Hmix : forall a b,
             In a TxScript.knownCodes -> ~ In b TxScript.knownCodes ->
             TxScript.String a <> TxScript.String b).
  { intros a b Ha Hb Heq.
    destruct (knownCodes_named a Ha) as (_ & _ & rest & Hname).
    destruct (unknownCodes_unnamed b Hb) as [_ Hun].
    rewrite Hname, Hun in Heq. unfold TxScript.unknownErrorCode in Heq.
    cbn [String.append] in Heq. injection Heq as Heq _.
    vm_compute in Heq. discriminate Heq. }
  destruct (Hdec e1) as [H1 | H1], (Hdec e2) as [H2 | H2].
  - assert (Hall :
      forallb
        (fun a =>
           forallb
             (fun b =>
                implb (String.eqb (TxScript.String a) (TxScript.String b))
                  (a =? b)) TxScript.knownCodes) TxScript.knownCodes
      = true) by (vm_compute; reflexivity).
    rewrite forallb_forall in Hall. specialize (Hall e1 H1).
    rewrite forallb_forall in Hall. specialize (Hall e2 H2).
    rewrite (proj2 (String.eqb_eq _ _) H) in Hall. cbn [implb] in Hall.
    apply Z.eqb_eq. exact Hall.
  - exfalso. exact (Hmix e1 e2 H1 H2 H).
  - exfalso. exact (Hmix e2 e1 H2 H1 (eq_sym H)).
  - destruct (unknownCodes_unnamed e1 H1) as [_ Hu1].
    destruct (unknownCodes_unnamed e2 H2) as [_ Hu2].
    rewrite Hu1, Hu2 in H. unfold TxScript.unknownErrorCode in H.
    apply append_inj_l, append_char_inj in H.
    apply sprintf_d_inj. exact H.
Qed.

Lemma ErrorCode_String_inj_witness :
  TxScript.ErrScriptTooBig = TxScript.ErrInternal + 12.
Proof.
  apply (ErrorCode_String_inj TxScript.ErrScriptTooBig
           (TxScript.ErrInternal + 12)).
  vm_compute. reflexivity.
Defined.


(** ** More on the context-free checks *)

(** X26.  [CheckTransactionSanity] does not look at the script flags it is
    given, and the forks only add the size floor: a transaction that passes
    under MagneticAnomaly alone (the floor of 100 bytes) passes under every
    fork setting, and one that passes under some setting passes with no
    fork active. *)
Theorem CheckTransactionSanity_forks (SerializeSize : MsgTx -> Z) (tx : Tx)
    (magneticAnomalyActive upgrade9Active : bool)
    (scriptFlags : ScriptFlags) :
  (forall scriptFlags',
      CheckTransactionSanity SerializeSize tx magneticAnomalyActive
        upgrade9Active scriptFlags
      = CheckTransactionSanity SerializeSize tx magneticAnomalyActive
          upgrade9Active scriptFlags')
  /\ (CheckTransactionSanity SerializeSize tx true false scriptFlags = None ->
      CheckTransactionSanity SerializeSize tx magneticAnomalyActive
        upgrade9Active scriptFlags = None)
  /\ (CheckTransactionSanity SerializeSize tx magneticAnomalyActive
        upgrade9Active scriptFlags = None ->
      CheckTransactionSanity SerializeSize tx false false scriptFlags = None).
Proof.
  split; [reflexivity|].
  unfold CheckTransactionSanity. cbv zeta.
  destruct (Z.of_nat (length (TxIns (MsgTx_of tx))) =? 0);
    [split; discriminate|].
  destruct (Z.of_nat (length (TxOuts (MsgTx_of tx))) =? 0);
    [split; discriminate|].
  destruct (MaxTransactionSize <? SerializeSize (MsgTx_of tx));
    [split; discriminate|].
  change MagneticAnomalyMinTransactionSize with 100.
  change MinTransactionSize with 65.
  destruct magneticAnomalyActive, upgrade9Active; cbn [orb];
    repeat match goal with
           | |- context [SerializeSize ?m <? ?k] =>
               destruct (Z.ltb_spec (SerializeSize m) k)
           end;
    split; first [discriminate | lia | trivial].
Qed.

(** X27.  A block that the exported [CheckBlockSanity] accepts passes
    [CheckProofOfWork] (the proof-of-work test is never skipped there),
    starts with a coinbase, and each of its transactions passes
    [CheckTransactionSanity] under the two fork settings given. *)
Theorem CheckBlockSanity_accepts (SerializeSize : MsgTx -> Z)
    (CompactToBig : Z -> Z) (BlockHash : BlockHeader -> Hash)
    (calcMerkleRoot : list Tx -> Hash) (AdjustedTime : Time)
    (block : Block) (powLimit : Z)
    (magneticAnomalyActive upgrade9Active : bool) :
  CheckBlockSanity SerializeSize CompactToBig BlockHash calcMerkleRoot
    AdjustedTime block powLimit magneticAnomalyActive upgrade9Active = None ->
  CheckProofOfWork CompactToBig BlockHash block powLimit = None
  /\ (exists coinbaseTx others,
        Transactions block = coinbaseTx :: others
        /\ IsCoinBase coinbaseTx = true)
  /\ Forall (fun tx =>
               CheckTransactionSanity SerializeSize tx magneticAnomalyActive
                 upgrade9Active (sanityScriptFlags magneticAnomalyActive)
               = None)
       (Transactions block).
Proof.
  unfold CheckBlockSanity. cbv zeta.
  set (flags := if upgrade9Active then _ else _).
  assert (Hpow : BFNoPoWCheck flags = false)
    by (subst flags; destruct upgrade9Active, magneticAnomalyActive;
        reflexivity).
  assert (Hma : BFMagneticAnomaly flags = magneticAnomalyActive)
    by (subst flags; destruct upgrade9Active, magneticAnomalyActive;
        reflexivity).
  assert (Hu9 : BFUpgrade9 flags = upgrade9Active)
    by (subst flags; destruct upgrade9Active, magneticAnomalyActive;
        reflexivity).
  clearbody flags. unfold checkBlockSanity. cbv zeta.
  destruct (checkBlockHeaderSanity CompactToBig BlockHash AdjustedTime
              (Header block) powLimit flags) as [e|] eqn:Hhdr; [discriminate|].
  unfold checkBlockHeaderSanity in Hhdr.
  destruct (checkProofOfWork CompactToBig BlockHash (Header block) powLimit
              flags) as [e|] eqn:Hwork; [discriminate|].
  apply (proj1 (checkProofOfWork_None_iff _ _ _ _ _)) in Hwork as [Hr Hh].
  specialize (Hh Hpow).
  destruct (Transactions block) as [|coinbaseTx others]; [discriminate|].
  destruct (IsCoinBase coinbaseTx) eqn:Hcb; cbn [negb]; [|discriminate].
  destruct (existsb IsCoinBase others); [discriminate|].
  rewrite Hma, Hu9.
  destruct (checkTransactionsLoop SerializeSize magneticAnomalyActive
              upgrade9Active (sanityScriptFlags magneticAnomalyActive) 0
              zeroHash (coinbaseTx :: others)) as [e|] eqn:Hloop;
    [discriminate|].
  intros _.
  apply (proj1 (checkTransactionsLoop_block _ _ _ _ _ _)) in Hloop
    as [Hall _].
  split.
  - unfold CheckProofOfWork. apply checkProofOfWork_None_iff.
    split; [exact Hr|]. intros _. exact Hh.
  - split; [|exact Hall]. exists coinbaseTx, others.
    split; [reflexivity | exact Hcb].
Qed.

Lemma CheckBlockSanity_accepts_witness :
  CheckProofOfWork compactToBig sampleBlockHash
    (sampleBlock [sampleCoinbase 9]) (PowLimit mainNetLike) = None
  /\ (exists coinbaseTx others,
        Transactions (sampleBlock [sampleCoinbase 9]) = coinbaseTx :: others
        /\ IsCoinBase coinbaseTx = true)
  /\ Forall (fun tx =>
               CheckTransactionSanity wireSize tx true false
                 (sanityScriptFlags true) = None)
       (Transactions (sampleBlock [sampleCoinbase 9])).
Proof.
  apply (CheckBlockSanity_accepts wireSize compactToBig sampleBlockHash
           xorRoot sampleNow (sampleBlock [sampleCoinbase 9])
           (PowLimit mainNetLike) true false).
  vm_compute. reflexivity.
Defined.

(** ** The transactions a run touches *)

Lemma connectInputsLoop_members
    (connectTransaction :
       UtxoViewpoint -> Tx -> Z -> option (list SpentTxOut) -> bool ->
       UtxoViewpoint * option (list SpentTxOut) * option error)
    (I : list Event -> Prop) (Q : Event -> Prop) (b : BlockChain)
    (node : blockNode) (magneticAnomalyActive : bool) (txs : list Tx)
    (totalFees : Z) :
  stable I Q ->
  (forall tx, In tx txs -> Q (EvConnectTransaction tx)) ->
  preserves I (connectInputsLoop connectTransaction b node
                 magneticAnomalyActive txs totalFees).
Proof.
  intros Hst. revert totalFees.
  induction txs as [|tx txs IH]; intros totalFees Hq;
    cbn [connectInputsLoop].
  - apply (preserves_ret I).
  - unfold call_connectTransaction.
    assert (Hhd : Q (EvConnectTransaction tx)) by (apply Hq; left; reflexivity).
    repeat preserves_step.
    all: apply IH; intros tx' Hin; apply Hq; right; exact Hin.
Qed.

Lemma sequenceLocksLoop_members
    (calcSequenceLock :
       blockNode -> Tx -> UtxoViewpoint -> bool -> result SequenceLock)
    (I : list Event -> Prop) (Q : Event -> Prop) (node : blockNode)
    (medianTime : Time) (txs : list Tx) :
  stable I Q ->
  (forall tx, In tx txs -> Q (EvCalcSequenceLock tx)) ->
  preserves I (sequenceLocksLoop calcSequenceLock node medianTime txs).
Proof.
  intros Hst. induction txs as [|tx txs IH]; intros Hq;
    cbn [sequenceLocksLoop].
  - apply (preserves_ret I).
  - assert (Hhd : Q (EvCalcSequenceLock tx)) by (apply Hq; left; reflexivity).
    repeat preserves_step.
    apply IH; intros tx' Hin; apply Hq; right; exact Hin.
Qed.

Section ConnectTransactionsTouched.

Variable FetchEntry : OutPoint -> result (option UtxoEntry).
Variable addInputUtxos :
  UtxoViewpoint -> Block -> bool -> UtxoViewpoint * option error.
Variable connectTransaction :
  UtxoViewpoint -> Tx -> Z -> option (list SpentTxOut) -> bool ->
  UtxoViewpoint * option (list SpentTxOut) * option error.
Variable connectTransactions :
  UtxoViewpoint -> Block -> option (list SpentTxOut) -> bool ->
  UtxoViewpoint * option (list SpentTxOut) * option error.
Variable deploymentState : option blockNode -> result ThresholdState.
Variable calcSequenceLock :
  blockNode -> Tx -> UtxoViewpoint -> bool -> result SequenceLock.
Variable checkBlockScripts :
  Block -> UtxoViewpoint -> ScriptFlags -> Z -> Z -> option error.
Variable CalcPastMedianTime : option blockNode -> Time.
Variable Bip16Activation : Time.

(** X28.  The transactions [checkConnectBlock] connects one by one and
    those it computes a sequence lock for are transactions of the block, and
    it computes sequence locks only when the CSV deployment is active. *)
Theorem checkConnectBlock_touches_block_transactions
    (b : BlockChain) (node : blockNode) (block : Block) (s : ConnectState) :
  st_trace s = [] ->
  let trace :=
    st_trace
      (snd (checkConnectBlock FetchEntry addInputUtxos connectTransaction
              connectTransactions deploymentState calcSequenceLock
              checkBlockScripts CalcPastMedianTime Bip16Activation b node
              block s)) in
  (forall tx, In (EvConnectTransaction tx) trace ->
              In tx (Transactions block))
  /\ (forall tx, In (EvCalcSequenceLock tx) trace ->
                 In tx (Transactions block)
                 /\ deploymentState (node_parent node) = Ok ThresholdActive).
Proof.
  intros Hnil trace.
  pose (Q := fun ev =>
               match ev with
               | EvConnectTransaction tx => In tx (Transactions block)
               | EvCalcSequenceLock tx =>
                   In tx (Transactions block)
                   /\ deploymentState (node_parent node) = Ok ThresholdActive
               | _ => True
               end).
  assert (Hst : stable (Forall Q) Q).
  { intros tr ev Htr Hev. apply Forall_app. split; [exact Htr|].
    constructor; [exact Hev | constructor]. }
  assert (Hrun : preserves (Forall Q)
                   (checkConnectBlock FetchEntry addInputUtxos
                      connectTransaction connectTransactions deploymentState
                      calcSequenceLock checkBlockScripts CalcPastMedianTime
                      Bip16Activation b node block)).
  { subst Q.
    unfold checkConnectBlock, call_addInputUtxos, call_connectTransactions.
    repeat lazymatch goal with
           | |- preserves _ (connectInputsLoop _ _ _ _ _ _) =>
               apply (connectInputsLoop_members _ _ _ _ _ _ _ _ Hst);
               intros tx0 Hin0; exact Hin0
           | |- preserves _ (sequenceLocksLoop _ _ _ _) =>
               apply (sequenceLocksLoop_members _ _ _ _ _ _ Hst);
               intros tx0 Hin0; split; [exact Hin0|];
               f_equal; eapply bool_decide_eq_true_1; eassumption
           | |- preserves _ (emit _) =>
               apply (preserves_emit _ _ Hst); exact Logic.I
           | |- _ => run_step
           end. }
  specialize (Hrun s). rewrite Hnil in Hrun.
  specialize (Hrun (List.Forall_nil _)).
  fold trace in Hrun. rewrite List.Forall_forall in Hrun.
  split.
  - intros tx Hin. exact (Hrun _ Hin).
  - intros tx Hin. exact (Hrun _ Hin).
Qed.

End ConnectTransactionsTouched.

Lemma checkConnectBlock_touches_block_transactions_witness :
  let trace :=
    st_trace
      (snd (sampleRun sampleConnectTransactions (nodeAt 400000 1234)
              (blockAt 400000 [coinbasePaying 2500000000 5; spendCoinbase])
              viewWithCoinbase)) in
  (forall tx, In (EvConnectTransaction tx) trace ->
              In tx (Transactions
                       (blockAt 400000
                          [coinbasePaying 2500000000 5; spendCoinbase])))
  /\ (forall tx, In (EvCalcSequenceLock tx) trace ->
                 In tx (Transactions
                          (blockAt 400000
                             [coinbasePaying 2500000000 5; spendCoinbase]))
                 /\ csvActive (node_parent (nodeAt 400000 1234))
                    = Ok ThresholdActive).
Proof.
  apply (checkConnectBlock_touches_block_transactions emptyStore loadedView
           sampleConnectTransaction sampleConnectTransactions csvActive
           noRelativeLock acceptingScripts sampleMedianTime
           sampleBip16Activation sampleChain (nodeAt 400000 1234)
           (blockAt 400000 [coinbasePaying 2500000000 5; spendCoinbase])
           (startState viewWithCoinbase)).
  reflexivity.
Defined.

(** ** The loops of [checkConnectBlock] *)

Lemma int64_range (z : Z) : - 2 ^ 63 <= int64 z < 2 ^ 63.
Proof.
  unfold int64, wrap_signed.
  pose proof (Z.mod_pos_bound (z + 2 ^ (64 - 1)) (2 ^ 64) ltac:(lia)).
  change (2 ^ (64 - 1)) with 9223372036854775808 in *.
  change (2 ^ 64) with 18446744073709551616 in *.
  change (2 ^ 63) with 9223372036854775808. lia.
Qed.

Lemma CheckTransactionInputs_int64 (tx : Tx) (txHeight : Z)
    (utxoView : UtxoViewpoint) (params : Params) (fee : Z) :
  CheckTransactionInputs tx txHeight utxoView params = Ok fee ->
  - 2 ^ 63 <= fee < 2 ^ 63.
Proof.
  unfold CheckTransactionInputs.
  destruct (IsCoinBase tx).
  - intros H; injection H as <-. lia.
  - destruct (checkInputsLoop _ _ _ _ 0) as [totalIn | e]; [|discriminate].
    cbv zeta. destruct (_ <? _); [discriminate|].
    intros H; injection H as <-. apply int64_range.
Qed.

Lemma add64_no_wrap (totalFees txFee : Z) :
  0 <= totalFees < 2 ^ 63 ->
  - 2 ^ 63 <= txFee < 2 ^ 63 ->
  (add64 totalFees txFee <? totalFees) = false ->
  0 <= txFee /\ add64 totalFees txFee = totalFees + txFee
  /\ totalFees + txFee < 2 ^ 63.
Proof.
  intros Ht Hf Hcmp. apply Z.ltb_ge in Hcmp.
  unfold add64, int64, wrap_signed in *.
  change (2 ^ (64 - 1)) with 9223372036854775808 in *.
  change (2 ^ 64) with 18446744073709551616 in *.
  change (2 ^ 63) with 9223372036854775808 in *.
  destruct (Z_lt_le_dec (totalFees + txFee) 9223372036854775808) as [Hlt | Hge].
  - rewrite Z.mod_small in * by lia. lia.
  - exfalso.
    replace (totalFees + txFee + 9223372036854775808)
      with (totalFees + txFee - 9223372036854775808
            + 1 * 18446744073709551616) in Hcmp by lia.
    rewrite Z.mod_add in Hcmp by lia.
    rewrite Z.mod_small in Hcmp by lia. lia.
Qed.

Section LoopProperties.

Variable connectTransaction :
  UtxoViewpoint -> Tx -> Z -> option (list SpentTxOut) -> bool ->
  UtxoViewpoint * option (list SpentTxOut) * option error.
Variable calcSequenceLock :
  blockNode -> Tx -> UtxoViewpoint -> bool -> result SequenceLock.

(** X29.  With MagneticAnomaly active the loop of [checkConnectBlock] over
    the transactions changes nothing, and it gets through only when every
    transaction passes [CheckTransactionInputs] against the one view with a
    fee that is not negative and the exact sum of the fees stays below 2^63:
    the total it hands on is that exact sum, so a negative fee and an
    overflow of the accumulator are both turned down. *)
Theorem connectInputsLoop_fees (b : BlockChain) (node : blockNode)
    (txs : list Tx) (totalFees total : Z) (s s' : ConnectState) :
  0 <= totalFees < 2 ^ 63 ->
  connectInputsLoop connectTransaction b node true txs totalFees s
  = (Next total, s') ->
  s' = s
  /\ exists fees,
       Forall2 (fun tx txFee =>
                  CheckTransactionInputs tx (node_height node) (st_view s)
                    (chainParams b) = Ok txFee
                  /\ 0 <= txFee) txs fees
       /\ total = totalFees + feeSum fees
       /\ total < 2 ^ 63.
Proof.
  revert totalFees. induction txs as [|tx txs IH]; intros totalFees Ht;
    cbn [connectInputsLoop].
  - unfold ret. intros H; injection H as <- <-.
    split; [reflexivity|]. exists []. cbn [feeSum fold_right].
    split; [constructor | lia].
  - unfold bind at 1. unfold getView at 1. cbn [negb].
    destruct (CheckTransactionInputs tx (node_height node) (st_view s)
                (chainParams b)) as [txFee | e] eqn:Hfee;
      [|unfold leave; discriminate].
    cbv zeta.
    destruct (add64 totalFees txFee <? totalFees) eqn:Hcmp;
      [unfold leave; discriminate|].
    pose proof (CheckTransactionInputs_int64 _ _ _ _ _ Hfee) as Hr.
    destruct (add64_no_wrap totalFees txFee Ht Hr Hcmp) as (Hnn & Hadd & Hlt).
    rewrite Hadd. unfold bind at 1. unfold ret at 1.
    intros Hrun. destruct (IH (totalFees + txFee) ltac:(lia) Hrun)
      as (-> & fees & Hall & -> & Hbound).
    split; [reflexivity|]. exists (txFee :: fees).
    cbn [feeSum fold_right]. fold (feeSum fees).
    split; [constructor; [split; assumption | exact Hall]|].
    split; lia.
Qed.

(** X30.  The sequence-lock loop of [checkConnectBlock] leaves the view and
    the spent-txout log as they are, and it gets through exactly when
    [calcSequenceLock] answers for every transaction, against that view,
    with a lock whose seconds are before the past median time and whose
    height is below the height of the node. *)
Theorem sequenceLocksLoop_passes (node : blockNode) (medianTime : Time)
    (txs : list Tx) (s : ConnectState) :
  let run := sequenceLocksLoop calcSequenceLock node medianTime txs s in
  st_view (snd run) = st_view s
  /\ st_stxos (snd run) = st_stxos s
  /\ (fst run = Next tt <->
      Forall (fun tx =>
                exists sequenceLock,
                  calcSequenceLock node tx (st_view s) false = Ok sequenceLock
                  /\ Seconds sequenceLock < Unix medianTime
                  /\ sl_BlockHeight sequenceLock < node_height node) txs).
Proof.
  cbv zeta. revert s. induction txs as [|tx txs IH]; intros s;
    cbn [sequenceLocksLoop].
  - unfold ret. cbn [fst snd]. split; [reflexivity|]. split; [reflexivity|].
    split; [intros _; constructor | reflexivity].
  - unfold bind, emit, getView. cbn [st_view].
    set (s1 := mkConnectState (st_view s) (st_stxos s)
                 (st_trace s ++ [EvCalcSequenceLock tx])).
    destruct (calcSequenceLock node tx (st_view s) false)
      as [sequenceLock | e] eqn:Hlock.
    2:{ unfold leave. cbn [fst snd]. subst s1. cbn [st_view st_stxos].
        split; [reflexivity|]. split; [reflexivity|].
        split; [discriminate|]. intros H. inversion H as [|? ? (l & Hl & _)].
        congruence. }
    unfold SequenceLockActive.
    destruct (Z.leb_spec (Unix medianTime) (Seconds sequenceLock)) as [Hs | Hs];
      destruct (Z.leb_spec (node_height node) (sl_BlockHeight sequenceLock))
        as [Hh | Hh]; cbn [orb negb].
    1, 2, 3: unfold leave; cbn [fst snd]; subst s1; cbn [st_view st_stxos];
      (split; [reflexivity|]); (split; [reflexivity|]);
      (split; [discriminate|]); intros H;
      inversion H as [|? ? (l & Hl & Hsec & Hht)];
      rewrite Hlock in Hl; injection Hl as <-; lia.
    destruct (IH s1) as (Hv & Hx & Hiff). subst s1.
    cbn [st_view st_stxos] in *.
    split; [exact Hv|]. split; [exact Hx|]. rewrite Hiff. split.
    + intros Hall. constructor; [|exact Hall].
      exists sequenceLock. repeat split; assumption.
    + intros Hall. inversion Hall; assumption.
Qed.

End LoopProperties.

Lemma connectInputsLoop_fees_witness :
  startState viewWithCoinbase = startState viewWithCoinbase
  /\ exists fees,
       Forall2 (fun tx txFee =>
                  CheckTransactionInputs tx (node_height (nodeAt 600000 33))
                    (st_view (startState viewWithCoinbase))
                    (chainParams sampleChain) = Ok txFee
                  /\ 0 <= txFee)
         [coinbasePaying 1250000000 5; spendCoinbase] fees
       /\ 10000 = 0 + feeSum fees
       /\ 10000 < 2 ^ 63.
Proof.
  apply (connectInputsLoop_fees sampleConnectTransaction sampleChain
           (nodeAt 600000 33) [coinbasePaying 1250000000 5; spendCoinbase]
           0 10000 (startState viewWithCoinbase)
           (startState viewWithCoinbase)).
  - lia.
  - vm_compute. reflexivity.
Defined.
